(** * PleinAirSPA_bot: the catalog synchronisation of [bot.py]

    A shallow embedding of the Ozon catalog bot: the three remote calls of
    [OzonSellerAPI] (listing, batched prices, per-item descriptions), the
    reconciliation of their answers into product records, the positional
    cache [products_cache] and the wrap-around navigation of
    [handle_product_action].

    Conventions of the embedding:
    - a Python [str] is a list of Unicode code points, so that [len] and
      slicing count characters, not bytes;
    - a Python [int] is a [Z]; a Python [float] is a [spec_float] (the
      IEEE 754 binary64 values, without NaN payloads);
    - a [dict] used as a map is a [gmap]; a JSON object of which the code
      reads a fixed set of keys is a record whose fields are optional;
    - the remote side is a record of answer functions; every function that
      talks to it returns the log of the requests it issued next to its
      result;
    - a raised exception is the left injection of a sum. *)

From Stdlib Require Import ZArith List Bool Ascii String DecimalString SpecFloat Lia.
From stdpp Require Import base option list gmap.

Local Open Scope Z_scope.

(** ** Python values *)

Module Py.

(** A [str]: its code points. *)
Definition str := list N.

(** An ASCII literal of the source as a [str]. *)
Definition lit (s : String.string) : str :=
  List.map N_of_ascii (String.list_ascii_of_string s).

(** [str(n)] for an [int]. *)
Definition str_of_int (n : Z) : str :=
  lit (NilZero.string_of_int (Z.to_int n)).

(** [str.isspace] of one character, which is also the class [\s] of [re]
    on [str] patterns (CPython's [_PyUnicode_IsWhitespace]). *)
Definition isspace (c : N) : bool :=
  ((9 <=? c) && (c <=? 13) || (28 <=? c) && (c <=? 32)
   || (c =? 133) || (c =? 160) || (c =? 5760)
   || (8192 <=? c) && (c <=? 8202) || (c =? 8232) || (c =? 8233)
   || (c =? 8239) || (c =? 8287) || (c =? 12288))%N.

(** [s.strip()] *)
Fixpoint lstrip (s : str) : str :=
  match s with
  | c :: rest => if isspace c then lstrip rest else s
  | [] => []
  end.
Definition rstrip (s : str) : str := reverse (lstrip (reverse s)).
Definition strip (s : str) : str := rstrip (lstrip s).

(** Exceptions the modelled code can meet. *)
Inductive exn :=
| TypeError | ValueError | OverflowError
| Timeout | ConnectionError.

Definition result (A : Type) : Type := exn + A.

(** The values that a JSON field which the code tests, converts with
    [float] or hands to [re.sub] can hold.  [VContainer nonempty] stands
    for a list or an object, of which the code only observes the truth
    value. *)
Inductive value :=
| VNone
| VBool (b : bool)
| VInt (n : Z)
| VFloat (f : spec_float)
| VStr (s : str)
| VContainer (nonempty : bool).

(** Truth value, as tested by [if v:]. *)
Definition truthy (v : value) : bool :=
  match v with
  | VNone => false
  | VBool b => b
  | VInt n => negb (n =? 0)
  | VFloat (S754_zero _) => false
  | VFloat _ => true
  | VStr s => match s with [] => false | _ => true end
  | VContainer nonempty => nonempty
  end.

(** [float(n)] for an [int]: the nearest binary64, [OverflowError] beyond
    the largest one. *)
Definition float_of_int (n : Z) : result spec_float :=
  match binary_normalize 53 1024 n 0 false with
  | S754_infinity _ | S754_nan => inl OverflowError
  | f => inr f
  end.

(** [int(f)] for a [float]: truncation towards zero. *)
Definition int_of_float (f : spec_float) : result Z :=
  match f with
  | S754_zero _ => inr 0
  | S754_infinity _ => inl OverflowError
  | S754_nan => inl ValueError
  | S754_finite s m e =>
      let a := if 0 <=? e then Z.shiftl (Z.pos m) e
               else Z.shiftr (Z.pos m) (- e) in
      inr (if s then - a else a)
  end.

End Py.

(** ** Regular-expression substitution

    [re.sub(p, repl, s)] for a pattern that matches no empty string: scan
    from the left; where the pattern matches, emit [repl] and resume after
    the match; elsewhere copy one character.  A pattern is given by its
    anchored matcher, which returns the length of the match at the head of
    the text. *)

Module Re.
Import Py.

Definition matcher := str → option nat.

Fixpoint sub_from (m : matcher) (repl : str) (skip : nat) (s : str) : str :=
  match s with
  | [] => []
  | c :: rest =>
      match skip with
      | S k => sub_from m repl k rest
      | O =>
          match m s with
          | Some (S k) => repl ++ sub_from m repl k rest
          | _ => c :: sub_from m repl 0%nat rest
          end
      end
  end.

Definition sub (m : matcher) (repl : str) (s : str) : str :=
  sub_from m repl 0%nat s.

(** Length of the longest prefix of white space. *)
Fixpoint spaces (s : str) : nat :=
  match s with
  | c :: rest => if isspace c then S (spaces rest) else O
  | [] => O
  end.

(** Index of the first occurrence of [x]. *)
Fixpoint index_of (x : N) (s : str) : option nat :=
  match s with
  | [] => None
  | c :: rest => if (c =? x)%N then Some O else S <$> index_of x rest
  end.

(** Index of the last occurrence of [x]. *)
Fixpoint rindex_of (x : N) (s : str) : option nat :=
  match s with
  | [] => None
  | c :: rest =>
      match rindex_of x rest with
      | Some i => Some (S i)
      | None => if (c =? x)%N then Some O else None
      end
  end.

Definition LT : N := 60.      (* < *)
Definition GT : N := 62.      (* > *)
Definition SLASH : N := 47.   (* / *)
Definition NL : N := 10.      (* \n *)
Definition LOWER_B : N := 98.
Definition LOWER_R : N := 114.

(** [<br\s*/?>]: the white space is taken greedily; giving some of it back
    cannot help, as no white space is a slash or a closing bracket. *)
Definition br_tag : matcher := λ s,
  match s with
  | c1 :: c2 :: c3 :: rest =>
      if ((c1 =? LT) && (c2 =? LOWER_B) && (c3 =? LOWER_R))%N then
        let w := spaces rest in
        match drop w rest with
        | d1 :: d2 :: _ =>
            if ((d1 =? SLASH) && (d2 =? GT))%N then Some (3 + w + 2)%nat
            else if (d1 =? GT)%N then Some (3 + w + 1)%nat
            else None
        | [d1] => if (d1 =? GT)%N then Some (3 + w + 1)%nat else None
        | [] => None
        end
      else None
  | _ => None
  end.

(** [<[^>]+>]: an opening bracket, at least one character other than the
    closing bracket, and the first closing bracket. *)
Definition any_tag : matcher := λ s,
  match s with
  | c :: rest =>
      if (c =? LT)%N then
        match index_of GT rest with
        | Some (S j) => Some (1 + S j + 1)%nat
        | _ => None
        end
      else None
  | [] => None
  end.

(** [\n\s*\n]: a newline, then white space up to the last newline of the
    run of white space that follows. *)
Definition blank_lines : matcher := λ s,
  match s with
  | c :: rest =>
      if (c =? NL)%N then
        match rindex_of NL (take (spaces rest) rest) with
        | Some j => Some (1 + j + 1)%nat
        | None => None
        end
      else None
  | [] => None
  end.

End Re.

(** ** Data exchanged with the Ozon Seller API *)

(** An element of [result.items] of [v3/product/list]; a field is [None]
    when the key is absent. *)
Record listing_item := {
  li_product_id : option Z;
  li_offer_id : option Py.str;
}.

(** The object under the key [price] of a price record: the values of its
    keys [price] and [old_price], [VNone] when absent ([dict.get]). *)
Record price_info := {
  pi_price : Py.value;
  pi_old_price : Py.value;
}.

(** What [price_item.get('price', {})] finds. *)
Inductive price_field :=
| PriceMissing
| PriceNotDict
| PriceDict (info : price_info).

(** An element of [items] of [v5/product/info/prices]. *)
Record price_item := {
  pr_product_id : option Z;
  pr_price : price_field;
}.

(** The empty [dict], as a price record. *)
Definition empty_price_item : price_item :=
  {| pr_product_id := None; pr_price := PriceMissing |}.

(** A non-empty [result] of [v1/product/info/description].  The code
    tests the value under [description] and hands it to [re.sub], so it is
    kept as the JSON value it is; the value under [name] is only copied
    and printed, and is the [str] that the API documents. *)
Record description_result := {
  dr_name : option Py.str;
  dr_description : option Py.value;
}.

(** A value of [descriptions_data]. *)
Record product_info := {
  stored_name : Py.str;
  stored_description : Py.value;
}.

(** An entry of the catalog. *)
Record product := {
  product_id : Z;
  offer_id : option Py.str;
  name : Py.str;
  price : Z;
  description : Py.str;
  quantity : Z;
}.

(** ** The remote side *)

Inductive request :=
| ProductList (limit : Z)
| InfoPrices (product_ids : list Z)
| InfoDescription (product_id : Z).

(** An HTTP response: its status and what decoding its body gives, an
    exception when the body is not the JSON the code navigates. *)
Record response (A : Type) := {
  status_code : Z;
  json : Py.result A;
}.
Arguments status_code {A} _.
Arguments json {A} _.

(** The answers of the API.  An answer may depend on every request issued
    before it; [requests.post] raises ([Timeout], [ConnectionError]) or
    returns a response. *)
Record remote := {
  list_products :
    list request → Z → Py.result (response (list listing_item));
  info_prices :
    list request → list Z → Py.result (response (list price_item));
  info_description :
    list request → Z → Py.result (response (option description_result));
}.

(** The environment variables [OZON_CLIENT_ID] and [OZON_API_KEY]. *)
Record config := {
  OZON_CLIENT_ID : option Py.str;
  OZON_API_KEY : option Py.str;
}.

(** ** Computations that issue requests and may raise *)

Module IO.
Import Py.

(** From the requests issued so far to the requests issued after, and
    the value returned or the exception raised. *)
Definition io (A : Type) : Type := list request → list request * result A.

Definition ret {A} (a : A) : io A := λ h, (h, inr a).
Definition lift {A} (x : result A) : io A := λ h, (h, x).

Definition bind {A B} (m : io A) (k : A → io B) : io B := λ h,
  match m h with
  | (h', inr a) => k a h'
  | (h', inl e) => (h', inl e)
  end.

(** [try: m except Exception as e: handler e] *)
Definition try_except {A} (m : io A) (handler : exn → io A) : io A := λ h,
  match m h with
  | (h', inl e) => handler e h'
  | done => done
  end.

(** [for x in xs: s = body x s] *)
Fixpoint for_each {A S} (xs : list A) (body : A → S → io S) (s : S) : io S :=
  match xs with
  | [] => ret s
  | x :: rest => bind (body x s) (for_each rest body)
  end.

(** [requests.post] on each of the three endpoints. *)
Definition post_list (r : remote) (limit : Z) : io (response (list listing_item)) :=
  λ h, (h ++ [ProductList limit], list_products r h limit).
Definition post_prices (r : remote) (ids : list Z) : io (response (list price_item)) :=
  λ h, (h ++ [InfoPrices ids], info_prices r h ids).
Definition post_description (r : remote) (id : Z)
  : io (response (option description_result)) :=
  λ h, (h ++ [InfoDescription id], info_description r h id).

End IO.

Notation "'do' x ← m ; k" := (IO.bind m (λ x, k))
  (at level 10, x name, m at level 100, k at level 200,
   format "'[v' 'do'  x  ←  m ; '/' k ']'").

(** [range(0, n, step)] *)
Definition range_step (n step : nat) : list nat :=
  (λ k, k * step)%nat <$> seq 0 ((n + step - 1) / step)%nat.

(** ** [class OzonSellerAPI] *)

Section OzonSellerAPI.
Import Py IO.

(** [float(s)] for a [str], [None] where Python raises [ValueError]: the
    decimal-to-binary conversion of the interpreter, not of this
    repository. *)
Variable float_of_str : str → option spec_float.

(** [float(v)] *)
Definition py_float (v : value) : result spec_float :=
  match v with
  | VNone => inl TypeError
  | VBool b => float_of_int (Z.b2z b)
  | VInt n => float_of_int n
  | VFloat f => inr f
  | VStr s =>
      match float_of_str s with
      | Some f => inr f
      | None => inl ValueError
      end
  | VContainer _ => inl TypeError
  end.

(** The block that [_extract_price_from_v5] runs on the main price and
    then on the old price:
    [if v: price_int = int(float(v)); if price_int > 0: return price_int].
    [Some] is the value returned, [None] falls through. *)
Definition positive_price (v : value) : result (option Z) :=
  if truthy v then
    match py_float v with
    | inl e => inl e
    | inr x =>
        match int_of_float x with
        | inl e => inl e
        | inr price_int => inr (if 0 <? price_int then Some price_int else None)
        end
    end
  else inr None.

(** The body of the [try] of [_extract_price_from_v5]; a record without
    the key [price] gives the empty [dict], whose two prices are [None]. *)
Definition extract_price_body (price_item : price_item) : result Z :=
  let price_info :=
    match pr_price price_item with
    | PriceMissing => Some {| pi_price := VNone; pi_old_price := VNone |}
    | PriceDict info => Some info
    | PriceNotDict => None
    end in
  match price_info with
  | None => inr 0
  | Some price_info =>
      let main_price := pi_price price_info in
      match positive_price main_price with
      | inl e => inl e
      | inr (Some price_int) => inr price_int
      | inr None =>
          let old_price := pi_old_price price_info in
          match positive_price old_price with
          | inl e => inl e
          | inr (Some price_int) => inr price_int
          | inr None => inr 0
          end
      end
  end.

(** [_extract_price_from_v5]: any exception gives 0.  The first test of the
    source, [not price_item], holds of the empty [dict] only, which has no
    key [price] and so resolves to 0 through the body as well. *)
Definition _extract_price_from_v5 (price_item : price_item) : Z :=
  match extract_price_body price_item with
  | inl _ => 0
  | inr price => price
  end.

(** [_clean_description] *)
Definition _clean_description (description : str) : str :=
  match description with
  | [] => []
  | _ =>
      let clean_text := Re.sub Re.br_tag [Re.NL] description in
      let clean_text := Re.sub Re.any_tag [] clean_text in
      let clean_text := Re.sub Re.blank_lines [Re.NL] clean_text in
      strip clean_text
  end.

(** The inner loop of [_get_products_prices_v5]:
    [prices_data[price_item.get('product_id')] = price_item]. *)
Definition record_prices (prices_data : gmap (option Z) price_item)
    (price_items : list price_item) : gmap (option Z) price_item :=
  foldl (λ (d : gmap (option Z) price_item) price_item,
           <[pr_product_id price_item := price_item]> d)
    prices_data price_items.

(** One turn of its outer loop, on the batch [batch_ids]. *)
Definition prices_batch (r : remote) (batch_ids : list Z)
    (prices_data : gmap (option Z) price_item)
  : io (gmap (option Z) price_item) :=
  do prices_response ← post_prices r batch_ids;
  if status_code prices_response =? 200 then
    do price_items ← lift (json prices_response);
    ret (record_prices prices_data price_items)
  else ret prices_data.

(** [_get_products_prices_v5] *)
Definition _get_products_prices_v5 (r : remote) (product_ids : list Z)
  : io (gmap (option Z) price_item) :=
  let prices_data : gmap (option Z) price_item := ∅ in
  match product_ids with
  | [] => ret prices_data
  | _ =>
      try_except
        (for_each (range_step (length product_ids) 50)
           (λ i, prices_batch r (take 50 (drop i product_ids)))
           prices_data)
        (λ _, ret ∅)
  end.

(** One turn of the loop of [_get_products_descriptions_v1]. *)
Definition description_turn (r : remote) (product_id : Z)
    (descriptions_data : gmap Z product_info) : io (gmap Z product_info) :=
  do description_response ← post_description r product_id;
  if status_code description_response =? 200 then
    do description_result ← lift (json description_response);
    match description_result with
    | Some res =>
        let name := default [] (dr_name res) in
        let description := default (VStr []) (dr_description res) in
        ret (<[product_id := {| stored_name := name;
                                stored_description := description |}]>
               descriptions_data)
    | None => ret descriptions_data
    end
  else ret descriptions_data.

(** [_get_products_descriptions_v1] *)
Definition _get_products_descriptions_v1 (r : remote) (product_ids : list Z)
  : io (gmap Z product_info) :=
  let descriptions_data : gmap Z product_info := ∅ in
  match product_ids with
  | [] => ret descriptions_data
  | _ =>
      try_except
        (for_each product_ids (description_turn r) descriptions_data)
        (λ _, ret ∅)
  end.

(** [not OZON_CLIENT_ID or not OZON_API_KEY] *)
Definition unset (v : option str) : bool :=
  match v with
  | Some (_ :: _) => false
  | _ => true
  end.

Definition keys_missing (cfg : config) : bool :=
  unset (OZON_CLIENT_ID cfg) || unset (OZON_API_KEY cfg).

(** The placeholder name of an item without description record: Cyrillic
    [Tovar], a space and the identifier. *)
Definition placeholder_name (product_id : Z) : str :=
  [1058; 1086; 1074; 1072; 1088; 32]%N ++ str_of_int product_id.

(** [_clean_description] as [get_products_with_prices] calls it, on the
    value of a description: [re.sub] raises [TypeError] on a value that is
    not a [str]; a value that counts as false gives the empty string. *)
Definition clean_description_value (description : value) : result str :=
  match description with
  | VStr description => inr (_clean_description description)
  | _ => if truthy description then inl TypeError else inr []
  end.

(** The body of the [try] in the loop over [items] of
    [get_products_with_prices]: [inr None] where the source reaches
    [continue], [inr (Some _)] with the record it appends, [inl] where a
    statement raises. *)
Definition build_product_body
    (prices_data : gmap (option Z) price_item)
    (descriptions_data : gmap Z product_info)
    (item : listing_item) : result (option product) :=
  let offer_id := li_offer_id item in
  match li_product_id item with
  | None => inr None
  | Some product_id =>
      if product_id =? 0 then inr None else
      let fallback_name :=
        match offer_id with
        | Some (c :: s) => c :: s
        | _ => placeholder_name product_id
        end in
      let '(name, description) :=
        match descriptions_data !! product_id with
        | Some product_info =>
            (stored_name product_info, stored_description product_info)
        | None => (fallback_name, VStr [])
        end in
      let description :=
        if negb (truthy description) then inr name
        else
          match clean_description_value description with
          | inl e => inl e
          | inr description =>
              inr (if (200 <? length description)%nat
                   then take 197 description ++ lit "..."
                   else description)
          end in
      match description with
      | inl e => inl e
      | inr description =>
          let price :=
            _extract_price_from_v5
              (default empty_price_item (prices_data !! Some product_id)) in
          if price =? 0 then inr None else
          let quantity := 10 in
          inr (Some {| product_id := product_id; offer_id := offer_id;
                       name := name; price := price;
                       description := description; quantity := quantity |})
      end
  end.

(** One turn of that loop: [except Exception: continue] leaves the item
    out, as the two [continue] of the body do. *)
Definition build_product
    (prices_data : gmap (option Z) price_item)
    (descriptions_data : gmap Z product_info)
    (item : listing_item) : option product :=
  match build_product_body prices_data descriptions_data item with
  | inl _ => None
  | inr product => product
  end.

(** [get_products_with_prices] *)
Definition get_products_with_prices (cfg : config) (r : remote) (limit : Z)
  : io (option (list product)) :=
  if keys_missing cfg then ret None else
  try_except
    (do list_response ← post_list r limit;
     if negb (status_code list_response =? 200) then ret None else
     do items ← lift (json list_response);
     match items with
     | [] => ret None
     | _ =>
         let product_ids := omap li_product_id items in
         match product_ids with
         | [] => ret None
         | _ =>
             do prices_data ← _get_products_prices_v5 r product_ids;
             do descriptions_data ← _get_products_descriptions_v1 r product_ids;
             let products := omap (build_product prices_data descriptions_data) items in
             ret (Some products)
         end
     end)
    (λ e,
       match e with
       | Timeout => ret None
       | ConnectionError => ret None
       | _ => ret None
       end).

End OzonSellerAPI.

(** ** The cache and its refresh *)

Section Cache.
Import Py IO.
Variable float_of_str : str → option spec_float.

(** The loop of [load_real_products]: one entry per product, keyed by
    [product_counter]. *)
Fixpoint number_products (products_data : list product)
    (products : gmap Z product) (product_counter : Z) : gmap Z product :=
  match products_data with
  | [] => products
  | item :: rest =>
      let product_key := product_counter in
      let products :=
        <[product_key :=
            {| product_id := product_id item; offer_id := offer_id item;
               name := name item; price := price item;
               description := description item;
               quantity := quantity item |}]> products in
      number_products rest products (product_counter + 1)
  end.

(** [load_real_products]: the value it leaves in [products_cache], which
    it also returns.  The cache it finds is an argument that no path
    reads. *)
Definition load_real_products (cfg : config) (r : remote)
    (products_cache : gmap Z product) : io (gmap Z product) :=
  if keys_missing cfg then ret ∅ else
  do products_data ← get_products_with_prices float_of_str cfg r 20;
  match products_data with
  | None | Some [] => ret ∅
  | Some products_data => ret (number_products products_data ∅ 1)
  end.

(** The counts of [refresh_products_callback], with the new cache. *)
Definition refresh_products_callback (cfg : config) (r : remote)
    (products_cache : gmap Z product) : io (nat * nat * gmap Z product) :=
  let products_count_before := size products_cache in
  do products_cache ← load_real_products cfg r products_cache;
  let products_count_after := size products_cache in
  ret (products_count_before, products_count_after, products_cache).

End Cache.

(** ** Navigation *)

Inductive action := Next | Prev | OtherAction.

Definition len (products_cache : gmap Z product) : Z :=
  Z.of_nat (size products_cache).

(** The two branches of [handle_product_action]. *)
Definition next_index (products_cache : gmap Z product) (product_index : Z) : Z :=
  let next_index := product_index + 1 in
  if len products_cache <? next_index then 1 else next_index.

Definition prev_index (products_cache : gmap Z product) (product_index : Z) : Z :=
  let prev_index := product_index - 1 in
  if prev_index <? 1 then len products_cache else prev_index.

(** [handle_product_action]: the index it hands to [show_product_detail]. *)
Definition handle_product_action (products_cache : gmap Z product)
    (act : action) (product_index : Z) : option Z :=
  match act with
  | Next => Some (next_index products_cache product_index)
  | Prev => Some (prev_index products_cache product_index)
  | OtherAction => None
  end.

(** ** Vocabulary of the statements *)

Section Vocabulary.
Import Py IO.
Variable float_of_str : str → option spec_float.

Definition finite (f : spec_float) : bool :=
  match f with
  | S754_zero _ | S754_finite _ _ _ => true
  | S754_infinity _ | S754_nan => false
  end.

(** The number a price field holds when it is a decimal: a JSON integer
    that has a binary64, a finite JSON number, or a non-empty string that
    reads as one. *)
Definition decimal (v : value) : option spec_float :=
  match v with
  | VInt n =>
      match float_of_int n with
      | inr f => Some f
      | inl _ => None
      end
  | VFloat f => if finite f then Some f else None
  | VStr (c :: s) =>
      match float_of_str (c :: s) with
      | Some f => if finite f then Some f else None
      | None => None
      end
  | _ => None
  end.

(** Absent, or a decimal that is zero or negative. *)
Definition absent_or_non_positive (v : value) : Prop :=
  v = VNone ∨
  match v with
  | VInt n => n ≤ 0 ∧ is_Some (decimal v)
  | _ => ∃ f, decimal v = Some f ∧ SFleb f (S754_zero false) = true
  end.

(** The whole number of currency units of a decimal price. *)
Definition whole_units (v : value) (n : Z) : Prop :=
  ∃ f, decimal v = Some f ∧ int_of_float f = inr n.

(** A decimal of less than one unit: its whole part is zero or negative. *)
Definition below_one_unit (v : value) : Prop :=
  ∃ n, whole_units v n ∧ n ≤ 0.

(** A price that does not count: a value that counts as false (absent,
    [null], 0, an empty string or container), or a decimal that is not
    positive or has no whole unit. *)
Definition not_counted (v : value) : Prop :=
  truthy v = false ∨ absent_or_non_positive v ∨ below_one_unit v.

(** A price on which [int(float(v))] raises: a text that is no number, a
    list or an object, an integer beyond the floats, an infinite value or a
    NaN. *)
Definition unreadable (v : value) : Prop :=
  truthy v = true ∧
  match py_float float_of_str v with
  | inl _ => True
  | inr f => ∃ e, int_of_float f = inl e
  end.

End Vocabulary.

(** The batches of [_get_products_prices_v5]: the slices
    [product_ids[i:i+50]] for [i] in [range(0, len(product_ids), 50)]. *)
Definition batches (product_ids : list Z) : list (list Z) :=
  (λ i, take 50 (drop i product_ids)) <$> range_step (length product_ids) 50.

(** How [_get_products_prices_v5] reads the answer to one batch: records to
    merge, a status other than 200, or an exception (raised by the request,
    or by the decoding of a body that came with status 200). *)
Inductive batch_outcome :=
| Recorded (price_items : list price_item)
| Rejected (status : Z)
| Failed (e : Py.exn).

Definition outcome (answer : Py.result (response (list price_item)))
  : batch_outcome :=
  match answer with
  | inl e => Failed e
  | inr prices_response =>
      if status_code prices_response =? 200 then
        match json prices_response with
        | inr price_items => Recorded price_items
        | inl e => Failed e
        end
      else Rejected (status_code prices_response)
  end.

(** The outcome of batch number [k] of a call that starts after the
    requests [h], when the batches before it have been issued. *)
Definition batch_answer (r : remote) (h : list request)
    (product_ids : list Z) (k : nat) (batch_ids : list Z) : batch_outcome :=
  outcome (info_prices r (h ++ (InfoPrices <$> take k (batches product_ids)))
             batch_ids).

(** No batch of the call raises. *)
Definition no_batch_raises (r : remote) (h : list request)
    (product_ids : list Z) : Prop :=
  ∀ k batch_ids e,
    batches product_ids !! k = Some batch_ids →
    batch_answer r h product_ids k batch_ids ≠ Failed e.

(** The mapping [prices_data] has an entry for every record of every batch
    that was answered with records. *)
Definition keeps_recorded_batches (r : remote) (h : list request)
    (product_ids : list Z) (prices_data : gmap (option Z) price_item) : Prop :=
  ∀ k batch_ids price_items price_item,
    batches product_ids !! k = Some batch_ids →
    batch_answer r h product_ids k batch_ids = Recorded price_items →
    price_item ∈ price_items →
    is_Some (prices_data !! pr_product_id price_item).

(** Every entry of the mapping [prices_data] is a record of a batch that
    was answered with records, under the identifier of the record: a batch
    answered otherwise adds nothing. *)
Definition only_recorded_batches (r : remote) (h : list request)
    (product_ids : list Z) (prices_data : gmap (option Z) price_item) : Prop :=
  ∀ key price_item,
    prices_data !! key = Some price_item →
    ∃ k batch_ids price_items,
      batches product_ids !! k = Some batch_ids ∧
      batch_answer r h product_ids k batch_ids = Recorded price_items ∧
      price_item ∈ price_items ∧ pr_product_id price_item = key.

(** How [get_products_with_prices] reads the answer to the listing call:
    the items, or nothing when the request raises, the status is not 200,
    or the body cannot be decoded. *)
Definition listing (answer : Py.result (response (list listing_item)))
  : option (list listing_item) :=
  match answer with
  | inl _ => None
  | inr list_response =>
      if status_code list_response =? 200 then
        match json list_response with
        | inr items => Some items
        | inl _ => None
        end
      else None
  end.

(** The identifiers of the listing items that carry one. *)
Definition identifiers (items : list listing_item) : list Z :=
  omap li_product_id items.

(** A refresh that starts after the requests [h] reaches reconciliation
    with the listing [items], the prices [prices_data] and the descriptions
    [descriptions_data]. *)
Definition reconciles (r : remote) (h : list request)
    (items : list listing_item)
    (prices_data : gmap (option Z) price_item)
    (descriptions_data : gmap Z product_info) : Prop :=
  listing (list_products r h 20) = Some items ∧
  identifiers items ≠ [] ∧
  ∃ h1 h2,
    _get_products_prices_v5 r (identifiers items) (h ++ [ProductList 20])
      = (h1, inr prices_data) ∧
    _get_products_descriptions_v1 r (identifiers items) h1
      = (h2, inr descriptions_data).

(** The price record that the reconciliation reads for an identifier. *)
Definition price_record (prices_data : gmap (option Z) price_item)
    (product_id : Z) : price_item :=
  default empty_price_item (prices_data !! Some product_id).

(** The value that the reconciliation reads as the description of an
    identifier: the one of its description record, the empty string
    without record. *)
Definition source_value (descriptions_data : gmap Z product_info)
    (product_id : Z) : Py.value :=
  match descriptions_data !! product_id with
  | Some product_info => stored_description product_info
  | None => Py.VStr []
  end.

(** The description text that the source holds for an identifier, empty
    when it holds none. *)
Definition source_text (descriptions_data : gmap Z product_info)
    (product_id : Z) : Py.str :=
  match source_value descriptions_data product_id with
  | Py.VStr text => text
  | _ => []
  end.

(** A description that the sanitizer accepts: a [str], or a value that
    counts as false, which is not sanitized. *)
Definition textual (description : Py.value) : bool :=
  match description with
  | Py.VStr _ => true
  | _ => negb (Py.truthy description)
  end.

(** The remote side [r] with another answer to the listing call. *)
Definition with_listing_answer (r : remote)
    (answer : Py.result (response (list listing_item))) : remote :=
  {| list_products := λ _ _, answer;
     info_prices := info_prices r;
     info_description := info_description r |}.

(** A listing answered with [items]. *)
Definition listed (items : list listing_item)
  : Py.result (response (list listing_item)) :=
  inr {| status_code := 200; json := inr items |}.

(** The listing items that carry an identifier. *)
Definition identified (items : list listing_item) : list listing_item :=
  filter (λ item, is_Some (li_product_id item)) items.

(** A request of a refresh concerns listing items only: each identifier it
    names is the one of an item of the listing. *)
Definition about_items (items : list listing_item) (req : request) : Prop :=
  match req with
  | ProductList _ => True
  | InfoPrices batch_ids =>
      ∀ i, i ∈ batch_ids → ∃ item, item ∈ items ∧ li_product_id item = Some i
  | InfoDescription i => ∃ item, item ∈ items ∧ li_product_id item = Some i
  end.

(** What C3 says of a call of [_get_products_prices_v5]: it returns a
    mapping that has the records of every batch answered with records,
    whatever happened to the other batches. *)
Definition keeps_what_succeeded (r : remote) (h : list request)
    (product_ids : list Z) : Prop :=
  ∃ h' prices_data,
    _get_products_prices_v5 r product_ids h = (h', inr prices_data) ∧
    keeps_recorded_batches r h product_ids prices_data.

(** What C9 says of a call: it issues every batch, in order. *)
Definition issues_every_batch (r : remote) (h : list request)
    (product_ids : list Z) : Prop :=
  ∃ res,
    _get_products_prices_v5 r product_ids h
      = (h ++ (InfoPrices <$> batches product_ids), res).

(** ** Sample runs *)

Module Sample.
Import Py.

(** The nearest binary64 to [m * 2^e], to write floats with. *)
Definition float (m e : Z) : spec_float := binary_normalize 53 1024 m e false.

(** No price of the sample runs is written as a string: this reading of
    strings, which rejects them all, is never consulted on a price. *)
Definition float_of_str : str → option spec_float := λ _, None.

Definition keys : config :=
  {| OZON_CLIENT_ID := Some (lit "836"); OZON_API_KEY := Some (lit "k-1") |}.

(** A shop of three products and a draft without identifier.  The candle
    has a main price and a description; the soap has the price 0; the
    towel has an old price only, and no description. *)
Definition candle : listing_item :=
  {| li_product_id := Some 101; li_offer_id := Some (lit "SPA-CANDLE") |}.
Definition soap : listing_item :=
  {| li_product_id := Some 102; li_offer_id := Some (lit "SPA-SOAP") |}.
Definition draft : listing_item :=
  {| li_product_id := None; li_offer_id := Some (lit "SPA-DRAFT") |}.
Definition towel : listing_item :=
  {| li_product_id := Some 103; li_offer_id := None |}.

Definition candle_price : price_item :=
  {| pr_product_id := Some 101;
     pr_price := PriceDict {| pi_price := VInt 1500; pi_old_price := VInt 1800 |} |}.
Definition soap_price : price_item :=
  {| pr_product_id := Some 102;
     pr_price := PriceDict {| pi_price := VInt 0; pi_old_price := VNone |} |}.
Definition towel_price : price_item :=
  {| pr_product_id := Some 103;
     pr_price := PriceDict {| pi_price := VNone;
                              pi_old_price := VFloat (float 1981 (-1)) |} |}.

Definition shop : remote :=
  {| list_products := λ _ _, listed [candle; soap; draft; towel];
     info_prices := λ _ _,
       inr {| status_code := 200;
              json := inr [candle_price; soap_price; towel_price] |};
     info_description := λ _ product_id,
       if product_id =? 101 then
         inr {| status_code := 200;
                json := inr (Some {| dr_name := Some (lit "Candle");
                                     dr_description :=
                                       Some (VStr (lit "<p>Soy wax</p><br/>Hand made")) |}) |}
       else
         inr {| status_code := 404; json := inl ValueError |} |}.

(** The listing call times out. *)
Definition unreachable : remote :=
  {| list_products := λ _ _, inl Timeout;
     info_prices := λ _ _, inl Timeout;
     info_description := λ _ _, inl Timeout |}.

(** A product whose name has 201 characters and whose description is
    empty. *)
Definition long_name : str := replicate 201 65%N.

Definition long_name_shop : remote :=
  {| list_products := λ _ _,
       listed [{| li_product_id := Some 7; li_offer_id := Some (lit "SPA-7") |}];
     info_prices := λ _ _,
       inr {| status_code := 200;
              json := inr [{| pr_product_id := Some 7;
                              pr_price := PriceDict {| pi_price := VInt 100;
                                                       pi_old_price := VNone |} |}] |};
     info_description := λ _ _,
       inr {| status_code := 200;
              json := inr (Some {| dr_name := Some long_name;
                                   dr_description := Some (VStr []) |}) |} |}.

(** A price record with half a unit as main price and 100 as old
    price. *)
Definition half_unit_price : price_item :=
  {| pr_product_id := Some 1;
     pr_price := PriceDict {| pi_price := VFloat (float 1 (-1));
                              pi_old_price := VInt 100 |} |}.

(** A shop whose one item has the identifier 0, and a price of 3. *)
Definition zero_item : listing_item :=
  {| li_product_id := Some 0; li_offer_id := Some (lit "SPA-0") |}.
Definition zero_price : price_item :=
  {| pr_product_id := Some 0;
     pr_price := PriceDict {| pi_price := VInt 3; pi_old_price := VNone |} |}.

Definition zero_id_shop : remote :=
  {| list_products := λ _ _, listed [zero_item];
     info_prices := λ _ _,
       inr {| status_code := 200; json := inr [zero_price] |};
     info_description := λ _ _,
       inr {| status_code := 404; json := inl ValueError |} |}.

(** A shop whose one item has a price of 1500 and, as description, the
    number 5. *)
Definition numbered_item : listing_item :=
  {| li_product_id := Some 7; li_offer_id := Some (lit "SPA-7") |}.
Definition numbered_price : price_item :=
  {| pr_product_id := Some 7;
     pr_price := PriceDict {| pi_price := VInt 1500; pi_old_price := VNone |} |}.
Definition numbered_info : product_info :=
  {| stored_name := lit "Robe"; stored_description := VInt 5 |}.

Definition number_as_description : remote :=
  {| list_products := λ _ _, listed [numbered_item];
     info_prices := λ _ _,
       inr {| status_code := 200; json := inr [numbered_price] |};
     info_description := λ _ _,
       inr {| status_code := 200;
              json := inr (Some {| dr_name := Some (lit "Robe");
                                   dr_description := Some (VInt 5) |}) |} |}.

(** The same shop with a text as description. *)
Definition text_as_description : remote :=
  {| list_products := list_products number_as_description;
     info_prices := info_prices number_as_description;
     info_description := λ _ _,
       inr {| status_code := 200;
              json := inr (Some {| dr_name := Some (lit "Robe");
                                   dr_description := Some (VStr (lit "Soft")) |}) |} |}.

(** The identifiers 1 to [n]. *)
Definition first_ids (n : nat) : list Z := Z.of_nat <$> seq 1 n.

(** A price endpoint that answers the first batch of a call with a record
    for the identifier 1, and times out on the second. *)
Definition first_price : price_item :=
  {| pr_product_id := Some 1;
     pr_price := PriceDict {| pi_price := VInt 100; pi_old_price := VNone |} |}.

Definition second_batch_times_out : remote :=
  {| list_products := λ _ _, inl Timeout;
     info_prices := λ h _,
       match h with
       | [] => inr {| status_code := 200; json := inr [first_price] |}
       | _ => inl Timeout
       end;
     info_description := λ _ _, inl Timeout |}.

(** A price endpoint that rejects the second batch of a call with the
    status 500 and answers the others with a record for their first
    identifier. *)
Definition price_of (product_id : Z) : price_item :=
  {| pr_product_id := Some product_id;
     pr_price := PriceDict {| pi_price := VInt 100; pi_old_price := VNone |} |}.

Definition second_batch_rejected : remote :=
  {| list_products := λ _ _, inl Timeout;
     info_prices := λ h batch_ids,
       match h with
       | [_] => inr {| status_code := 500; json := inl ValueError |}
       | _ => inr {| status_code := 200;
                     json := inr (price_of <$> take 1 batch_ids) |}
       end;
     info_description := λ _ _, inl Timeout |}.

(** A cache of two products. *)
Definition two_products : gmap Z product :=
  number_products
    [{| product_id := 101; offer_id := Some (lit "SPA-CANDLE");
        name := lit "Candle"; price := 1500; description := lit "Soy wax";
        quantity := 10 |};
     {| product_id := 103; offer_id := None;
        name := placeholder_name 103; price := 990;
        description := placeholder_name 103; quantity := 10 |}]
    ∅ 1.

End Sample.

(** ** Vocabulary of the properties of the sanitizer *)

(** No tag is left in a text: at no position does [<[^>]+>] match. *)
Fixpoint no_tag (s : Py.str) : Prop :=
  match s with
  | [] => True
  | c :: rest => Re.any_tag (c :: rest) = None ∧ no_tag rest
  end.

(** A matcher that matches only at an occurrence of the character [x]. *)
Definition starts_with (m : Re.matcher) (x : N) : Prop :=
  ∀ c t k, m (c :: t) = Some k → c = x.

(** ** Literals of the source that are not ASCII *)

Module Text.

(** The code points that a sequence of UTF-8 bytes encodes. *)
Fixpoint decode (pending : nat) (acc : N) (bytes : list N) : Py.str :=
  match bytes with
  | [] => []
  | b :: rest =>
      match pending with
      | S k =>
          let acc := (acc * 64 + b mod 64)%N in
          match k with
          | O => acc :: decode O 0%N rest
          | S _ => decode k acc rest
          end
      | O =>
          if (b <? 128)%N then b :: decode O 0%N rest
          else if (b <? 224)%N then decode 1 (b mod 32)%N rest
          else if (b <? 240)%N then decode 2 (b mod 16)%N rest
          else decode 3 (b mod 8)%N rest
      end
  end.

(** A literal of the source as a [str]. *)
Definition u (s : String.string) : Py.str :=
  decode 0 0%N (List.map N_of_ascii (String.list_ascii_of_string s)).

End Text.

(** ** [OzonSellerAPI.create_product_link] *)

(** [create_product_link]: [None] is a product that is [None] or empty. *)
Definition create_product_link (product : option product) : Py.str :=
  match product with
  | Some product =>
      match offer_id product with
      | Some (c :: s) =>
          let offer_id := c :: s in
          Py.lit "https://www.ozon.ru/search/?text=" ++ offer_id
      | _ => Py.lit "https://www.ozon.ru"
      end
  | None => Py.lit "https://www.ozon.ru"
  end.

(** ** The handlers of the bot *)

Module Telegram.
Import Py IO Text.

(** [InlineKeyboardButton(text, callback_data=..., url=...)] *)
Record button := {
  label : str;
  callback_data : option str;
  url : option str;
}.

(** The calls that a handler makes on its [query].  What Telegram answers
    to a call, and the exception it may raise there, are not part of the
    model. *)
Inductive call :=
| Answer
| EditMessageText (text : str) (reply_markup : option (list (list button))).

(** The exceptions that leave [handle_product_action]. *)
Inductive handler_error :=
| IndexError
| InvalidLiteral.

(** What a handler did: its calls, and the exception that ended it, if
    any. *)
Record outcome := {
  calls : list call;
  raised : option handler_error;
}.

Definition UNDERSCORE : N := 95.

(** [s.split(sep)] for a separator of one character. *)
Fixpoint split (sep : N) (s : str) : list str :=
  match s with
  | [] => [[]]
  | c :: rest =>
      if (c =? sep)%N then [] :: split sep rest
      else
        match split sep rest with
        | part :: parts => (c :: part) :: parts
        | [] => [[c]]
        end
  end.

(** [s.startswith(prefix)] *)
Fixpoint startswith (prefix s : str) : bool :=
  match prefix, s with
  | [], _ => true
  | p :: prefix, c :: s => (p =? c)%N && startswith prefix s
  | _ :: _, [] => false
  end.

(** [str(v)] of a value that is a string or [None], as an f-string prints
    it. *)
Definition str_of_optional (v : option str) : str :=
  match v with
  | Some s => s
  | None => lit "None"
  end.

(** The call of [show_product_detail] for a product that it found. *)
Definition product_message (product : product) (product_index : Z) : call :=
  let product_url := create_product_link (Some product) in
  let product_text :=
    [Re.NL]
    ++ u "📦 " ++ name product ++ [Re.NL]
    ++ [Re.NL]
    ++ u "💵 Цена: " ++ str_of_int (price product) ++ u " ₽" ++ [Re.NL]
    ++ u "📝 Описание: " ++ description product ++ [Re.NL]
    ++ u "📦 В наличии: " ++ str_of_int (quantity product) ++ u " шт." ++ [Re.NL]
    ++ u "🔗 Артикул: " ++ str_of_optional (offer_id product) ++ [Re.NL]
    ++ [Re.NL]
    ++ u "Нажмите кнопку ниже чтобы перейти к товару в Ozon:" ++ [Re.NL] in
  let keyboard :=
    [[{| label := u "🛍️ Перейти к товару в Ozon"; callback_data := None; url := Some product_url |}];
     [{| label := u "⬅️ Предыдущий";
         callback_data := Some (lit "product_prev_" ++ str_of_int product_index);
         url := None |};
      {| label := u "Следующий ➡️";
         callback_data := Some (lit "product_next_" ++ str_of_int product_index);
         url := None |}];
     [{| label := u "📋 К списку товаров"; callback_data := Some (lit "view_products");
         url := None |}]] in
  EditMessageText product_text (Some keyboard).

(** [show_product_detail] *)
Definition show_product_detail (products_cache : gmap Z product)
    (product_index : Z) : call :=
  match products_cache !! product_index with
  | None => EditMessageText (u "❌ Товар не найден") None
  | Some product => product_message product product_index
  end.

(** [show_products] *)
Definition show_products (products_cache : gmap Z product) : call :=
  if decide (products_cache = ∅) then
    EditMessageText (u "❌ Нет доступных товаров." ++ [Re.NL] ++ u "Используйте /refresh для загрузки товаров из Ozon.") None
  else show_product_detail products_cache 1.

Section Handlers.
Variable float_of_str : str → option spec_float.

(** [int(s)] for a [str], [None] where Python raises [ValueError]: the
    reading of the interpreter, not of this repository. *)
Variable int_of_str : str → option Z.

(** [handle_product_action], from the callback data: the call it makes, if
    any, or the exception that leaves it. *)
Definition handle_product_action (products_cache : gmap Z product)
    (callback_data : str) : handler_error + option call :=
  let parts := split UNDERSCORE callback_data in
  match parts !! 1%nat with
  | None => inl IndexError
  | Some action =>
      match parts !! 2%nat with
      | None => inl IndexError
      | Some index_text =>
          match int_of_str index_text with
          | None => inl InvalidLiteral
          | Some product_index =>
              if decide (action = lit "next") then
                inr (Some (show_product_detail products_cache
                             (next_index products_cache product_index)))
              else if decide (action = lit "prev") then
                inr (Some (show_product_detail products_cache
                             (prev_index products_cache product_index)))
              else inr None
          end
      end
  end.

(** [refresh_products_callback]: its calls, and the cache it leaves. *)
Definition refresh_products_callback (cfg : config) (r : remote)
    (products_cache : gmap Z product) : io (gmap Z product * list call) :=
  let first := EditMessageText (u "🔄 Обновляем список товаров...") None in
  do counts ← refresh_products_callback float_of_str cfg r products_cache;
  let '(products_count_before, products_count_after, products_cache) := counts in
  if (0 <? products_count_after)%nat then
    let success_text :=
      [Re.NL]
      ++ u "✅ Товары обновлены!" ++ [Re.NL]
      ++ [Re.NL]
      ++ u "📦 Было товаров: " ++ str_of_int (Z.of_nat products_count_before) ++ [Re.NL]
      ++ u "📦 Стало товаров: " ++ str_of_int (Z.of_nat products_count_after) ++ [Re.NL]
      ++ [Re.NL]
      ++ u "Список товаров актуален на текущий момент." ++ [Re.NL] in
    let keyboard :=
      [[{| label := u "🛍️ Смотреть товары"; callback_data := Some (lit "view_products");
           url := None |}]] in
    ret (products_cache, [first; EditMessageText success_text (Some keyboard)])
  else
    let error_text :=
      [Re.NL]
      ++ u "❌ Не удалось обновить товары" ++ [Re.NL]
      ++ [Re.NL]
      ++ u "Проверьте настройки API ключей Ozon." ++ [Re.NL] in
    let keyboard :=
      [[{| label := u "🔄 Попробовать снова"; callback_data := Some (lit "refresh_products");
           url := None |}];
       [{| label := u "🛍️ Использовать текущий список"; callback_data := Some (lit "view_products");
           url := None |}]] in
    ret (products_cache, [first; EditMessageText error_text (Some keyboard)]).

(** [handle_callback]: the cache it leaves and what it did. *)
Definition handle_callback (cfg : config) (r : remote)
    (products_cache : gmap Z product) (callback_data : str)
  : io (gmap Z product * outcome) :=
  if decide (callback_data = lit "view_products") then
    ret (products_cache,
         {| calls := [Answer; show_products products_cache]; raised := None |})
  else if decide (callback_data = lit "refresh_products") then
    do res ← refresh_products_callback cfg r products_cache;
    ret (fst res, {| calls := Answer :: snd res; raised := None |})
  else if startswith (lit "product_") callback_data then
    match handle_product_action products_cache callback_data with
    | inl e => ret (products_cache, {| calls := [Answer]; raised := Some e |})
    | inr (Some shown) =>
        ret (products_cache, {| calls := [Answer; shown]; raised := None |})
    | inr None => ret (products_cache, {| calls := [Answer]; raised := None |})
    end
  else ret (products_cache, {| calls := [Answer]; raised := None |}).

End Handlers.

End Telegram.

(** ** Vocabulary of the properties of the description lookup *)

(** How [_get_products_descriptions_v1] reads the answer to one request: a
    result to store, nothing to store (a status other than 200, or an empty
    result), or an exception. *)
Inductive lookup_outcome :=
| Described (res : description_result)
| Skipped
| LookupFailed (e : Py.exn).

Definition lookup_outcome_of
    (answer : Py.result (response (option description_result)))
  : lookup_outcome :=
  match answer with
  | inl e => LookupFailed e
  | inr description_response =>
      if status_code description_response =? 200 then
        match json description_response with
        | inr (Some res) => Described res
        | inr None => Skipped
        | inl e => LookupFailed e
        end
      else Skipped
  end.

(** The outcome of request number [k] of a call that starts after the
    requests [h], when the requests before it have been issued. *)
Definition lookup_answer (r : remote) (h : list request)
    (product_ids : list Z) (k : nat) (product_id : Z) : lookup_outcome :=
  lookup_outcome_of
    (info_description r (h ++ (InfoDescription <$> take k product_ids)) product_id).

(** What the lookup stores for a result: its name and its description,
    empty where the key is absent. *)
Definition stored (res : description_result) : product_info :=
  {| stored_name := default [] (dr_name res);
     stored_description := default (Py.VStr []) (dr_description res) |}.

(** The identifiers that reach the lookups of a refresh: those of the
    listing, none when the listing call gives no listing. *)
Definition listed_identifiers (r : remote) (h : list request) : list Z :=
  match listing (list_products r h 20) with
  | Some items => identifiers items
  | None => []
  end.

(** ** Vocabulary of the properties of the handlers *)

(** The buttons of a message. *)
Definition buttons (c : Telegram.call) : list Telegram.button :=
  match c with
  | Telegram.EditMessageText _ (Some keyboard) => concat keyboard
  | _ => []
  end.

(** The message of [show_products] on an empty cache, and the message of
    [show_product_detail] at a position that holds no product. *)
Definition no_products_message : Telegram.call :=
  Telegram.EditMessageText
    (Text.u "❌ Нет доступных товаров." ++ [Re.NL]
     ++ Text.u "Используйте /refresh для загрузки товаров из Ozon.") None.

Definition not_found_message : Telegram.call :=
  Telegram.EditMessageText (Text.u "❌ Товар не найден") None.

(** A reading of integers that reads back what [str] writes. *)
Definition reads_back (int_of_str : Py.str → option Z) : Prop :=
  ∀ n, int_of_str (Py.str_of_int n) = Some n.

(** What a handler did when it only acknowledged the query. *)
Definition only_answered : Telegram.outcome :=
  {| Telegram.calls := [Telegram.Answer]; Telegram.raised := None |}.

(** What a handler did when it acknowledged the query and showed [shown]. *)
Definition answered_with (shown : Telegram.call) : Telegram.outcome :=
  {| Telegram.calls := [Telegram.Answer; shown]; Telegram.raised := None |}.

(** What a handler did when [e] left it after the acknowledgement. *)
Definition failed_with (e : Telegram.handler_error) : Telegram.outcome :=
  {| Telegram.calls := [Telegram.Answer]; Telegram.raised := Some e |}.

(** ** Sample handlers *)

From Stdlib Require DecimalPos DecimalZ.

Module SampleHandlers.
Import Py.

(** The characters below 256 as a string of the standard library. *)
Definition ascii_text (s : str) : option String.string :=
  if forallb (λ c, (c <? 256)%N) s
  then Some (String.string_of_list_ascii (List.map ascii_of_N s))
  else None.

(** A reading of plain decimal numerals, with a sign or without, which
    stands for [int] in the sample runs. *)
Definition int_of_str (s : str) : option Z :=
  match ascii_text s with
  | Some t => Z.of_int <$> NilZero.int_of_string t
  | None => None
  end.

(** The sample shop, with a description lookup that times out on the
    towel. *)
Definition flaky_descriptions : remote :=
  {| list_products := list_products Sample.shop;
     info_prices := info_prices Sample.shop;
     info_description := λ h product_id,
       if product_id =? 103 then inl Timeout
       else info_description Sample.shop h product_id |}.

(** The two products that the refresh of the sample shop leaves. *)
Definition candle : product :=
  {| product_id := 101; offer_id := Some (lit "SPA-CANDLE");
     name := lit "Candle"; price := 1500;
     description := lit "Soy wax" ++ [Re.NL] ++ lit "Hand made";
     quantity := 10 |}.

(** A product that the refresh leaves out, its price being 0. *)
Definition soap : product :=
  {| product_id := 102; offer_id := Some (lit "SPA-SOAP");
     name := lit "Soap"; price := 300; description := lit "Soap";
     quantity := 10 |}.

Definition towel : product :=
  {| product_id := 103; offer_id := None;
     name := placeholder_name 103; price := 990;
     description := placeholder_name 103; quantity := 10 |}.

End SampleHandlers.

(** What a product holds of its listing item and of its price record. *)
Definition listed_part (p : product) : Z * option Py.str * Z :=
  (product_id p, offer_id p, price p).

(** Description records that the sanitizer accepts. *)
Definition all_textual (descriptions_data : gmap Z product_info) : Prop :=
  ∀ i info, descriptions_data !! i = Some info →
            textual (stored_description info) = true.

(** A remote side whose descriptions the sanitizer accepts: the value
    under [description] of every result that it answers is a [str], or
    counts as false. *)
Definition textual_descriptions (r : remote) : Prop :=
  ∀ h product_id description_response res description,
    info_description r h product_id = inr description_response →
    json description_response = inr (Some res) →
    dr_description res = Some description →
    textual description = true.

(** * Properties *)

(** ** Navigation *)

Section NavigationFacts.
Variable products_cache : gmap Z product.
Local Abbreviation N := (len products_cache).

Lemma len_nonneg : 0 ≤ len products_cache.
Proof. unfold len. lia. Qed.

Lemma next_index_in_range p :
  1 ≤ p ≤ N → 1 ≤ next_index products_cache p ≤ N.
Proof.
  intros Hp. unfold next_index.
  destruct (Z.ltb_spec N (p + 1)); lia.
Qed.

Lemma prev_index_in_range p :
  1 ≤ p ≤ N → 1 ≤ prev_index products_cache p ≤ N.
Proof.
  intros Hp. unfold prev_index.
  destruct (Z.ltb_spec (p - 1) 1); lia.
Qed.

(** [k] steps forward from [p] land on [(p - 1 + k) mod N + 1]. *)
Lemma next_index_iter p k :
  1 ≤ p ≤ N →
  Nat.iter k (next_index products_cache) p = (p - 1 + Z.of_nat k) mod N + 1.
Proof.
  intros Hp. induction k as [|k IH].
  - simpl. rewrite Z.add_0_r, Z.mod_small by lia. lia.
  - rewrite Nat.iter_succ, IH. unfold next_index.
    replace (p - 1 + Z.of_nat (S k)) with (p - 1 + Z.of_nat k + 1) by lia.
    set (x := p - 1 + Z.of_nat k).
    assert (HN : 0 < N) by lia.
    pose proof (Z.mod_pos_bound x N HN) as Hx.
    destruct (Z.ltb_spec N (x mod N + 1 + 1)) as [Hwrap|Hstay].
    + assert (Hlast : x mod N = N - 1) by lia.
      rewrite <- Zplus_mod_idemp_l, Hlast.
      replace (N - 1 + 1) with (1 * N) by lia.
      rewrite Z.mod_mul by lia. lia.
    + rewrite <- (Zplus_mod_idemp_l x 1 N).
      rewrite (Z.mod_small (x mod N + 1)) by lia. lia.
Qed.

(** [k] steps backward from [p] land on [(p - 1 - k) mod N + 1]. *)
Lemma prev_index_iter p k :
  1 ≤ p ≤ N →
  Nat.iter k (prev_index products_cache) p = (p - 1 - Z.of_nat k) mod N + 1.
Proof.
  intros Hp. induction k as [|k IH].
  - simpl. rewrite Z.sub_0_r, Z.mod_small by lia. lia.
  - rewrite Nat.iter_succ, IH. unfold prev_index.
    replace (p - 1 - Z.of_nat (S k)) with (p - 1 - Z.of_nat k - 1) by lia.
    set (x := p - 1 - Z.of_nat k).
    assert (HN : 0 < N) by lia.
    pose proof (Z.mod_pos_bound x N HN) as Hx.
    destruct (Z.ltb_spec (x mod N + 1 - 1) 1) as [Hwrap|Hstay].
    + assert (Hfirst : x mod N = 0) by lia.
      rewrite <- Zminus_mod_idemp_l, Hfirst.
      replace (0 - 1) with (N - 1 + (-1) * N) by lia.
      rewrite Z.mod_add by lia. rewrite Z.mod_small by lia. lia.
    + rewrite <- (Zminus_mod_idemp_l x 1 N).
      rewrite (Z.mod_small (x mod N - 1)) by lia. lia.
Qed.

(** C6. In a cache of [N ≥ 1] products and at a position [p] between 1
    and [N], the successor of [p] is [p + 1] except that the successor of
    [N] is 1, the predecessor is [p - 1] except that the predecessor of 1
    is [N], and [N] steps forward, like [N] steps backward, lead back to
    [p]. *)
Theorem navigation_is_cyclic p :
  1 ≤ N → 1 ≤ p ≤ N →
  next_index products_cache p = (if decide (p = N) then 1 else p + 1) ∧
  prev_index products_cache p = (if decide (p = 1) then N else p - 1) ∧
  Nat.iter (size products_cache) (next_index products_cache) p = p ∧
  Nat.iter (size products_cache) (prev_index products_cache) p = p.
Proof.
  intros HN Hp. repeat split.
  - unfold next_index.
    destruct (Z.ltb_spec N (p + 1)); case_decide; lia.
  - unfold prev_index.
    destruct (Z.ltb_spec (p - 1) 1); case_decide; lia.
  - rewrite next_index_iter by done. fold (len products_cache).
    replace (p - 1 + N) with (p - 1 + 1 * N) by lia.
    rewrite Z.mod_add, Z.mod_small by lia. lia.
  - rewrite prev_index_iter by done. fold (len products_cache).
    replace (p - 1 - N) with (p - 1 + (-1) * N) by lia.
    rewrite Z.mod_add, Z.mod_small by lia. lia.
Qed.

End NavigationFacts.

(** ** Price resolution *)

Section PriceFacts.
Import Py IO.
Variable float_of_str : str → option spec_float.

Local Abbreviation positive_price := (positive_price float_of_str).
Local Abbreviation decimal := (decimal float_of_str).

(** Rounding keeps the sign it is given. *)
Lemma binary_round_aux_sign prec emax sx mx ex lx :
  match binary_round_aux prec emax sx mx ex lx with
  | S754_zero s | S754_infinity s | S754_finite s _ _ => s = sx
  | S754_nan => True
  end.
Proof.
  unfold binary_round_aux.
  destruct (shr_fexp prec emax mx ex lx) as [mrs1 e1].
  destruct (shr_fexp prec emax _ e1 loc_Exact) as [mrs2 e2].
  destruct (shr_m mrs2); [done| |done].
  by destruct (Z.leb e2 (Z.sub emax prec)).
Qed.

Lemma float_of_int_non_positive n f :
  n ≤ 0 → float_of_int n = inr f → SFleb f (S754_zero false) = true.
Proof.
  unfold float_of_int, binary_normalize. intros Hn.
  destruct n as [|q|q]; [|lia|].
  - by intros [= <-].
  - unfold binary_round.
    destruct (shl_align q 0 _) as [mz ez].
    pose proof (binary_round_aux_sign 53 1024 true (Z.pos mz) ez loc_Exact) as Hs.
    destruct (binary_round_aux 53 1024 true (Z.pos mz) ez loc_Exact)
      as [s|s| |s m e]; try done; intros [= <-]; by subst s.
Qed.

(** The whole part of a float that is zero or negative is zero or
    negative. *)
Lemma int_of_float_non_positive f k :
  SFleb f (S754_zero false) = true → int_of_float f = inr k → k ≤ 0.
Proof.
  destruct f as [s|s| |s m e]; simpl; try done.
  - intros _ [= <-]. lia.
  - destruct s; [|done]. intros _ [= <-].
    destruct (Z.leb_spec 0 e).
    + pose proof (Z.shiftl_nonneg (Z.pos m) e). lia.
    + pose proof (Z.shiftr_nonneg (Z.pos m) (- e)). lia.
Qed.

Lemma positive_price_positive v n :
  positive_price v = inr (Some n) → 0 < n.
Proof.
  unfold positive_price. destruct (truthy v); [|done].
  destruct (py_float _ v) as [e|x]; [done|].
  destruct (int_of_float x) as [e|k]; [done|].
  destruct (Z.ltb_spec 0 k); [|done]. by intros [= <-].
Qed.

(** What [float] gives on a decimal. *)
Lemma py_float_decimal v f :
  decimal v = Some f → py_float float_of_str v = inr f ∧ finite f = true.
Proof.
  destruct v as [|b|n|g|[|c s]|b]; simpl; try done.
  - destruct (float_of_int n) as [e|g] eqn:Hn; [done|]. intros [= <-].
    split; [done|]. unfold float_of_int in Hn.
    by destruct (binary_normalize 53 1024 n 0 false); simplify_eq.
  - destruct (finite g) eqn:Hg; [|done]. by intros [= <-].
  - destruct (float_of_str (c :: s)) as [g|]; [|done].
    destruct (finite g) eqn:Hg; [|done]. by intros [= <-].
Qed.

Lemma int_of_float_finite f :
  finite f = true → ∃ k, int_of_float f = inr k.
Proof. destruct f; simpl; try done; eauto. Qed.

(** A decimal whose whole part is positive is taken. *)
Lemma positive_price_taken v n :
  whole_units float_of_str v n → 0 < n → positive_price v = inr (Some n).
Proof.
  intros (f & Hdec & Hint) Hpos.
  destruct (py_float_decimal v f Hdec) as [Hfloat _].
  unfold positive_price. rewrite Hfloat, Hint.
  assert (Htruthy : truthy v = true).
  { destruct v as [|b|k|g|[|c s]|b]; simpl in *; try done.
    - destruct (Z.eqb_spec k 0) as [->|]; [|done].
      vm_compute in Hdec. simplify_eq. simpl in Hint. simplify_eq. lia.
    - destruct g; simpl in *; try done. simplify_eq. simpl in Hint. simplify_eq. lia. }
  rewrite Htruthy. by destruct (Z.ltb_spec 0 n); [|lia].
Qed.

(** An absent price, and a decimal that is not positive, fall through. *)
Lemma positive_price_falls_through v :
  absent_or_non_positive float_of_str v → positive_price v = inr None.
Proof.
  intros [->|Hv]; [done|].
  assert (∃ f, decimal v = Some f ∧ SFleb f (S754_zero false) = true)
    as (f & Hdec & Hle).
  { destruct v as [|b|n|g|s|b]; try done.
    destruct Hv as [Hn [f Hf]]. exists f. split; [done|].
    simpl in Hf. destruct (float_of_int n) eqn:Hfn; [done|].
    simplify_eq. by eapply float_of_int_non_positive. }
  destruct (py_float_decimal v f Hdec) as [Hfloat Hfin].
  unfold positive_price. destruct (truthy v); [|done].
  rewrite Hfloat.
  destruct (int_of_float_finite f Hfin) as [k Hk]. rewrite Hk.
  pose proof (int_of_float_non_positive f k Hle Hk).
  by destruct (Z.ltb_spec 0 k); [lia|].
Qed.

(** A decimal of less than one unit falls through, positive or not. *)
Lemma positive_price_below_one v :
  below_one_unit float_of_str v → positive_price v = inr None.
Proof.
  intros (n & (f & Hdec & Hint) & Hn).
  destruct (py_float_decimal v f Hdec) as [Hfloat _].
  unfold positive_price. destruct (truthy v); [|done].
  rewrite Hfloat, Hint. by destruct (Z.ltb_spec 0 n); [lia|].
Qed.

Lemma positive_price_not_counted v :
  not_counted float_of_str v → positive_price v = inr None.
Proof.
  intros [Hfalse|[?|?]];
    [|by apply positive_price_falls_through|by apply positive_price_below_one].
  unfold positive_price. by rewrite Hfalse.
Qed.

(** A price that [int(float(v))] cannot read raises. *)
Lemma positive_price_unreadable v :
  unreadable float_of_str v → ∃ e, positive_price v = inl e.
Proof.
  intros [Htrue Hraise]. unfold positive_price. rewrite Htrue.
  destruct (py_float float_of_str v) as [e|f]; [by exists e|].
  destruct Hraise as [e ->]. by exists e.
Qed.

(** Every value of a price field is of one of the four kinds. *)
Lemma price_kinds v :
  (∃ n, whole_units float_of_str v n ∧ 0 < n) ∨ v = VBool true
  ∨ unreadable float_of_str v ∨ not_counted float_of_str v.
Proof.
  assert (Hdec : ∀ f, decimal v = Some f →
            (∃ n, whole_units float_of_str v n ∧ 0 < n)
            ∨ not_counted float_of_str v).
  { intros f Hf. destruct (py_float_decimal v f Hf) as [_ Hfin].
    destruct (int_of_float_finite f Hfin) as [k Hk].
    destruct (Z.lt_ge_cases 0 k); [left|right; right; right]; exists k.
    - split; [by exists f|done].
    - split; [by exists f|lia]. }
  destruct v as [|b|n|f|[|c s]|b].
  - right. right. right. by left.
  - destruct b; [by right; left|]. right. right. right. by left.
  - destruct (float_of_int n) as [e|f] eqn:Hn.
    + destruct (Z.eqb_spec n 0) as [->|Hne]; [vm_compute in Hn; discriminate Hn|].
      right. right. left. split.
      * simpl. by destruct (Z.eqb_spec n 0).
      * simpl. by rewrite Hn.
    + destruct (Hdec f) as [?|?]; [simpl; by rewrite Hn|by left|by right; right; right].
  - destruct (finite f) eqn:Hfin.
    + destruct (Hdec f) as [?|?]; [simpl; by rewrite Hfin|by left|by right; right; right].
    + right. right. left. destruct f; try done; split; simpl; eauto.
  - right. right. right. by left.
  - destruct (float_of_str (c :: s)) as [f|] eqn:Hs.
    + destruct (finite f) eqn:Hfin.
      * destruct (Hdec f) as [?|?]; [simpl; by rewrite Hs, Hfin|by left|by right; right; right].
      * right. right. left. split; [done|]. simpl. rewrite Hs.
        destruct f; try done; simpl; eauto.
    + right. right. left. split; [done|]. simpl. by rewrite Hs.
  - destruct b.
    + right. right. left. by split.
    + right. right. right. by left.
Qed.

(** ** Integers that a binary64 holds exactly *)

Lemma digits2_pos_size m : digits2_pos m = Pos.size m.
Proof. induction m; simpl; congruence. Qed.

Lemma digits2_pos_bound m : Z.pos m < 2 ^ 53 → Z.pos (digits2_pos m) ≤ 53.
Proof.
  intros Hm. rewrite digits2_pos_size.
  pose proof (Pos.size_le m) as Hle.
  destruct (Z.le_gt_cases (Z.pos (Pos.size m)) 53) as [|Hgt]; [done|].
  exfalso.
  assert (H54 : 2 ^ 54 ≤ 2 ^ Z.pos (Pos.size m)) by (apply Z.pow_le_mono_r; lia).
  assert (Hpow : Z.pos (2 ^ Pos.size m) = 2 ^ Z.pos (Pos.size m))
    by (by rewrite Pos2Z.inj_pow).
  assert (Z.pos (2 ^ Pos.size m) ≤ Z.pos m~0) by (apply Pos2Z.pos_le_pos; exact Hle).
  rewrite Hpow in *. change (2 ^ 54) with (2 * 2 ^ 53) in H54. lia.
Qed.

Lemma iter_xO_value m k : Z.pos (Pos.iter xO m k) = Z.pos m * 2 ^ Z.pos k.
Proof.
  induction k as [|k IH] using Pos.peano_ind.
  - simpl. lia.
  - rewrite Pos.iter_succ, Pos2Z.inj_succ, Z.pow_succ_r by lia.
    rewrite Pos2Z.inj_xO, IH. lia.
Qed.

Lemma iter_xO_digits m k :
  digits2_pos (Pos.iter xO m k) = (digits2_pos m + k)%positive.
Proof.
  induction k as [|k IH] using Pos.peano_ind.
  - simpl. lia.
  - rewrite Pos.iter_succ. simpl. rewrite IH. lia.
Qed.

(** A mantissa of 53 bits is not rounded. *)
Lemma binary_round_aux_exact mz ez :
  Z.pos (digits2_pos mz) = 53 → -1021 ≤ ez ≤ 0 →
  binary_round_aux 53 1024 false (Z.pos mz) ez loc_Exact = S754_finite false mz ez.
Proof.
  intros Hd He. unfold binary_round_aux, shr_fexp, fexp, emin, Zdigits2.
  cbn [shr_record_of_loc]. rewrite Hd.
  replace (Z.max (53 + ez - 53) (3 - 1024 - 53) - ez) with 0 by lia.
  cbn [shr loc_of_shr_record shr_m round_nearest_even shr_record_of_loc].
  rewrite Hd.
  replace (Z.max (53 + ez - 53) (3 - 1024 - 53) - ez) with 0 by lia.
  cbn [shr shr_m].
  destruct (Z.leb_spec ez (1024 - 53)); [done|lia].
Qed.

(** [int(float(n)) == n] for a positive [n] below [2 ** 53]. *)
Lemma float_of_small_int n :
  0 < n < 2 ^ 53 →
  ∃ f, float_of_int n = inr f ∧ int_of_float f = inr n.
Proof.
  intros [Hpos Hn]. destruct n as [|m|m]; [lia| |lia].
  pose proof (digits2_pos_bound m Hn) as Hd.
  unfold float_of_int, binary_normalize, binary_round, shl_align, fexp, emin.
  set (d := Z.pos (digits2_pos m)) in *.
  replace (Z.max (d + 0 - 53) (3 - 1024 - 53) - 0) with (d - 53) by lia.
  replace (Z.max (d + 0 - 53) (3 - 1024 - 53)) with (d - 53) by lia.
  destruct (d - 53) as [|q|q] eqn:Hq; [|lia|].
  - rewrite binary_round_aux_exact by (fold d; lia).
    eexists. by split.
  - assert (Hk : Z.pos q = 53 - d) by lia.
    rewrite binary_round_aux_exact.
    + eexists. split; [done|]. cbn [int_of_float].
      replace (0 <=? Z.neg q) with false by (symmetry; apply Z.leb_gt; lia).
      rewrite iter_xO_value. change (- Z.neg q) with (Z.pos q).
      rewrite Z.shiftr_div_pow2 by lia. by rewrite Z.div_mul by lia.
    + rewrite iter_xO_digits. subst d. lia.
    + subst d. lia.
Qed.

(** A JSON integer between 1 and [2 ** 53] is its own number of units. *)
Lemma whole_units_small_int n :
  0 < n < 2 ^ 53 → whole_units float_of_str (VInt n) n.
Proof.
  intros Hn. destruct (float_of_small_int n Hn) as (f & Hf & Hint).
  exists f. split; [|done]. simpl. by rewrite Hf.
Qed.

(** The resolved price is never negative. *)
Lemma extract_price_nonneg item : 0 ≤ _extract_price_from_v5 float_of_str item.
Proof.
  unfold _extract_price_from_v5, extract_price_body.
  destruct (pr_price item) as [| |info]; simpl; try done.
  destruct (positive_price (pi_price info)) as [e|[n|]] eqn:H1; [done| |].
  - apply positive_price_positive in H1. lia.
  - destruct (positive_price (pi_old_price info)) as [e|[n|]] eqn:H2; [done| |done].
    apply positive_price_positive in H2. lia.
Qed.

(** C2, as amended. The resolved price of a price record is never
    negative: it is a positive integer or 0.  A record without price object
    resolves to 0.  A main price that is a decimal with a positive whole
    part is the resolved price, whatever the old price: a JSON integer
    between 1 and [2 ** 53] resolves to itself, and [true] to 1.  When the
    main price does not count, being absent or another value that counts
    as false, a decimal that is not positive, or a decimal of less than
    one unit (a positive one below 1 as well), the old price is the
    resolved price under the same test; when neither price counts, the
    resolved price is 0.  A price that [int(float(v))] cannot read, once
    reached, makes the resolved price 0.  Every value of a price field is
    of one of these kinds. *)
Theorem price_resolution_order item :
  0 ≤ _extract_price_from_v5 float_of_str item ∧
  ((∀ info, pr_price item ≠ PriceDict info) →
     _extract_price_from_v5 float_of_str item = 0) ∧
  (∀ v, (∃ n, whole_units float_of_str v n ∧ 0 < n) ∨ v = VBool true
        ∨ unreadable float_of_str v ∨ not_counted float_of_str v) ∧
  ∀ info,
    pr_price item = PriceDict info →
    (∀ n, whole_units float_of_str (pi_price info) n → 0 < n →
          _extract_price_from_v5 float_of_str item = n) ∧
    (∀ n, pi_price info = VInt n → 0 < n < 2 ^ 53 →
          _extract_price_from_v5 float_of_str item = n) ∧
    (pi_price info = VBool true →
       _extract_price_from_v5 float_of_str item = 1) ∧
    (unreadable float_of_str (pi_price info) →
       _extract_price_from_v5 float_of_str item = 0) ∧
    (not_counted float_of_str (pi_price info) →
       (∀ n, whole_units float_of_str (pi_old_price info) n → 0 < n →
             _extract_price_from_v5 float_of_str item = n) ∧
       (pi_old_price info = VBool true →
          _extract_price_from_v5 float_of_str item = 1) ∧
       (unreadable float_of_str (pi_old_price info) →
          _extract_price_from_v5 float_of_str item = 0) ∧
       (not_counted float_of_str (pi_old_price info) →
          _extract_price_from_v5 float_of_str item = 0)).
Proof.
  split; [apply extract_price_nonneg|]. split.
  { intros Hnone. unfold _extract_price_from_v5, extract_price_body.
    destruct (pr_price item) as [| |info]; [done|done|by destruct (Hnone info)]. }
  split; [apply price_kinds|].
  intros info Hinfo.
  assert (Htrue : positive_price (VBool true) = inr (Some 1)) by (by vm_compute).
  unfold _extract_price_from_v5, extract_price_body. rewrite Hinfo. simpl.
  split_and!.
  - intros n Hn Hpos. by rewrite (positive_price_taken _ n Hn Hpos).
  - intros n Hmain Hn. rewrite Hmain.
    by rewrite (positive_price_taken _ n (whole_units_small_int n Hn)) by lia.
  - intros ->. by rewrite Htrue.
  - intros Hmain. by destruct (positive_price_unreadable _ Hmain) as [e ->].
  - intros Hmain. rewrite (positive_price_not_counted _ Hmain). split_and!.
    + intros n Hn Hpos. by rewrite (positive_price_taken _ n Hn Hpos).
    + intros ->. by rewrite Htrue.
    + intros Hold. by destruct (positive_price_unreadable _ Hold) as [e ->].
    + intros Hold. by rewrite (positive_price_not_counted _ Hold).
Qed.

End PriceFacts.

(** ** Computations *)

Section IOFacts.
Import Py IO.

Lemma for_each_fmap {A B S} (f : A → B) (body : B → S → io S) xs s h :
  for_each (f <$> xs) body s h = for_each xs (λ x, body (f x)) s h.
Proof.
  revert s h. induction xs as [|x xs IH]; intros s h; [done|].
  simpl. unfold bind. destruct (body (f x) s h) as [h1 [e|s1]]; [done|].
  apply IH.
Qed.

(** A handler that returns leaves no exception. *)
Lemma try_except_ret {A} (m : io A) (a : A) h h' res :
  try_except m (λ _, ret a) h = (h', res) →
  (∃ v, m h = (h', inr v) ∧ res = inr v) ∨
  (∃ e, m h = (h', inl e) ∧ res = inr a).
Proof.
  unfold try_except, ret. destruct (m h) as [h1 [e|v]]; intros [= <- <-]; eauto.
Qed.

End IOFacts.

(** ** Batches *)

Section BatchFacts.

Lemma range_step_succ n step :
  (0 < step)%nat → (0 < n)%nat →
  range_step n step = O :: ((λ i, i + step)%nat <$> range_step (n - step) step).
Proof.
  intros Hstep Hn. unfold range_step.
  assert (Hq : ((n + step - 1) / step = S ((n - step + step - 1) / step))%nat).
  { destruct (Nat.le_gt_cases step n) as [Hle|Hgt].
    - replace (n + step - 1)%nat with ((n - step + step - 1) + 1 * step)%nat by lia.
      rewrite Nat.div_add by lia. lia.
    - replace (n - step + step - 1)%nat with (step - 1)%nat by lia.
      rewrite (Nat.div_small (step - 1)) by lia.
      replace (n + step - 1)%nat with ((n - 1) + 1 * step)%nat by lia.
      rewrite Nat.div_add by lia. rewrite Nat.div_small by lia. done. }
  rewrite Hq. simpl. f_equal.
  rewrite <- seq_shift, <- !list_fmap_compose.
  apply list_fmap_ext. intros _ k _. simpl. lia.
Qed.

(** The batches, by recursion on the identifiers that remain. *)
Lemma batches_unfold product_ids :
  product_ids ≠ [] →
  batches product_ids = take 50 product_ids :: batches (drop 50 product_ids).
Proof.
  intros Hne. unfold batches.
  rewrite range_step_succ; [|lia|destruct product_ids; simpl; [done|lia]].
  simpl. f_equal. rewrite length_drop, <- list_fmap_compose.
  apply list_fmap_ext. intros _ i _. simpl.
  by rewrite drop_drop, Nat.add_comm.
Qed.

Lemma batches_nil : batches [] = [].
Proof. done. Qed.

(** Induction on a list, fifty elements at a time. *)
Lemma batch_ind (P : list Z → Prop) :
  P [] →
  (∀ l, l ≠ [] → P (drop 50 l) → P l) →
  ∀ l, P l.
Proof.
  intros Hnil Hstep l. remember (length l) as n eqn:Hn. revert l Hn.
  induction n as [n IH] using lt_wf_ind. intros l Hn.
  destruct l as [|x l]; [done|]. apply Hstep; [done|].
  apply (IH (length (drop 50 (x :: l)))); [|done].
  rewrite length_drop. simpl in *. lia.
Qed.

(** The batches are consecutive slices: put end to end they give the
    identifiers back. *)
Lemma batches_concat product_ids : concat (batches product_ids) = product_ids.
Proof.
  induction product_ids as [|l Hne IH] using batch_ind; [done|].
  rewrite batches_unfold by done. simpl. rewrite IH. apply take_drop.
Qed.

(** Every batch has between 1 and 50 identifiers. *)
Lemma batches_sizes product_ids :
  Forall (λ b, (1 ≤ length b ≤ 50)%nat) (batches product_ids).
Proof.
  induction product_ids as [|l Hne IH] using batch_ind; [constructor|].
  rewrite batches_unfold by done. constructor; [|done].
  rewrite length_take. destruct l; [done|]. cbn [length]. lia.
Qed.

(** Every batch but the last has exactly 50. *)
Lemma batches_full product_ids k b :
  batches product_ids !! k = Some b →
  (S k < length (batches product_ids))%nat →
  length b = 50%nat.
Proof.
  revert k. induction product_ids as [|l Hne IH] using batch_ind; [done|].
  intros k. rewrite batches_unfold by done.
  destruct k as [|k]; simpl.
  - intros [= <-] Hlen. rewrite length_take.
    destruct (drop 50 l) eqn:Hd; [simpl in Hlen; lia|].
    assert (length (drop 50 l) ≠ 0)%nat by (rewrite Hd; done).
    rewrite length_drop in *. lia.
  - intros Hb Hlen. apply (IH k Hb). lia.
Qed.

(** An identifier of a batch is one of the identifiers. *)
Lemma batch_member product_ids b i :
  b ∈ batches product_ids → i ∈ b → i ∈ product_ids.
Proof.
  intros Hb Hi. rewrite <- (batches_concat product_ids).
  induction (batches product_ids) as [|b0 bs IH]; [by apply elem_of_nil in Hb|].
  simpl. apply elem_of_app.
  apply elem_of_cons in Hb as [->|Hb]; [by left|right; by apply IH].
Qed.

Lemma batches_length product_ids :
  length (batches product_ids) = ((length product_ids + 49) / 50)%nat.
Proof.
  unfold batches, range_step. rewrite !length_fmap, length_seq.
  f_equal. lia.
Qed.

End BatchFacts.

(** ** The price lookup *)

Section PriceLookupFacts.
Import Py IO.
Variable r : remote.

(** The outcome of batch [k] of the list [bs], after the requests [h]. *)
Local Abbreviation answer_at h bs k b :=
  (outcome (info_prices r (h ++ (InfoPrices <$> take k bs)) b)).

Lemma record_prices_spec price_items : ∀ prices_data,
  let merged := record_prices prices_data price_items in
  (∀ key, is_Some (prices_data !! key) → is_Some (merged !! key)) ∧
  (∀ it, it ∈ price_items → is_Some (merged !! pr_product_id it)) ∧
  (∀ key v, merged !! key = Some v →
     prices_data !! key = Some v ∨ (v ∈ price_items ∧ pr_product_id v = key)).
Proof.
  induction price_items as [|x rest IH]; intros prices_data; simpl.
  - split_and!; [done|by intros ? ?%elem_of_nil|by left].
  - destruct (IH (<[pr_product_id x := x]> prices_data)) as (Hkeep & Hnew & Hold).
    split_and!.
    + intros key Hkey. apply Hkeep.
      destruct (decide (pr_product_id x = key)) as [<-|Hne].
      * rewrite lookup_insert_eq. eauto.
      * by rewrite lookup_insert_ne.
    + intros it [->|Hin]%elem_of_cons; [|by apply Hnew].
      apply Hkeep. rewrite lookup_insert_eq. eauto.
    + intros key v Hv. destruct (Hold key v Hv) as [Hins|[Hin Hkey]].
      * destruct (decide (pr_product_id x = key)) as [<-|Hne].
        -- rewrite lookup_insert_eq in Hins. simplify_eq.
           right. split; [apply elem_of_cons; by left|done].
        -- rewrite lookup_insert_ne in Hins by done. by left.
      * right. split; [apply elem_of_cons; by right|done].
Qed.

(** One turn of the loop, by the outcome of its request. *)
Lemma prices_batch_step b prices_data h :
  prices_batch r b prices_data h =
  (h ++ [InfoPrices b],
   match outcome (info_prices r h b) with
   | Recorded price_items => inr (record_prices prices_data price_items)
   | Rejected _ => inr prices_data
   | Failed e => inl e
   end).
Proof.
  unfold prices_batch, bind, post_prices, outcome, lift, ret.
  destruct (info_prices r h b) as [e|resp]; [done|].
  destruct (status_code resp =? 200); [|done].
  by destruct (json resp).
Qed.

Lemma answer_at_0 h b rest :
  answer_at h (b :: rest) 0%nat b = outcome (info_prices r h b).
Proof. simpl. by rewrite app_nil_r. Qed.

Lemma answer_at_S h b rest k b' :
  answer_at h (b :: rest) (S k) b' = answer_at (h ++ [InfoPrices b]) rest k b'.
Proof. simpl. by rewrite <- app_assoc. Qed.

(** The loop when no batch raises: every batch is issued, in order, and
    the mapping holds what it held, plus the records of the batches
    answered with records, and nothing else. *)
Lemma prices_loop_completes bs : ∀ prices_data h,
  (∀ k b e, bs !! k = Some b → answer_at h bs k b ≠ Failed e) →
  ∃ merged,
    for_each bs (prices_batch r) prices_data h
      = (h ++ (InfoPrices <$> bs), inr merged) ∧
    (∀ key, is_Some (prices_data !! key) → is_Some (merged !! key)) ∧
    (∀ k b price_items it,
       bs !! k = Some b → answer_at h bs k b = Recorded price_items →
       it ∈ price_items → is_Some (merged !! pr_product_id it)) ∧
    (∀ key v, merged !! key = Some v →
       prices_data !! key = Some v ∨
       ∃ k b price_items,
         bs !! k = Some b ∧ answer_at h bs k b = Recorded price_items ∧
         v ∈ price_items ∧ pr_product_id v = key).
Proof.
  induction bs as [|b rest IH]; intros prices_data h Hok.
  - exists prices_data. simpl. rewrite app_nil_r.
    split_and!; [done|done|by intros [|?] ? ? ? ?|by left].
  - pose proof (Hok 0%nat b) as H0. rewrite answer_at_0 in H0.
    cbn [for_each]. unfold bind. rewrite prices_batch_step.
    set (next := match outcome (info_prices r h b) with
                 | Recorded price_items => record_prices prices_data price_items
                 | _ => prices_data
                 end).
    assert (Hstep : match outcome (info_prices r h b) with
                    | Recorded price_items =>
                        inr (record_prices prices_data price_items)
                    | Rejected _ => inr prices_data
                    | Failed e => inl e
                    end = (inr next : result _)).
    { subst next. destruct (outcome (info_prices r h b)) as [items|code|e];
        [done|done|]. by destruct (H0 e). }
    rewrite Hstep.
    destruct (IH next (h ++ [InfoPrices b])) as (merged & Hrun & Hkeep & Hnew & Hold).
    { intros k b' e Hb'. rewrite <- answer_at_S. by apply (Hok (S k)). }
    exists merged. rewrite Hrun. simpl. rewrite <- app_assoc. simpl.
    assert (Hnext : ∀ key, is_Some (prices_data !! key) → is_Some (next !! key)).
    { subst next. destruct (outcome (info_prices r h b)); [|done..].
      apply record_prices_spec. }
    split_and!; [done|by auto| |].
    + intros [|k] b' items it Hb' Hans Hit.
      * simpl in Hb'. simplify_eq. rewrite answer_at_0 in Hans.
        apply Hkeep. subst next. rewrite Hans.
        by apply record_prices_spec.
      * rewrite answer_at_S in Hans. by eapply Hnew.
    + intros key v Hv. destruct (Hold key v Hv) as [Hin|(k & b' & items & ? & Hans & ? & ?)].
      * subst next. destruct (outcome (info_prices r h b)) as [items|code|e] eqn:Hout;
          [|by left..].
        destruct (proj2 (proj2 (record_prices_spec items prices_data)) key v Hin)
          as [?|[? ?]]; [by left|].
        right. exists 0%nat, b, items. by rewrite answer_at_0.
      * right. exists (S k), b', items. by rewrite answer_at_S.
Qed.

(** The loop when batch [k] is the first to raise: the batches up to it
    are issued, and the exception leaves the loop. *)
Lemma prices_loop_raises bs : ∀ prices_data h k b e,
  bs !! k = Some b → answer_at h bs k b = Failed e →
  (∀ j b' e', (j < k)%nat → bs !! j = Some b' → answer_at h bs j b' ≠ Failed e') →
  for_each bs (prices_batch r) prices_data h
    = (h ++ (InfoPrices <$> take (S k) bs), inl e).
Proof.
  induction bs as [|b0 rest IH]; intros prices_data h k b e Hb Hfail Hbefore; [done|].
  cbn [for_each]. unfold bind. rewrite prices_batch_step.
  destruct k as [|k].
  - simpl in Hb. simplify_eq. rewrite answer_at_0 in Hfail. rewrite Hfail.
    simpl. by rewrite ?take_0.
  - pose proof (Hbefore 0%nat b0) as H0. rewrite answer_at_0 in H0.
    rewrite answer_at_S in Hfail.
    assert (Hrest : ∀ j b' e', (j < k)%nat → rest !! j = Some b' →
              answer_at (h ++ [InfoPrices b0]) rest j b' ≠ Failed e').
    { intros j b' e' Hj Hb'. rewrite <- answer_at_S. apply (Hbefore (S j)); [lia|done]. }
    destruct (outcome (info_prices r h b0)) as [items|code|e0].
    + rewrite (IH _ _ k b e Hb Hfail Hrest). simpl. by rewrite <- app_assoc.
    + rewrite (IH _ _ k b e Hb Hfail Hrest). simpl. by rewrite <- app_assoc.
    + by destruct (H0 e0 ltac:(lia) eq_refl).
Qed.

(** In every case the requests issued are the first batches, in order. *)
Lemma prices_loop_log bs : ∀ prices_data h h' res,
  for_each bs (prices_batch r) prices_data h = (h', res) →
  ∃ k, h' = h ++ (InfoPrices <$> take k bs).
Proof.
  induction bs as [|b rest IH]; intros prices_data h h' res.
  - intros [= <- <-]. exists 0%nat. by rewrite app_nil_r.
  - cbn [for_each]. unfold bind. rewrite prices_batch_step.
    destruct (outcome (info_prices r h b)) as [items|code|e].
    + intros (k & ->)%IH. exists (S k). simpl. by rewrite <- app_assoc.
    + intros (k & ->)%IH. exists (S k). simpl. by rewrite <- app_assoc.
    + intros [= <- <-]. by exists 1%nat.
Qed.

(** The loop of [_get_products_prices_v5] runs over the batches. *)
Lemma prices_loop_batches product_ids prices_data h :
  for_each (range_step (length product_ids) 50)
    (λ i, prices_batch r (take 50 (drop i product_ids))) prices_data h
  = for_each (batches product_ids) (prices_batch r) prices_data h.
Proof. unfold batches. by rewrite for_each_fmap. Qed.

(** [_get_products_prices_v5] never raises. *)
Lemma get_prices_returns product_ids h :
  ∃ h' prices_data, _get_products_prices_v5 r product_ids h = (h', inr prices_data).
Proof.
  unfold _get_products_prices_v5. destruct product_ids as [|x l].
  - by exists h, ∅.
  - unfold try_except.
    destruct (for_each _ _ _ h) as [h1 [e|m]]; [by exists h1, ∅|by exists h1, m].
Qed.

Lemma get_prices_completes product_ids h :
  no_batch_raises r h product_ids →
  ∃ prices_data,
    _get_products_prices_v5 r product_ids h
      = (h ++ (InfoPrices <$> batches product_ids), inr prices_data) ∧
    keeps_recorded_batches r h product_ids prices_data ∧
    (∀ key v, prices_data !! key = Some v →
       ∃ k b price_items,
         batches product_ids !! k = Some b ∧
         batch_answer r h product_ids k b = Recorded price_items ∧
         v ∈ price_items ∧ pr_product_id v = key).
Proof.
  intros Hok.
  destruct (prices_loop_completes (batches product_ids) ∅ h Hok)
    as (merged & Hrun & _ & Hnew & Hold).
  exists merged. split_and!.
  - unfold _get_products_prices_v5. destruct product_ids as [|x l].
    + rewrite batches_nil in Hrun. simpl in Hrun. by simplify_eq.
    + unfold try_except. by rewrite prices_loop_batches, Hrun.
  - exact Hnew.
  - intros key v Hv. destruct (Hold key v Hv) as [Hempty|?]; [|done].
    by rewrite lookup_empty in Hempty.
Qed.

Lemma get_prices_raises product_ids h k b e :
  batches product_ids !! k = Some b →
  batch_answer r h product_ids k b = Failed e →
  (∀ j b' e', (j < k)%nat → batches product_ids !! j = Some b' →
              batch_answer r h product_ids j b' ≠ Failed e') →
  _get_products_prices_v5 r product_ids h
    = (h ++ (InfoPrices <$> take (S k) (batches product_ids)), inr ∅).
Proof.
  intros Hb Hfail Hbefore.
  unfold _get_products_prices_v5. destruct product_ids as [|x l]; [done|].
  unfold try_except. rewrite prices_loop_batches.
  by rewrite (prices_loop_raises _ _ _ k b e Hb Hfail Hbefore).
Qed.

Lemma get_prices_log product_ids h h' res :
  _get_products_prices_v5 r product_ids h = (h', res) →
  ∃ k, h' = h ++ (InfoPrices <$> take k (batches product_ids)).
Proof.
  unfold _get_products_prices_v5. destruct product_ids as [|x l].
  - intros [= <- <-]. exists 0%nat. by rewrite app_nil_r.
  - unfold try_except. rewrite prices_loop_batches.
    destruct (for_each _ _ _ h) as [h1 [e|m]] eqn:Hrun;
      intros [= <- <-]; by eapply prices_loop_log.
Qed.

End PriceLookupFacts.

(** ** The description lookup *)

Section DescriptionLookupFacts.
Import Py IO.
Variable r : remote.

Lemma description_turn_log product_id descriptions_data h h' res :
  description_turn r product_id descriptions_data h = (h', res) →
  h' = h ++ [InfoDescription product_id].
Proof.
  unfold description_turn, bind, post_description, lift, ret.
  destruct (info_description r h product_id) as [e|resp]; [by intros [= <- <-]|].
  destruct (status_code resp =? 200); [|by intros [= <- <-]].
  destruct (json resp) as [e|[res0|]]; by intros [= <- <-].
Qed.

Lemma descriptions_loop_log ids : ∀ descriptions_data h h' res,
  for_each ids (description_turn r) descriptions_data h = (h', res) →
  ∃ k, h' = h ++ (InfoDescription <$> take k ids).
Proof.
  induction ids as [|x rest IH]; intros descriptions_data h h' res.
  - intros [= <- <-]. exists 0%nat. by rewrite app_nil_r.
  - cbn [for_each]. unfold bind.
    destruct (description_turn r x descriptions_data h) as [h1 [e|d1]] eqn:Hturn;
      apply description_turn_log in Hturn as ->.
    + intros [= <- <-]. by exists 1%nat.
    + intros (k & ->)%IH. exists (S k). simpl. by rewrite <- app_assoc.
Qed.

(** [_get_products_descriptions_v1] never raises. *)
Lemma get_descriptions_returns product_ids h :
  ∃ h' descriptions_data,
    _get_products_descriptions_v1 r product_ids h = (h', inr descriptions_data).
Proof.
  unfold _get_products_descriptions_v1. destruct product_ids as [|x l].
  - by exists h, ∅.
  - unfold try_except.
    destruct (for_each _ _ _ h) as [h1 [e|m]]; [by exists h1, ∅|by exists h1, m].
Qed.

Lemma get_descriptions_log product_ids h h' res :
  _get_products_descriptions_v1 r product_ids h = (h', res) →
  ∃ k, h' = h ++ (InfoDescription <$> take k product_ids).
Proof.
  unfold _get_products_descriptions_v1. destruct product_ids as [|x l].
  - intros [= <- <-]. exists 0%nat. by rewrite app_nil_r.
  - unfold try_except.
    destruct (for_each _ _ _ h) as [h1 [e|m]] eqn:Hrun;
      intros [= <- <-]; by eapply descriptions_loop_log.
Qed.

End DescriptionLookupFacts.

(** ** Reconciliation *)

Section ReconcileFacts.
Import Py IO.
Variable float_of_str : str → option spec_float.

Local Abbreviation build := (build_product float_of_str).
Local Abbreviation resolved_price := (_extract_price_from_v5 float_of_str).

(** What a product of the catalog says of the listing item it was built
    from. *)
Lemma build_product_inv prices_data descriptions_data item p :
  build prices_data descriptions_data item = Some p →
  li_product_id item = Some (product_id p) ∧
  product_id p ≠ 0 ∧
  offer_id p = li_offer_id item ∧
  price p = resolved_price (price_record prices_data (product_id p)) ∧
  0 < price p ∧
  description p =
    match source_text descriptions_data (product_id p) with
    | [] => name p
    | text =>
        let clean_text := _clean_description text in
        if (200 <? length clean_text)%nat
        then take 197 clean_text ++ lit "..."
        else clean_text
    end.
Proof.
  unfold build_product, build_product_body, source_text, source_value, price_record.
  destruct (li_product_id item) as [i|]; [|done].
  destruct (Z.eqb_spec i 0) as [|Hi]; [done|].
  pose proof (extract_price_nonneg float_of_str
                (default empty_price_item (prices_data !! Some i))) as Hnonneg.
  destruct (descriptions_data !! i) as [info|] eqn:Hd.
  - destruct (stored_description info) as [|b|n|f|[|c s]|b] eqn:Hv;
      cbn [truthy negb clean_description_value];
      repeat match goal with
             | |- context [if ?b then _ else _] =>
                 match b with
                 | _ =? 0 => fail 1
                 | _ => destruct b eqn:?
                 end
             end;
      try done;
      (destruct (Z.eqb_spec (resolved_price (default empty_price_item (prices_data !! Some i))) 0)
        as [|Hprice]; [done|]);
      intros [= <-]; cbn [product_id offer_id price description name];
      rewrite Hd, Hv; (split_and!; [done|done|done|done|lia|try done]).
    all: cbv zeta; by rewrite ?Heqb, ?Heqb0.
  - cbn [truthy negb].
    destruct (Z.eqb_spec (resolved_price (default empty_price_item (prices_data !! Some i))) 0)
      as [|Hprice]; [done|].
    intros [= <-]; cbn [product_id offer_id price description name].
    rewrite Hd. by (split_and!; [done|done|done|done|lia|]).
Qed.

(** The description of an item that builds a product is a [str], or a
    value that counts as false: the sanitizer raises on any other, and the
    handler of the loop leaves the item out. *)
Lemma build_product_textual prices_data descriptions_data item p :
  build prices_data descriptions_data item = Some p →
  textual (source_value descriptions_data (product_id p)) = true.
Proof.
  unfold build_product, build_product_body, source_value.
  destruct (li_product_id item) as [i|]; [|done].
  destruct (Z.eqb_spec i 0) as [|Hi]; [done|].
  destruct (descriptions_data !! i) as [info|] eqn:Hd.
  - destruct (stored_description info) as [|b|n|f|[|c s]|b] eqn:Hv;
      cbn [truthy negb clean_description_value];
      repeat match goal with
             | |- context [if ?b then _ else _] =>
                 match b with
                 | _ =? 0 => fail 1
                 | _ => destruct b eqn:?
                 end
             end;
      try done;
      (destruct (_extract_price_from_v5 _ _ =? 0); [done|]);
      intros [= <-]; cbn [product_id]; rewrite Hd, Hv; cbn [textual truthy];
      by rewrite ?Heqb.
  - cbn [truthy negb]. destruct (_extract_price_from_v5 _ _ =? 0); [done|].
    intros [= <-]. cbn [product_id]. by rewrite Hd.
Qed.

(** An item without identifier, or with the identifier 0, builds
    nothing. *)
Lemma build_product_unidentified prices_data descriptions_data item :
  li_product_id item = None →
  build prices_data descriptions_data item = None.
Proof. unfold build_product, build_product_body. by intros ->. Qed.

(** An item with an identifier other than 0, a description that the
    sanitizer accepts and a positive resolved price builds a product. *)
Lemma build_product_priced prices_data descriptions_data item i :
  li_product_id item = Some i → i ≠ 0 →
  textual (source_value descriptions_data i) = true →
  0 < resolved_price (price_record prices_data i) →
  is_Some (build prices_data descriptions_data item).
Proof.
  unfold build_product, build_product_body, price_record, source_value.
  intros -> Hi Htext Hprice.
  destruct (Z.eqb_spec i 0); [done|].
  destruct (Z.eqb_spec (resolved_price (default empty_price_item (prices_data !! Some i))) 0);
    [lia|].
  destruct (descriptions_data !! i) as [info|]; [|by eauto].
  destruct (stored_description info) as [|b|k|f|[|c s]|b];
    cbn [textual truthy negb clean_description_value] in *;
    repeat match goal with
           | |- context [if ?b then _ else _] => destruct b eqn:?
           end;
    try done; eauto.
Qed.

(** An item whose description is neither a [str] nor a value that counts
    as false builds nothing, whatever its price. *)
Lemma build_product_not_textual prices_data descriptions_data item i :
  li_product_id item = Some i →
  textual (source_value descriptions_data i) = false →
  build prices_data descriptions_data item = None.
Proof.
  intros Hid Htext.
  destruct (build prices_data descriptions_data item) as [p|] eqn:Hbuild; [|done].
  pose proof (build_product_textual _ _ _ _ Hbuild) as Hp.
  apply build_product_inv in Hbuild as (Hid' & _).
  rewrite Hid in Hid'. simplify_eq. congruence.
Qed.

(** The listing call fails, is empty, or carries no identifier:
    [get_products_with_prices] returns [None] after its one request. *)
Lemma get_products_nothing cfg r limit h :
  keys_missing cfg = false →
  (∀ items, listing (list_products r h limit) = Some items →
            identifiers items = []) →
  get_products_with_prices float_of_str cfg r limit h
    = (h ++ [ProductList limit], inr None).
Proof.
  intros Hkeys Hnone. unfold get_products_with_prices. rewrite Hkeys.
  unfold try_except, bind, post_list, listing in *.
  destruct (list_products r h limit) as [e|resp]; [by destruct e|].
  destruct (status_code resp =? 200); [|done]. simpl.
  unfold lift. destruct (json resp) as [e|items]; [by destruct e|].
  specialize (Hnone items eq_refl). unfold identifiers in Hnone.
  destruct items as [|it rest]; [done|]. by rewrite Hnone.
Qed.

(** Otherwise it returns the products built from the items, in the order
    of the listing. *)
Lemma get_products_some cfg r limit h items h1 prices_data h2 descriptions_data :
  keys_missing cfg = false →
  listing (list_products r h limit) = Some items →
  identifiers items ≠ [] →
  _get_products_prices_v5 r (identifiers items) (h ++ [ProductList limit])
    = (h1, inr prices_data) →
  _get_products_descriptions_v1 r (identifiers items) h1
    = (h2, inr descriptions_data) →
  get_products_with_prices float_of_str cfg r limit h
    = (h2, inr (Some (omap (build prices_data descriptions_data) items))).
Proof.
  intros Hkeys Hlist Hids Hprices Hdescs.
  unfold get_products_with_prices. rewrite Hkeys.
  unfold try_except, bind, post_list, listing, identifiers in *.
  destruct (list_products r h limit) as [e|resp]; [done|].
  destruct (status_code resp =? 200); [|done]. simpl.
  unfold lift. destruct (json resp) as [e|items']; [done|]. simplify_eq.
  destruct items as [|it rest]; [done|].
  destruct (omap li_product_id (it :: rest)) as [|i ids]; [done|].
  by rewrite Hprices, Hdescs.
Qed.

(** The copy that [load_real_products] makes of a product is the
    product. *)
Lemma product_copy (item : product) :
  {| product_id := product_id item; offer_id := offer_id item;
     name := name item; price := price item;
     description := description item; quantity := quantity item |} = item.
Proof. by destruct item. Qed.

(** Position [c + i] holds the [i]-th product. *)
Lemma number_products_lookup products_data : ∀ products c k,
  number_products products_data products c !! k =
  if decide (c ≤ k < c + Z.of_nat (length products_data))
  then products_data !! Z.to_nat (k - c)
  else products !! k.
Proof.
  induction products_data as [|item rest IH]; intros products c k.
  - simpl. case_decide; [lia|done].
  - cbn [number_products]. rewrite IH, product_copy. cbn [length].
    destruct (decide (k = c)) as [->|Hk].
    + rewrite decide_False by lia. rewrite decide_True by lia.
      rewrite lookup_insert_eq. by rewrite Z.sub_diag.
    + rewrite lookup_insert_ne by done.
      repeat case_decide; try lia; try done.
      replace (Z.to_nat (k - c)) with (S (Z.to_nat (k - (c + 1)))) by lia.
      done.
Qed.

Lemma number_products_size products_data : ∀ products c,
  (∀ k, c ≤ k → products !! k = None) →
  size (number_products products_data products c)
    = (size products + length products_data)%nat.
Proof.
  induction products_data as [|item rest IH]; intros products c Hfresh.
  - simpl. lia.
  - cbn [number_products length]. rewrite IH.
    + rewrite map_size_insert_None by (apply Hfresh; lia). lia.
    + intros k Hk. rewrite lookup_insert_ne by lia. apply Hfresh. lia.
Qed.

(** The cache built from a list of products: as many entries as products,
    at the positions 1, 2, ... in the order of the list. *)
Lemma number_products_from_1 products_data :
  let products_cache := number_products products_data ∅ 1 in
  size products_cache = length products_data ∧
  (∀ i, products_cache !! (Z.of_nat i + 1) = products_data !! i) ∧
  (∀ k, is_Some (products_cache !! k) ↔ 1 ≤ k ≤ len products_cache).
Proof.
  assert (Hsize : size (number_products products_data ∅ 1) = length products_data).
  { rewrite number_products_size; [by rewrite map_size_empty|].
    intros k _. apply lookup_empty. }
  simpl. split_and!; [done| |].
  - intros i. rewrite number_products_lookup.
    case_decide as Hi.
    + f_equal. lia.
    + rewrite lookup_empty. symmetry. apply lookup_ge_None. lia.
  - intros k. unfold len. rewrite Hsize, number_products_lookup.
    case_decide as Hk.
    + split; [lia|]. intros _. apply lookup_lt_is_Some. lia.
    + rewrite lookup_empty. split; [by intros [? ?]|lia].
Qed.

End ReconcileFacts.

(** ** Refresh *)

Section RefreshFacts.
Import Py IO.
Variable float_of_str : str → option spec_float.

Local Abbreviation build := (build_product float_of_str).
Local Abbreviation resolved_price := (_extract_price_from_v5 float_of_str).
Local Abbreviation load := (load_real_products float_of_str).
Local Abbreviation refresh := (refresh_products_callback float_of_str).

(** Without keys no request is issued and the cache is emptied. *)
Lemma load_without_keys cfg r products_cache h :
  keys_missing cfg = true →
  load cfg r products_cache h = (h, inr ∅).
Proof. unfold load. by intros ->. Qed.

(** A listing that fails, is empty or carries no identifier empties the
    cache. *)
Lemma load_nothing cfg r products_cache h :
  keys_missing cfg = false →
  (∀ items, listing (list_products r h 20) = Some items →
            identifiers items = []) →
  load cfg r products_cache h = (h ++ [ProductList 20], inr ∅).
Proof.
  intros Hkeys Hnone. unfold load.
  rewrite Hkeys. unfold bind.
  by rewrite get_products_nothing.
Qed.

(** A refresh that reaches reconciliation numbers the products built from
    the listing. *)
Lemma load_some cfg r products_cache h items h1 prices_data h2 descriptions_data :
  keys_missing cfg = false →
  listing (list_products r h 20) = Some items →
  identifiers items ≠ [] →
  _get_products_prices_v5 r (identifiers items) (h ++ [ProductList 20])
    = (h1, inr prices_data) →
  _get_products_descriptions_v1 r (identifiers items) h1
    = (h2, inr descriptions_data) →
  load cfg r products_cache h
    = (h2, inr (number_products
                  (omap (build prices_data descriptions_data) items) ∅ 1)).
Proof.
  intros Hkeys Hlist Hids Hprices Hdescs.
  unfold load.
  rewrite Hkeys. unfold bind.
  rewrite (get_products_some _ _ _ _ _ _ _ _ _ _ Hkeys Hlist Hids Hprices Hdescs).
  by destruct (omap _ items).
Qed.

Lemma load_reconciled cfg r products_cache h items prices_data descriptions_data :
  keys_missing cfg = false →
  reconciles r h items prices_data descriptions_data →
  ∃ h',
    load cfg r products_cache h
      = (h', inr (number_products
                    (omap (build prices_data descriptions_data) items) ∅ 1)).
Proof.
  intros Hkeys (Hlist & Hids & h1 & h2 & Hprices & Hdescs).
  exists h2. by eapply load_some.
Qed.

(** Every refresh returns a cache: the numbering of a list of products,
    which is empty or built by a reconciliation. *)
Lemma load_cases cfg r products_cache h :
  ∃ h' products_data,
    load cfg r products_cache h
      = (h', inr (number_products products_data ∅ 1)) ∧
    (products_data = [] ∨
     ∃ items prices_data descriptions_data,
       reconciles r h items prices_data descriptions_data ∧
       products_data = omap (build prices_data descriptions_data) items).
Proof.
  destruct (keys_missing cfg) eqn:Hkeys.
  { exists h, []. split; [by apply load_without_keys|by left]. }
  destruct (listing (list_products r h 20)) as [items|] eqn:Hlist; cycle 1.
  { exists (h ++ [ProductList 20]), []. split; [|by left].
    apply load_nothing; [done|]. by rewrite Hlist. }
  destruct (decide (identifiers items = [])) as [Hids|Hids].
  { exists (h ++ [ProductList 20]), []. split; [|by left].
    apply load_nothing; [done|]. rewrite Hlist. by intros ? [= <-]. }
  destruct (get_prices_returns r (identifiers items) (h ++ [ProductList 20]))
    as (h1 & prices_data & Hprices).
  destruct (get_descriptions_returns r (identifiers items) h1)
    as (h2 & descriptions_data & Hdescs).
  assert (Hrec : reconciles r h items prices_data descriptions_data).
  { split_and!; [done|done|]. by exists h1, h2. }
  destruct (load_reconciled cfg r products_cache h _ _ _ Hkeys Hrec) as [h' Hload].
  exists h', (omap (build prices_data descriptions_data) items).
  split; [done|]. right. by exists items, prices_data, descriptions_data.
Qed.

(** The reconciliation of a refresh is determined by the remote side. *)
Lemma reconciles_unique r h items pd dd items' pd' dd' :
  reconciles r h items pd dd → reconciles r h items' pd' dd' →
  items = items' ∧ pd = pd' ∧ dd = dd'.
Proof.
  intros (Hl & _ & h1 & h2 & Hp & Hd) (Hl' & _ & h1' & h2' & Hp' & Hd').
  rewrite Hl in Hl'. simplify_eq. rewrite Hp in Hp'. simplify_eq.
  rewrite Hd in Hd'. by simplify_eq.
Qed.

(** The list of products that a refresh numbers: none without keys or
    without reconciliation, else the products built from the listing. *)
Lemma load_products cfg r products_cache h :
  ∃ h' products_data,
    load cfg r products_cache h
      = (h', inr (number_products products_data ∅ 1)) ∧
    (keys_missing cfg = true ∨
     (∀ items prices_data descriptions_data,
        ¬ reconciles r h items prices_data descriptions_data) →
     products_data = []) ∧
    (keys_missing cfg = false →
     ∀ items prices_data descriptions_data,
       reconciles r h items prices_data descriptions_data →
       products_data = omap (build prices_data descriptions_data) items).
Proof.
  destruct (keys_missing cfg) eqn:Hkeys.
  { exists h, []. split_and!; [by apply load_without_keys|done|done]. }
  destruct (listing (list_products r h 20)) as [items|] eqn:Hlist; cycle 1.
  { exists (h ++ [ProductList 20]), []. split_and!; [|done|].
    - apply load_nothing; [done|]. by rewrite Hlist.
    - intros _ items pd dd (Hl & _). by rewrite Hlist in Hl. }
  destruct (decide (identifiers items = [])) as [Hids|Hids].
  { exists (h ++ [ProductList 20]), []. split_and!; [|done|].
    - apply load_nothing; [done|]. rewrite Hlist. by intros ? [= <-].
    - intros _ items' pd dd (Hl & Hne & _). rewrite Hlist in Hl. by simplify_eq. }
  destruct (get_prices_returns r (identifiers items) (h ++ [ProductList 20]))
    as (h1 & prices_data & Hprices).
  destruct (get_descriptions_returns r (identifiers items) h1)
    as (h2 & descriptions_data & Hdescs).
  assert (Hrec : reconciles r h items prices_data descriptions_data).
  { split_and!; [done|done|]. by exists h1, h2. }
  destruct (load_reconciled cfg r products_cache h _ _ _ Hkeys Hrec) as [h' Hload].
  exists h', (omap (build prices_data descriptions_data) items).
  split_and!; [done| |].
  - intros [?|Hnone]; [done|]. by destruct (Hnone _ _ _ Hrec).
  - intros _ items' pd' dd' Hrec'.
    by destruct (reconciles_unique _ _ _ _ _ _ _ _ Hrec Hrec') as (<- & <- & <-).
Qed.

(** A product of the cache was built from an item of the listing. *)
Lemma cached_product_origin cfg r products_cache h h' products_cache' pos p :
  load cfg r products_cache h = (h', inr products_cache') →
  products_cache' !! pos = Some p →
  ∃ items prices_data descriptions_data item,
    reconciles r h items prices_data descriptions_data ∧
    item ∈ items ∧
    build prices_data descriptions_data item = Some p.
Proof.
  intros Hload Hp.
  destruct (load_cases cfg r products_cache h) as (h0 & products & Hrun & Hcases).
  rewrite Hrun in Hload. simplify_eq.
  rewrite number_products_lookup, lookup_empty in Hp.
  case_decide; [|done].
  destruct Hcases as [->|(items & pd & dd & Hrec & ->)]; [done|].
  apply list_elem_of_lookup_2, list_elem_of_omap in Hp as (item & Hitem & Hbuild).
  by exists items, pd, dd, item.
Qed.

(** C1. Every refresh returns a cache, and every product in it has a
    price above 0: an identifier whose resolved price is 0 or less, as
    the one of a listing item without usable price, is the identifier of
    no product of the cache. *)
Theorem cached_prices_positive cfg r products_cache h :
  ∃ h' products_cache',
    load cfg r products_cache h = (h', inr products_cache') ∧
    (∀ pos p, products_cache' !! pos = Some p → 0 < price p) ∧
    (∀ items prices_data descriptions_data i,
       reconciles r h items prices_data descriptions_data →
       resolved_price (price_record prices_data i) ≤ 0 →
       ∀ pos p, products_cache' !! pos = Some p → product_id p ≠ i).
Proof.
  destruct (load_cases cfg r products_cache h) as (h' & products & Hrun & _).
  exists h', (number_products products ∅ 1). split_and!; [done| |].
  - intros pos p Hp.
    destruct (cached_product_origin _ _ _ _ _ _ _ _ Hrun Hp)
      as (items & pd & dd & item & _ & _ & Hbuild).
    by apply build_product_inv in Hbuild as (_ & _ & _ & _ & ? & _).
  - intros items pd dd i Hrec Hprice pos p Hp Hi. subst i.
    destruct (cached_product_origin _ _ _ _ _ _ _ _ Hrun Hp)
      as (items' & pd' & dd' & item' & Hrec' & _ & Hbuild).
    destruct (reconciles_unique _ _ _ _ _ _ _ _ Hrec Hrec') as (<- & <- & <-).
    apply build_product_inv in Hbuild as (_ & _ & _ & Heq & Hpos & _).
    rewrite Heq in Hpos. lia.
Qed.

(** C4, as amended. Every refresh returns a cache.  A product of it whose
    source holds a description text has a description of at most 200
    characters: the sanitized text when that has at most 200 characters,
    else its first 197 characters and three dots.  A product whose source
    holds no description text has its name as description, whatever the
    length of the name.  The source of a product of the cache holds a
    string, or a value that counts as false and is no description text:
    an item with any other description is left out. *)
Theorem cached_description cfg r products_cache h :
  ∃ h' products_cache',
    load cfg r products_cache h = (h', inr products_cache') ∧
    ∀ pos p, products_cache' !! pos = Some p →
      ∃ items prices_data descriptions_data,
        reconciles r h items prices_data descriptions_data ∧
        let text := source_text descriptions_data (product_id p) in
        let clean_text := _clean_description text in
        textual (source_value descriptions_data (product_id p)) = true ∧
        (text = [] → description p = name p) ∧
        (text ≠ [] →
           (length (description p) ≤ 200)%nat ∧
           ((length clean_text ≤ 200)%nat → description p = clean_text) ∧
           ((200 < length clean_text)%nat →
              description p = take 197 clean_text ++ lit "...")).
Proof.
  destruct (load_cases cfg r products_cache h) as (h' & products & Hrun & _).
  exists h', (number_products products ∅ 1). split; [done|].
  intros pos p Hp.
  destruct (cached_product_origin _ _ _ _ _ _ _ _ Hrun Hp)
    as (items & pd & dd & item & Hrec & _ & Hbuild).
  exists items, pd, dd. split; [done|].
  pose proof (build_product_textual _ _ _ _ _ Hbuild) as Htextual.
  apply build_product_inv in Hbuild as (_ & _ & _ & _ & _ & Hdescr).
  destruct (source_text dd (product_id p)) as [|c text] eqn:Htext; cbv zeta.
  - split; [done|]. split; [done|by intros []].
  - split; [done|]. split; [done|]. intros _. rewrite Hdescr. cbv zeta.
    set (clean_text := _clean_description (c :: text)).
    destruct (Nat.ltb_spec 200 (length clean_text)) as [Hlong|Hshort].
    + split_and!; [|intros ?; lia|done].
      rewrite length_app, length_take.
      change (length (lit "...")) with 3%nat. lia.
    + split_and!; [done|done|intros ?; lia].
Qed.

(** What the answers that give no listing are. *)
Lemma listing_none answer :
  listing answer = None ↔
  match answer with
  | inl _ => True
  | inr list_response =>
      status_code list_response ≠ 200 ∨ ∃ e, json list_response = inl e
  end.
Proof.
  unfold listing. destruct answer as [e|resp]; [done|].
  destruct (Z.eqb_spec (status_code resp) 200) as [Hs|Hs].
  - destruct (json resp) as [e|items]; split; try done; eauto.
    intros [?|[e ?]]; done.
  - split; [by left|done].
Qed.

(** C5. Every refresh returns: no exception leaves it.  When the listing
    call fails (the request raises, the status is not 200 or the body
    cannot be decoded) or lists no item, the cache it leaves is empty,
    whatever the cache it found, and the count after it is 0. *)
Theorem failed_listing_empties_cache cfg r products_cache h :
  (∃ h' counts,
     refresh cfg r products_cache h = (h', inr counts)) ∧
  (listing (list_products r h 20) = None ∨
   listing (list_products r h 20) = Some [] →
   ∃ h',
     load cfg r products_cache h = (h', inr ∅) ∧
     refresh cfg r products_cache h
       = (h', inr (size products_cache, 0%nat, ∅))).
Proof.
  unfold refresh_products_callback, bind.
  split.
  - destruct (load_cases cfg r products_cache h) as (h' & products & Hrun & _).
    fold load. rewrite Hrun. eauto.
  - intros Hfail.
    assert (∃ h', load cfg r products_cache h = (h', inr ∅))
      as [h' Hload].
    { destruct (keys_missing cfg) eqn:Hkeys.
      - exists h. by apply load_without_keys.
      - exists (h ++ [ProductList 20]). apply load_nothing; [done|].
        intros items Hitems. destruct Hfail as [Hfail|Hfail];
          rewrite Hfail in Hitems; by simplify_eq. }
    exists h'. split; [done|]. fold load. rewrite Hload.
    unfold ret. by rewrite map_size_empty.
Qed.

Lemma omap_length_le {A B} (f : A → option B) (l : list A) :
  (length (omap f l) ≤ length l)%nat.
Proof.
  induction l as [|x l IH]; [done|].
  change (omap f (x :: l)) with
    (match f x with Some y => y :: omap f l | None => omap f l end).
  destruct (f x); cbn [length]; lia.
Qed.

(** The products built from a listing keep the order of the listing. *)
Lemma built_products_order prices_data descriptions_data items :
  (product_id <$> omap (build prices_data descriptions_data) items)
    `sublist_of` identifiers items.
Proof.
  unfold identifiers. induction items as [|item rest IH]; [constructor|].
  simpl. destruct (build _ _ item) as [p|] eqn:Hbuild.
  - apply build_product_inv in Hbuild as (-> & _). simpl.
    by apply sublist_skip.
  - destruct (li_product_id item); [by apply sublist_cons|done].
Qed.

(** C7. The cache of every refresh is keyed by the positions 1 to its
    size, without gap, and position [i + 1] holds the [i]-th product of the
    list that the refresh numbers.  That list is empty when a key is
    missing or the refresh reaches no reconciliation; otherwise it is the
    list of the products built from the listing items, in the order of the
    listing, the items that build no product left out. *)
Theorem cache_positions_dense cfg r products_cache h :
  ∃ h' products_cache' products_data,
    load cfg r products_cache h = (h', inr products_cache') ∧
    size products_cache' = length products_data ∧
    (∀ k, is_Some (products_cache' !! k) ↔ 1 ≤ k ≤ len products_cache') ∧
    (∀ i, products_cache' !! (Z.of_nat i + 1) = products_data !! i) ∧
    (keys_missing cfg = true ∨
     (∀ items prices_data descriptions_data,
        ¬ reconciles r h items prices_data descriptions_data) →
     products_data = []) ∧
    (keys_missing cfg = false →
     ∀ items prices_data descriptions_data,
       reconciles r h items prices_data descriptions_data →
       products_data = omap (build prices_data descriptions_data) items ∧
       (product_id <$> products_data) `sublist_of` identifiers items).
Proof.
  destruct (load_products cfg r products_cache h)
    as (h' & products & Hrun & Hnone & Hsome).
  exists h', (number_products products ∅ 1), products.
  destruct (number_products_from_1 products) as (Hsize & Hpos & Hdom).
  split_and!; [done|done|done|done|done|].
  intros Hkeys items pd dd Hrec.
  rewrite (Hsome Hkeys items pd dd Hrec). split; [done|].
  apply built_products_order.
Qed.

(** C8, as amended. A refresh that reaches reconciliation leaves at most
    as many products in the cache as the listing has items, and at least
    one when the listing holds an item with an identifier other than 0, a
    description that the sanitizer accepts (a string, or a value that
    counts as false) and a positive resolved price. *)
Theorem refresh_count_bounds cfg r products_cache h
    items prices_data descriptions_data :
  keys_missing cfg = false →
  reconciles r h items prices_data descriptions_data →
  ∃ h' products_count_after products_cache',
    refresh cfg r products_cache h
      = (h', inr (size products_cache, products_count_after, products_cache')) ∧
    (products_count_after ≤ length items)%nat ∧
    ∀ item i,
      item ∈ items → li_product_id item = Some i → i ≠ 0 →
      textual (source_value descriptions_data i) = true →
      0 < resolved_price (price_record prices_data i) →
      (1 ≤ products_count_after)%nat.
Proof.
  intros Hkeys Hrec.
  destruct (load_reconciled cfg r products_cache h _ _ _ Hkeys Hrec) as [h' Hload].
  set (products := omap (build prices_data descriptions_data) items) in *.
  exists h', (size (number_products products ∅ 1)), (number_products products ∅ 1).
  destruct (number_products_from_1 products) as (-> & _ & _).
  split_and!.
  - unfold refresh_products_callback, bind.
    fold load. rewrite Hload. unfold ret.
    by destruct (number_products_from_1 products) as (-> & _ & _).
  - subst products. apply omap_length_le.
  - intros item i Hitem Hid Hi Htext Hprice.
    destruct (build_product_priced float_of_str prices_data descriptions_data
                item i Hid Hi Htext Hprice) as [p Hp].
    assert (Hin : p ∈ products).
    { apply list_elem_of_omap. by exists item. }
    destruct products; [by apply elem_of_nil in Hin|simpl; lia].
Qed.

End RefreshFacts.

(** ** Items without identifier *)

Section IdentifierFacts.
Import Py IO.
Variable float_of_str : str → option spec_float.

Local Abbreviation build := (build_product float_of_str).
Local Abbreviation load := (load_real_products float_of_str).

Lemma omap_identified {B} (f : listing_item → option B) items :
  (∀ item, li_product_id item = None → f item = None) →
  omap f (identified items) = omap f items.
Proof.
  intros Hf. unfold identified. induction items as [|item rest IH]; [done|].
  rewrite filter_cons.
  change (omap f (item :: rest)) with
    (match f item with Some y => y :: omap f rest | None => omap f rest end).
  destruct (decide (is_Some (li_product_id item))) as [Hid|Hid].
  - change (omap f (item :: filter _ rest)) with
      (match f item with
       | Some y => y :: omap f (filter (λ x, is_Some (li_product_id x)) rest)
       | None => omap f (filter (λ x, is_Some (li_product_id x)) rest)
       end).
    by rewrite IH.
  - rewrite IH, Hf; [done|].
    destruct (li_product_id item); [|done]. by destruct Hid.
Qed.

Lemma identifiers_identified items :
  identifiers (identified items) = identifiers items.
Proof. unfold identifiers. by apply omap_identified. Qed.

Lemma identifier_of_item items i :
  i ∈ identifiers items → ∃ item, item ∈ items ∧ li_product_id item = Some i.
Proof. unfold identifiers. by intros ?%list_elem_of_omap. Qed.

(** The requests that a refresh issues concern the items of its
    listing. *)
Lemma load_log cfg r products_cache h items :
  listing (list_products r h 20) = Some items →
  ∃ issued products_cache',
    load cfg r products_cache h = (h ++ issued, inr products_cache') ∧
    Forall (about_items items) issued.
Proof.
  intros Hlist.
  destruct (keys_missing cfg) eqn:Hkeys.
  { exists [], ∅. rewrite app_nil_r.
    split; [by apply load_without_keys|constructor]. }
  destruct (decide (identifiers items = [])) as [Hids|Hids].
  { exists [ProductList 20], ∅. split; [|by repeat constructor].
    apply load_nothing; [done|]. rewrite Hlist. by intros ? [= <-]. }
  destruct (get_prices_returns r (identifiers items) (h ++ [ProductList 20]))
    as (h1 & pd & Hprices).
  destruct (get_descriptions_returns r (identifiers items) h1)
    as (h2 & dd & Hdescs).
  destruct (get_prices_log _ _ _ _ _ Hprices) as [k ->].
  destruct (get_descriptions_log _ _ _ _ _ Hdescs) as [j ->].
  eexists _, _. split.
  - rewrite (load_some float_of_str cfg r products_cache h items _ pd _ dd
               Hkeys Hlist Hids Hprices Hdescs).
    by rewrite <- !app_assoc.
  - apply Forall_app. split; [by repeat constructor|].
    apply Forall_app. split.
    + apply Forall_fmap, Forall_forall. intros b Hb. simpl. intros i Hi.
      apply identifier_of_item.
      apply (batch_member _ b); [|done]. by eapply subseteq_take.
    + apply Forall_fmap, Forall_forall. intros i Hi. simpl.
      apply identifier_of_item. by eapply subseteq_take.
Qed.

(** C10. A refresh treats its listing as it treats the listing without
    the items that lack an identifier: same requests, same cache.  The
    price and description requests name identifiers of listing items only,
    and every product of the cache has the identifier of a listing item.
    When no item carries an identifier, the refresh ends as it does when
    the listing call fails, with an empty cache. *)
Theorem unidentified_items_excluded cfg r products_cache h items :
  listing (list_products r h 20) = Some items →
  load cfg r products_cache h
    = load cfg (with_listing_answer r (listed (identified items))) products_cache h ∧
  (∃ issued products_cache',
     load cfg r products_cache h = (h ++ issued, inr products_cache') ∧
     Forall (about_items items) issued ∧
     ∀ pos p, products_cache' !! pos = Some p →
       ∃ item, item ∈ items ∧ li_product_id item = Some (product_id p)) ∧
  (identifiers items = [] →
     (∃ h', load cfg r products_cache h = (h', inr ∅)) ∧
     ∀ failure, listing failure = None →
       load cfg r products_cache h
         = load cfg (with_listing_answer r failure) products_cache h).
Proof.
  intros Hlist. split_and!.
  - destruct (keys_missing cfg) eqn:Hkeys.
    { by rewrite !load_without_keys. }
    destruct (decide (identifiers items = [])) as [Hids|Hids].
    { rewrite !load_nothing; try done.
      - simpl. intros items' [= <-]. by rewrite identifiers_identified.
      - rewrite Hlist. by intros ? [= <-]. }
    destruct (get_prices_returns r (identifiers items) (h ++ [ProductList 20]))
      as (h1 & pd & Hprices).
    destruct (get_descriptions_returns r (identifiers items) h1)
      as (h2 & dd & Hdescs).
    rewrite (load_some float_of_str cfg r products_cache h items _ pd _ dd
               Hkeys Hlist Hids Hprices Hdescs).
    rewrite (load_some float_of_str cfg _ products_cache h (identified items) h1 pd h2 dd);
      try done.
    + f_equal. f_equal. f_equal. symmetry. apply omap_identified.
      apply build_product_unidentified.
    + by rewrite identifiers_identified.
    + by rewrite identifiers_identified.
    + by rewrite identifiers_identified.
  - destruct (load_log cfg r products_cache h items Hlist)
      as (issued & cache' & Hload & Hissued).
    exists issued, cache'. split_and!; [done|done|].
    intros pos p Hp.
    destruct (cached_product_origin _ _ _ _ _ _ _ _ _ Hload Hp)
      as (items' & pd & dd & item & (Hlist' & _) & Hitem & Hbuild).
    rewrite Hlist in Hlist'. simplify_eq.
    exists item. split; [done|].
    by apply build_product_inv in Hbuild as (? & _).
  - intros Hids.
    assert (Hnothing : ∀ items', listing (list_products r h 20) = Some items' →
              identifiers items' = []).
    { rewrite Hlist. by intros ? [= <-]. }
    split.
    + destruct (keys_missing cfg) eqn:Hkeys.
      * exists h. by apply load_without_keys.
      * exists (h ++ [ProductList 20]). by apply load_nothing.
    + intros failure Hfailure.
      destruct (keys_missing cfg) eqn:Hkeys.
      { by rewrite !load_without_keys. }
      rewrite !load_nothing; try done.
      simpl. by rewrite Hfailure.
Qed.

End IdentifierFacts.

(** ** Batches and failures of the price lookup *)

Section BatchedLookup.
Import Py IO.

(** C3, as amended. A batch answered with a status other than 200
    contributes no record and does not end the call: when no batch
    raises, every batch is issued, the mapping returned has an entry for
    every record of every batch answered with records, and each of its
    entries is a record of such a batch, under the identifier of that
    record.  A batch that raises (a timeout, a connection error, a body
    that cannot be decoded) ends the call: the batches after it are not
    issued and the mapping returned is empty, without the records of the
    batches before it. *)
Theorem rejected_batches_are_skipped r h product_ids :
  (no_batch_raises r h product_ids →
     ∃ prices_data,
       _get_products_prices_v5 r product_ids h
         = (h ++ (InfoPrices <$> batches product_ids), inr prices_data) ∧
       keeps_recorded_batches r h product_ids prices_data ∧
       only_recorded_batches r h product_ids prices_data) ∧
  (∀ k b e,
     batches product_ids !! k = Some b →
     batch_answer r h product_ids k b = Failed e →
     (∀ j b' e', (j < k)%nat → batches product_ids !! j = Some b' →
                 batch_answer r h product_ids j b' ≠ Failed e') →
     _get_products_prices_v5 r product_ids h
       = (h ++ (InfoPrices <$> take (S k) (batches product_ids)), inr ∅)).
Proof.
  split.
  - intros Hok.
    destruct (get_prices_completes r product_ids h Hok) as (pd & Hrun & Hkeeps & Hfrom).
    by exists pd.
  - intros k b e. apply get_prices_raises.
Qed.

Lemma batches_of_120 product_ids :
  length product_ids = 120%nat →
  length <$> batches product_ids = [50; 50; 20]%nat.
Proof.
  intros Hlen.
  assert (Hne : ∀ l : list Z, (0 < length l)%nat → l ≠ []).
  { intros l Hl ->. simpl in Hl. lia. }
  rewrite batches_unfold by (apply Hne; lia).
  rewrite batches_unfold by (apply Hne; rewrite length_drop; lia).
  rewrite batches_unfold by (apply Hne; rewrite !length_drop; lia).
  assert (Hend : drop 50 (drop 50 (drop 50 product_ids)) = []).
  { apply nil_length_inv. rewrite !length_drop. lia. }
  rewrite Hend, batches_nil. cbn [fmap list_fmap].
  rewrite !length_take, !length_drop. repeat f_equal; lia.
Qed.

(** C9, as amended. The batches are consecutive slices of the identifiers,
    each of 1 to 50 identifiers and each but the last of 50: three
    batches of 50, 50 and 20 for 120 identifiers.  When no batch raises,
    the call issues every batch, in order, and the keys of the mapping
    returned are the identifiers of the records of the batches answered
    with records. *)
Theorem batches_of_fifty product_ids :
  concat (batches product_ids) = product_ids ∧
  Forall (λ b, (1 ≤ length b ≤ 50)%nat) (batches product_ids) ∧
  (∀ k b, batches product_ids !! k = Some b →
          (S k < length (batches product_ids))%nat → length b = 50%nat) ∧
  (length product_ids = 120%nat →
     length <$> batches product_ids = [50; 50; 20]%nat) ∧
  ∀ r h,
    no_batch_raises r h product_ids →
    ∃ prices_data,
      _get_products_prices_v5 r product_ids h
        = (h ++ (InfoPrices <$> batches product_ids), inr prices_data) ∧
      ∀ key,
        is_Some (prices_data !! key) ↔
        ∃ k b price_items price_item,
          batches product_ids !! k = Some b ∧
          batch_answer r h product_ids k b = Recorded price_items ∧
          price_item ∈ price_items ∧ pr_product_id price_item = key.
Proof.
  split_and!.
  - apply batches_concat.
  - apply batches_sizes.
  - apply batches_full.
  - apply batches_of_120.
  - intros r h Hok.
    destruct (get_prices_completes r product_ids h Hok) as (pd & Hrun & Hkeeps & Hfrom).
    exists pd. split; [done|]. intros key. split.
    + intros [v Hv]. destruct (Hfrom key v Hv) as (k & b & items & ? & ? & ? & ?).
      by exists k, b, items, v.
    + intros (k & b & items & it & Hb & Hans & Hit & <-). by eapply Hkeeps.
Qed.

End BatchedLookup.

(** ** The properties on the sample runs *)

Section SampleRuns.
Import Py IO.

Local Abbreviation load := (load_real_products Sample.float_of_str).
Local Abbreviation refresh := (refresh_products_callback Sample.float_of_str).
Local Abbreviation resolved_price := (_extract_price_from_v5 Sample.float_of_str).

Example clean_description_sample :
  _clean_description (lit "<p>Soy wax</p><br/>Hand made<br >  <b>now</b>  ")
  = lit "Soy wax" ++ [Re.NL] ++ lit "Hand made" ++ [Re.NL] ++ lit "  now".
Proof. vm_compute. reflexivity. Qed.

Example clean_description_blank_lines :
  _clean_description (lit "a<br><br>  <br/>b<>c<i")
  = lit "a" ++ [Re.NL] ++ lit "b<>c<i".
Proof. vm_compute. reflexivity. Qed.

Example shop_refresh :
  load Sample.keys Sample.shop ∅ []
  = ([ProductList 20; InfoPrices [101; 102; 103];
      InfoDescription 101; InfoDescription 102; InfoDescription 103],
     inr (number_products
            [{| product_id := 101; offer_id := Some (lit "SPA-CANDLE");
                name := lit "Candle"; price := 1500;
                description := lit "Soy wax" ++ [Re.NL] ++ lit "Hand made";
                quantity := 10 |};
             {| product_id := 103; offer_id := None;
                name := placeholder_name 103; price := 990;
                description := placeholder_name 103; quantity := 10 |}]
            ∅ 1)).
Proof. vm_compute. reflexivity. Qed.

Lemma cached_prices_positive_witness :
  ∃ h' products_cache' p,
    load Sample.keys Sample.shop ∅ [] = (h', inr products_cache') ∧
    products_cache' !! 1 = Some p ∧ 0 < price p.
Proof.
  destruct (cached_prices_positive Sample.float_of_str Sample.keys Sample.shop ∅ [])
    as (h' & cache' & Hload & Hpos & _).
  assert (Hp : ∃ p, cache' !! 1 = Some p).
  { rewrite shop_refresh in Hload. injection Hload as _ <-.
    eexists. vm_compute. reflexivity. }
  destruct Hp as [p Hp]. exists h', cache', p.
  split; [exact Hload|]. split; [exact Hp|]. exact (Hpos 1 p Hp).
Defined.

(** Half a unit as main price truncates to 0: the old price is taken. *)
Example half_unit_falls_through :
  resolved_price
    {| pr_product_id := Some 1;
       pr_price := PriceDict {| pi_price := VFloat (Sample.float 1 (-1));
                                pi_old_price := VInt 100 |} |} = 100.
Proof. vm_compute. reflexivity. Qed.

(** C2 fails as stated: a main price of half a unit is present and
    positive, and yet the old price is the resolved price. *)
Lemma positive_main_price_not_taken :
  pr_price Sample.half_unit_price
    = PriceDict {| pi_price := VFloat (Sample.float 1 (-1));
                   pi_old_price := VInt 100 |} ∧
  decimal Sample.float_of_str (VFloat (Sample.float 1 (-1)))
    = Some (Sample.float 1 (-1)) ∧
  SFltb (S754_zero false) (Sample.float 1 (-1)) = true ∧
  ¬ absent_or_non_positive Sample.float_of_str (VFloat (Sample.float 1 (-1))) ∧
  resolved_price Sample.half_unit_price = 100.
Proof.
  split; [reflexivity|]. split; [vm_compute; reflexivity|].
  split; [vm_compute; reflexivity|]. split; [|vm_compute; reflexivity].
  intros [Habsent|(f & Hdec & Hle)]; [discriminate Habsent|].
  vm_compute in Hdec. injection Hdec as <-. vm_compute in Hle. discriminate Hle.
Qed.

(** A main price that [float] rejects resolves to 0, whatever the old
    price. *)
Example unreadable_main_price :
  resolved_price
    {| pr_product_id := Some 1;
       pr_price := PriceDict {| pi_price := VStr (lit "n/a");
                                pi_old_price := VInt 100 |} |} = 0.
Proof. vm_compute. reflexivity. Qed.

Lemma price_resolution_order_witness :
  resolved_price Sample.towel_price = 990 ∧
  resolved_price Sample.candle_price = 1500 ∧
  resolved_price Sample.soap_price = 0 ∧
  resolved_price Sample.half_unit_price = 100.
Proof.
  split; [|split; [|split]].
  - destruct (price_resolution_order Sample.float_of_str Sample.towel_price)
      as (_ & _ & _ & Horder).
    destruct (Horder _ eq_refl) as (_ & _ & _ & _ & Hfallback).
    destruct Hfallback as [Hold _]; [by left|].
    apply Hold; [|lia].
    exists (Sample.float 1981 (-1)). split; vm_compute; reflexivity.
  - destruct (price_resolution_order Sample.float_of_str Sample.candle_price)
      as (_ & _ & _ & Horder).
    destruct (Horder _ eq_refl) as (_ & Hmain & _).
    apply Hmain; [reflexivity|]. split; [lia|]. by vm_compute.
  - destruct (price_resolution_order Sample.float_of_str Sample.soap_price)
      as (_ & _ & _ & Horder).
    destruct (Horder _ eq_refl) as (_ & _ & _ & _ & Hfallback).
    destruct Hfallback as (_ & _ & _ & Hzero).
    + right. left. right. simpl. split; [lia|]. vm_compute. eauto.
    + apply Hzero. by left.
  - destruct (price_resolution_order Sample.float_of_str Sample.half_unit_price)
      as (_ & _ & _ & Horder).
    destruct (Horder _ eq_refl) as (_ & _ & _ & _ & Hfallback).
    destruct Hfallback as [Hold _].
    + right. right. exists 0. split; [|lia].
      exists (Sample.float 1 (-1)). split; vm_compute; reflexivity.
    + apply Hold; [|lia].
      apply whole_units_small_int. split; [lia|]. by vm_compute.
Defined.

(** C4 fails as stated: a product that has a name of 201 characters and no
    description text gets that name as description. *)
Lemma long_name_exceeds_200 :
  ∃ h' products_cache' p,
    load Sample.keys Sample.long_name_shop ∅ [] = (h', inr products_cache') ∧
    products_cache' !! 1 = Some p ∧
    length (description p) = 201%nat ∧
    ¬ (length (description p) ≤ 200)%nat.
Proof.
  exists [ProductList 20; InfoPrices [7]; InfoDescription 7],
    (<[1 := {| product_id := 7; offer_id := Some (lit "SPA-7");
               name := Sample.long_name; price := 100;
               description := Sample.long_name; quantity := 10 |}]> ∅),
    {| product_id := 7; offer_id := Some (lit "SPA-7");
       name := Sample.long_name; price := 100;
       description := Sample.long_name; quantity := 10 |}.
  split; [vm_compute; reflexivity|]. split; [vm_compute; reflexivity|].
  assert (Hlen : length Sample.long_name = 201%nat) by (vm_compute; reflexivity).
  split; [exact Hlen|]. cbn [description]. rewrite Hlen. lia.
Qed.

Lemma cached_description_witness :
  ∃ h' products_cache' p,
    load Sample.keys Sample.shop ∅ [] = (h', inr products_cache') ∧
    products_cache' !! 1 = Some p ∧
    (description p = name p ∨ (length (description p) ≤ 200)%nat).
Proof.
  destruct (cached_description Sample.float_of_str Sample.keys Sample.shop ∅ [])
    as (h' & cache' & Hload & Hdescr).
  assert (Hp : ∃ p, cache' !! 1 = Some p).
  { rewrite shop_refresh in Hload. injection Hload as _ <-.
    eexists. vm_compute. reflexivity. }
  destruct Hp as [p Hp]. exists h', cache', p.
  split; [exact Hload|]. split; [exact Hp|].
  destruct (Hdescr 1 p Hp) as (items & pd & dd & _ & _ & Hnone & Hsome).
  destruct (source_text dd (product_id p)) as [|c text].
  - left. by apply Hnone.
  - right. by apply Hsome.
Defined.

Lemma failed_listing_empties_cache_witness :
  ∃ h',
    load Sample.keys Sample.unreachable Sample.two_products [] = (h', inr ∅) ∧
    refresh Sample.keys Sample.unreachable Sample.two_products []
      = (h', inr (size Sample.two_products, 0%nat, ∅)).
Proof.
  apply (failed_listing_empties_cache Sample.float_of_str Sample.keys
           Sample.unreachable Sample.two_products []).
  left. reflexivity.
Defined.

Lemma navigation_is_cyclic_witness :
  next_index Sample.two_products 2 = 1 ∧
  prev_index Sample.two_products 1 = 2 ∧
  Nat.iter 2 (next_index Sample.two_products) 2 = 2 ∧
  Nat.iter 2 (prev_index Sample.two_products) 2 = 2.
Proof.
  assert (Hlen : len Sample.two_products = 2) by (vm_compute; reflexivity).
  destruct (navigation_is_cyclic Sample.two_products 2) as (Hn & _ & Hnn & Hpp);
    [rewrite Hlen; lia..|].
  destruct (navigation_is_cyclic Sample.two_products 1) as (_ & Hp & _);
    [rewrite Hlen; lia..|].
  rewrite Hlen in Hn, Hp.
  split; [exact Hn|]. split; [exact Hp|]. split; [exact Hnn|exact Hpp].
Defined.

Example shop_reconciles :
  reconciles Sample.shop []
    [Sample.candle; Sample.soap; Sample.draft; Sample.towel]
    (record_prices ∅ [Sample.candle_price; Sample.soap_price; Sample.towel_price])
    (<[101 := {| stored_name := lit "Candle";
                 stored_description := VStr (lit "<p>Soy wax</p><br/>Hand made") |}]> ∅).
Proof.
  split; [reflexivity|]. split; [by vm_compute|].
  exists [ProductList 20; InfoPrices [101; 102; 103]],
    [ProductList 20; InfoPrices [101; 102; 103];
     InfoDescription 101; InfoDescription 102; InfoDescription 103].
  split; vm_compute; reflexivity.
Qed.

Lemma cache_positions_dense_witness :
  ∃ h' products_cache',
    load Sample.keys Sample.shop ∅ [] = (h', inr products_cache') ∧
    size products_cache' = 2%nat ∧
    product_id <$> products_cache' !! 1 = Some 101 ∧
    product_id <$> products_cache' !! 2 = Some 103 ∧
    products_cache' !! 3 = None.
Proof.
  destruct (cache_positions_dense Sample.float_of_str Sample.keys Sample.shop ∅ [])
    as (h' & cache' & products & Hload & Hsize & _ & Hpos & _ & Hbuilt).
  destruct (Hbuilt eq_refl _ _ _ shop_reconciles) as [Hproducts _].
  exists h', cache'. split; [exact Hload|].
  pose proof (Hpos 0%nat) as H1. pose proof (Hpos 1%nat) as H2.
  pose proof (Hpos 2%nat) as H3.
  change (Z.of_nat 0 + 1) with 1 in H1. change (Z.of_nat 1 + 1) with 2 in H2.
  change (Z.of_nat 2 + 1) with 3 in H3.
  rewrite Hsize, H1, H2, H3, Hproducts.
  split; [|split; [|split]]; vm_compute; reflexivity.
Defined.

Lemma refresh_count_bounds_witness :
  ∃ h' products_count_after products_cache',
    refresh Sample.keys Sample.shop Sample.two_products []
      = (h', inr (size Sample.two_products, products_count_after, products_cache')) ∧
    (1 ≤ products_count_after ≤ 4)%nat.
Proof.
  destruct (refresh_count_bounds Sample.float_of_str Sample.keys Sample.shop
              Sample.two_products [] _ _ _ eq_refl shop_reconciles)
    as (h' & after & cache' & Hrun & Hmost & Hleast).
  exists h', after, cache'. split; [exact Hrun|]. split; [|exact Hmost].
  apply (Hleast Sample.towel 103).
  - do 3 apply list_elem_of_further. apply list_elem_of_here.
  - reflexivity.
  - lia.
  - reflexivity.
  - vm_compute. reflexivity.
Defined.

(** C8 fails as stated: the one item of a listing has a price record that
    resolves to 3 and the identifier 0, which the loop takes for a missing
    one, and the refresh leaves no product.  So does the refresh of a
    listing whose one item is priced 1500 and has a number as
    description, on which the sanitizer raises. *)
Lemma priced_item_left_out :
  (reconciles Sample.zero_id_shop [] [Sample.zero_item]
     (record_prices ∅ [Sample.zero_price]) ∅ ∧
   li_product_id Sample.zero_item = Some 0 ∧
   resolved_price (price_record (record_prices ∅ [Sample.zero_price]) 0) = 3 ∧
   refresh Sample.keys Sample.zero_id_shop ∅ []
     = ([ProductList 20; InfoPrices [0]; InfoDescription 0],
        inr (0%nat, 0%nat, ∅))) ∧
  (reconciles Sample.number_as_description [] [Sample.numbered_item]
     (record_prices ∅ [Sample.numbered_price]) (<[7 := Sample.numbered_info]> ∅) ∧
   li_product_id Sample.numbered_item = Some 7 ∧
   resolved_price (price_record (record_prices ∅ [Sample.numbered_price]) 7) = 1500 ∧
   refresh Sample.keys Sample.number_as_description ∅ []
     = ([ProductList 20; InfoPrices [7]; InfoDescription 7],
        inr (0%nat, 0%nat, ∅))).
Proof.
  split.
  - split_and!; [|reflexivity|vm_compute; reflexivity|vm_compute; reflexivity].
    split; [reflexivity|]. split; [by vm_compute|].
    exists [ProductList 20; InfoPrices [0]],
      [ProductList 20; InfoPrices [0]; InfoDescription 0].
    split; vm_compute; reflexivity.
  - split_and!; [|reflexivity|vm_compute; reflexivity|vm_compute; reflexivity].
    split; [reflexivity|]. split; [by vm_compute|].
    exists [ProductList 20; InfoPrices [7]],
      [ProductList 20; InfoPrices [7]; InfoDescription 7].
    split; vm_compute; reflexivity.
Qed.

Lemma unidentified_items_excluded_witness :
  load Sample.keys Sample.shop ∅ []
  = load Sample.keys
      (with_listing_answer Sample.shop
         (listed [Sample.candle; Sample.soap; Sample.towel])) ∅ [].
Proof.
  destruct (unidentified_items_excluded Sample.float_of_str Sample.keys Sample.shop
              ∅ [] [Sample.candle; Sample.soap; Sample.draft; Sample.towel] eq_refl)
    as [Hsame _].
  exact Hsame.
Defined.

(** The batches of 120 identifiers. *)
Example batches_of_first_120 :
  batches (Sample.first_ids 120)
  = [Z.of_nat <$> seq 1 50; Z.of_nat <$> seq 51 50; Z.of_nat <$> seq 101 20].
Proof. vm_compute. reflexivity. Qed.

Example second_batch_rejected_does_not_raise :
  no_batch_raises Sample.second_batch_rejected [] (Sample.first_ids 120).
Proof.
  intros k b e Hb. unfold batch_answer. rewrite batches_of_first_120 in *.
  destruct k as [|[|[|k]]]; simpl in Hb; [..|done];
    injection Hb as <-; vm_compute; discriminate.
Qed.

Lemma rejected_batches_are_skipped_witness :
  (∃ prices_data,
     _get_products_prices_v5 Sample.second_batch_rejected (Sample.first_ids 120) []
       = ([] ++ (InfoPrices <$> batches (Sample.first_ids 120)), inr prices_data) ∧
     keeps_recorded_batches Sample.second_batch_rejected [] (Sample.first_ids 120)
       prices_data ∧
     only_recorded_batches Sample.second_batch_rejected [] (Sample.first_ids 120)
       prices_data) ∧
  _get_products_prices_v5 Sample.second_batch_times_out (Sample.first_ids 120) []
    = ([] ++ (InfoPrices <$> take 2 (batches (Sample.first_ids 120))), inr ∅).
Proof.
  split.
  - apply (rejected_batches_are_skipped Sample.second_batch_rejected []
             (Sample.first_ids 120)).
    exact second_batch_rejected_does_not_raise.
  - apply (proj2 (rejected_batches_are_skipped Sample.second_batch_times_out []
                    (Sample.first_ids 120)) 1%nat (Z.of_nat <$> seq 51 50) Timeout).
    + vm_compute. reflexivity.
    + vm_compute. reflexivity.
    + intros j b' e' Hj Hb'. unfold batch_answer.
      destruct j as [|j]; [|lia]. vm_compute. discriminate.
Defined.

(** C3 fails as stated: the first batch is answered with a record, the
    second times out, and the mapping returned has no record. *)
Lemma timeout_loses_recorded_batch :
  ¬ keeps_what_succeeded Sample.second_batch_times_out [] (Sample.first_ids 120).
Proof.
  intros (h' & prices_data & Hrun & Hkeeps).
  assert (Hempty : prices_data = ∅).
  { vm_compute in Hrun. by injection Hrun as _ <-. }
  subst prices_data.
  destruct (Hkeeps 0%nat (Z.of_nat <$> seq 1 50) [Sample.first_price] Sample.first_price)
    as [v Hv].
  - vm_compute. reflexivity.
  - vm_compute. reflexivity.
  - apply list_elem_of_here.
  - by rewrite lookup_empty in Hv.
Qed.

Lemma batches_of_fifty_witness :
  ∃ prices_data,
    _get_products_prices_v5 Sample.second_batch_rejected (Sample.first_ids 120) []
      = ([] ++ (InfoPrices <$> batches (Sample.first_ids 120)), inr prices_data) ∧
    is_Some (prices_data !! Some 1) ∧ is_Some (prices_data !! Some 101) ∧
    length <$> batches (Sample.first_ids 120) = [50; 50; 20]%nat.
Proof.
  destruct (batches_of_fifty (Sample.first_ids 120)) as (_ & _ & _ & Hsizes & Hrun).
  destruct (Hrun Sample.second_batch_rejected [] second_batch_rejected_does_not_raise)
    as (prices_data & Hcall & Hkeys).
  exists prices_data. split; [exact Hcall|]. split; [|split].
  - apply Hkeys.
    exists 0%nat, (Z.of_nat <$> seq 1 50), [Sample.price_of 1], (Sample.price_of 1).
    split; [vm_compute; reflexivity|]. split; [vm_compute; reflexivity|].
    split; [apply list_elem_of_here|reflexivity].
  - apply Hkeys.
    exists 2%nat, (Z.of_nat <$> seq 101 20), [Sample.price_of 101], (Sample.price_of 101).
    split; [vm_compute; reflexivity|]. split; [vm_compute; reflexivity|].
    split; [apply list_elem_of_here|reflexivity].
  - apply Hsizes. vm_compute. reflexivity.
Defined.

(** C9 fails as stated: on 120 identifiers a call whose first batch times
    out issues that batch only. *)
Lemma timeout_stops_the_batches :
  _get_products_prices_v5 Sample.unreachable (Sample.first_ids 120) []
    = ([InfoPrices (Z.of_nat <$> seq 1 50)], inr ∅) ∧
  ¬ issues_every_batch Sample.unreachable [] (Sample.first_ids 120).
Proof.
  assert (Hrun : _get_products_prices_v5 Sample.unreachable (Sample.first_ids 120) []
                 = ([InfoPrices (Z.of_nat <$> seq 1 50)], inr ∅))
    by (vm_compute; reflexivity).
  split; [exact Hrun|].
  intros [res Hall]. rewrite Hrun, batches_of_first_120 in Hall.
  simpl in Hall. discriminate.
Qed.

End SampleRuns.

(** ** The sanitizer *)

Section SanitizerFacts.
Import Py.

(** A substitution by at most one character never lengthens a text. *)
Lemma sub_from_length m repl s : ∀ skip,
  (length repl ≤ 1)%nat → (length (Re.sub_from m repl skip s) ≤ length s)%nat.
Proof.
  induction s as [|c rest IH]; intros skip Hrepl; [done|].
  cbn [Re.sub_from]. destruct skip as [|k].
  - destruct (m (c :: rest)) as [[|k]|].
    + cbn [length]. specialize (IH 0%nat Hrepl). lia.
    + rewrite length_app. specialize (IH k Hrepl). cbn [length]. lia.
    + cbn [length]. specialize (IH 0%nat Hrepl). lia.
  - specialize (IH k Hrepl). cbn [length]. lia.
Qed.

Lemma lstrip_split s :
  ∃ w, s = w ++ lstrip s ∧ Forall (λ c, isspace c = true) w.
Proof.
  induction s as [|c rest (w & Hw & Hspace)]; [by exists []|].
  cbn [lstrip]. destruct (isspace c) eqn:Hc.
  - exists (c :: w). split; [simpl; by f_equal|by constructor].
  - by exists [].
Qed.

Lemma rstrip_split s :
  ∃ w, s = rstrip s ++ w ∧ Forall (λ c, isspace c = true) w.
Proof.
  unfold rstrip. destruct (lstrip_split (reverse s)) as (w & Hw & Hspace).
  exists (reverse w). split.
  - rewrite <- reverse_app, <- Hw. by rewrite reverse_involutive.
  - by apply Forall_reverse.
Qed.

Lemma lstrip_head s c : head (lstrip s) = Some c → isspace c = false.
Proof.
  induction s as [|x rest IH]; [done|]. cbn [lstrip].
  destruct (isspace x) eqn:Hx; [done|]. by intros [= <-].
Qed.

Lemma rstrip_last s c : last (rstrip s) = Some c → isspace c = false.
Proof.
  unfold rstrip. rewrite last_reverse. apply lstrip_head.
Qed.

Lemma strip_length s : (length (strip s) ≤ length s)%nat.
Proof.
  unfold strip.
  destruct (lstrip_split s) as (w1 & H1 & _).
  destruct (rstrip_split (lstrip s)) as (w2 & H2 & _).
  rewrite H1 at 2. rewrite H2 at 2. rewrite !length_app. lia.
Qed.

(** The sanitized text is never longer than the text. *)
Lemma clean_description_length description :
  (length (_clean_description description) ≤ length description)%nat.
Proof.
  unfold _clean_description. destruct description as [|c rest]; [done|].
  set (d := c :: rest).
  pose proof (sub_from_length Re.br_tag [Re.NL] d 0%nat ltac:(simpl; lia)) as H1.
  pose proof (sub_from_length Re.any_tag [] (Re.sub Re.br_tag [Re.NL] d) 0%nat
                ltac:(simpl; lia)) as H2.
  pose proof (sub_from_length Re.blank_lines [Re.NL]
                (Re.sub Re.any_tag [] (Re.sub Re.br_tag [Re.NL] d)) 0%nat
                ltac:(simpl; lia)) as H3.
  pose proof (strip_length
                (Re.sub Re.blank_lines [Re.NL]
                   (Re.sub Re.any_tag [] (Re.sub Re.br_tag [Re.NL] d)))) as H4.
  unfold Re.sub in *. lia.
Qed.

(** X1. The sanitized text neither starts nor ends with white space. *)
Theorem clean_description_is_stripped description c :
  head (_clean_description description) = Some c ∨
  last (_clean_description description) = Some c →
  isspace c = false.
Proof.
  unfold _clean_description. destruct description as [|c0 rest]; [by intros [|]|].
  set (t := Re.sub Re.blank_lines _ _). unfold strip.
  intros [Hhead|Hlast]; [|by eapply rstrip_last].
  destruct (rstrip_split (lstrip t)) as (w & Hw & _).
  apply (lstrip_head t). rewrite Hw.
  by destruct (rstrip (lstrip t)).
Qed.

(** Where a matcher cannot match, the substitution changes nothing. *)
Lemma sub_absent m repl x s :
  starts_with m x → x ∉ s → Re.sub m repl s = s.
Proof.
  intros Hm. unfold Re.sub. induction s as [|c rest IH]; [done|].
  intros Hx. apply not_elem_of_cons in Hx as [Hc Hrest].
  cbn [Re.sub_from]. destruct (m (c :: rest)) as [k|] eqn:Hk.
  - by destruct Hc; symmetry; eapply Hm.
  - by rewrite IH.
Qed.

Lemma br_tag_starts : starts_with Re.br_tag Re.LT.
Proof.
  intros c t k. unfold Re.br_tag. destruct t as [|c2 [|c3 rest]]; try done.
  destruct (N.eqb_spec c Re.LT); [done|]. by rewrite !andb_false_l.
Qed.

Lemma any_tag_starts : starts_with Re.any_tag Re.LT.
Proof.
  intros c t k. unfold Re.any_tag. by destruct (N.eqb_spec c Re.LT).
Qed.

Lemma blank_lines_starts : starts_with Re.blank_lines Re.NL.
Proof.
  intros c t k. unfold Re.blank_lines. by destruct (N.eqb_spec c Re.NL).
Qed.

Lemma lstrip_id s :
  (∀ c, head s = Some c → isspace c = false) → lstrip s = s.
Proof.
  destruct s as [|c rest]; [done|]. intros Hc. cbn [lstrip].
  by rewrite (Hc c eq_refl).
Qed.

Lemma rstrip_id s :
  (∀ c, last s = Some c → isspace c = false) → rstrip s = s.
Proof.
  intros Hc. unfold rstrip. rewrite lstrip_id; [apply reverse_involutive|].
  intros c Hhead. apply Hc. by rewrite <- (reverse_involutive s), last_reverse.
Qed.

(** X2. A text without opening bracket and without newline, which neither
    starts nor ends with white space, is its own sanitized text. *)
Theorem clean_description_plain_text description :
  Re.LT ∉ description → Re.NL ∉ description →
  (∀ c, head description = Some c ∨ last description = Some c →
        isspace c = false) →
  _clean_description description = description.
Proof.
  intros Hlt Hnl Hends. unfold _clean_description.
  destruct description as [|c rest]; [done|].
  rewrite (sub_absent _ _ _ _ br_tag_starts Hlt).
  rewrite (sub_absent _ _ _ _ any_tag_starts Hlt).
  rewrite (sub_absent _ _ _ _ blank_lines_starts Hnl).
  unfold strip. rewrite lstrip_id by (intros; apply Hends; by left).
  apply rstrip_id. intros; apply Hends; by right.
Qed.

(** ** No tag is left *)

Lemma index_of_app_none x (a b : str) :
  Re.index_of x a = None → Re.index_of x b = None → Re.index_of x (a ++ b) = None.
Proof.
  induction a as [|c a IH]; [done|]. simpl.
  destruct (c =? x)%N; [done|].
  destruct (Re.index_of x a); [done|]. intros _ Hb. by rewrite IH.
Qed.

(** A character that occurs neither in the text nor in the replacement does
    not occur in the result of a substitution. *)
Lemma index_of_sub_none m repl x s : ∀ skip,
  Re.index_of x repl = None → Re.index_of x s = None →
  Re.index_of x (Re.sub_from m repl skip s) = None.
Proof.
  induction s as [|c rest IH]; intros skip Hrepl Hs; [done|].
  simpl in Hs. destruct (c =? x)%N eqn:Hc; [done|].
  assert (Hrest : Re.index_of x rest = None) by (by destruct (Re.index_of x rest)).
  cbn [Re.sub_from]. destruct skip as [|k]; [|by apply IH].
  destruct (m (c :: rest)) as [[|k]|].
  - simpl. by rewrite Hc, IH.
  - apply index_of_app_none; [done|by apply IH].
  - simpl. by rewrite Hc, IH.
Qed.

Lemma any_tag_none c t :
  Re.any_tag (c :: t) = None ↔
  c ≠ Re.LT ∨ Re.index_of Re.GT t = None ∨ Re.index_of Re.GT t = Some 0%nat.
Proof.
  unfold Re.any_tag. destruct (N.eqb_spec c Re.LT) as [->|Hc].
  - destruct (Re.index_of Re.GT t) as [[|j]|]; split; try done; eauto.
    intros [?|[?|?]]; done.
  - split; [by left|done].
Qed.

Lemma no_tag_prepend repl s :
  Re.index_of Re.LT repl = None → no_tag s → no_tag (repl ++ s).
Proof.
  induction repl as [|c repl IH]; [done|]. intros Hrepl Hs.
  simpl in Hrepl. destruct (N.eqb_spec c Re.LT) as [|Hc]; [done|].
  change ((c :: repl) ++ s) with (c :: (repl ++ s)). split.
  - apply any_tag_none. by left.
  - apply IH; [|done]. by destruct (Re.index_of Re.LT repl).
Qed.

(** Removing the tags leaves none. *)
Lemma no_tag_after_any_tag s : ∀ skip, no_tag (Re.sub_from Re.any_tag [] skip s).
Proof.
  induction s as [|c rest IH]; intros skip; [done|].
  cbn [Re.sub_from]. destruct skip as [|k]; [|apply IH].
  destruct (Re.any_tag (c :: rest)) as [[|k]|] eqn:Htag.
  - unfold Re.any_tag in Htag. destruct (c =? Re.LT)%N; [|done].
    by destruct (Re.index_of Re.GT rest) as [[|j]|].
  - apply IH.
  - split; [|apply IH]. apply any_tag_none.
    apply any_tag_none in Htag as [Hc|[Hnone|Hzero]]; [by left|..].
    + right. left. by apply index_of_sub_none.
    + right. right. destruct rest as [|c1 rest1]; [done|].
      simpl in Hzero. destruct (N.eqb_spec c1 Re.GT) as [->|]; cycle 1.
      { by destruct (Re.index_of Re.GT rest1). }
      cbn [Re.sub_from]. change (Re.any_tag (Re.GT :: rest1)) with (@None nat).
      done.
Qed.

(** A substitution that does not touch the closing brackets and brings no
    bracket creates no tag. *)
Lemma no_tag_sub m repl s : ∀ skip,
  (∀ t, m (Re.GT :: t) = None) →
  Re.index_of Re.LT repl = None → Re.index_of Re.GT repl = None →
  no_tag s → no_tag (Re.sub_from m repl skip s).
Proof.
  induction s as [|c rest IH]; intros skip Hm Hlt Hgt Hs; [done|].
  destruct Hs as [Htag Hrest].
  cbn [Re.sub_from]. destruct skip as [|k]; [|by apply IH].
  assert (Hkeep : no_tag (c :: Re.sub_from m repl 0 rest)).
  { split; [|by apply IH]. apply any_tag_none.
    apply any_tag_none in Htag as [Hc|[Hnone|Hzero]]; [by left|..].
    - right. left. by apply index_of_sub_none.
    - right. right. destruct rest as [|c1 rest1]; [done|].
      simpl in Hzero. destruct (N.eqb_spec c1 Re.GT) as [->|]; cycle 1.
      { by destruct (Re.index_of Re.GT rest1). }
      cbn [Re.sub_from]. rewrite Hm. done. }
  destruct (m (c :: rest)) as [[|k]|]; [done| |done].
  apply no_tag_prepend; [done|]. by apply IH.
Qed.

Lemma no_tag_suffix w s : no_tag (w ++ s) → no_tag s.
Proof. induction w as [|c w IH]; [done|]. intros [_ H]. by apply IH. Qed.

Lemma no_tag_prefix p w :
  Forall (λ c, isspace c = true) w → no_tag (p ++ w) → no_tag p.
Proof.
  intros Hw. induction p as [|c p IH]; [done|].
  intros [Htag Hrest]. split; [|by apply IH].
  apply any_tag_none. apply any_tag_none in Htag as [Hc|[Hnone|Hzero]]; [by left|..].
  - right. left. clear -Hnone. induction p as [|x p IH]; [done|].
    simpl in *. destruct (x =? Re.GT)%N; [done|].
    destruct (Re.index_of Re.GT (p ++ w)); [done|]. by rewrite IH.
  - right. destruct p as [|x p]; [by left|]. right.
    simpl in *. destruct (x =? Re.GT)%N; [done|].
    by destruct (Re.index_of Re.GT (p ++ w)).
Qed.

Lemma no_tag_strip s : no_tag s → no_tag (strip s).
Proof.
  intros Hs. unfold strip.
  destruct (lstrip_split s) as (w1 & H1 & _).
  destruct (rstrip_split (lstrip s)) as (w2 & H2 & Hspace).
  apply (no_tag_prefix _ w2 Hspace). rewrite <- H2.
  apply (no_tag_suffix w1). by rewrite <- H1.
Qed.

Lemma no_tag_drop s n : no_tag s → Re.any_tag (drop n s) = None.
Proof.
  revert n. induction s as [|c rest IH]; intros n Hs; [by destruct n|].
  destruct Hs as [Htag Hrest]. destruct n as [|n]; [done|]. by apply IH.
Qed.

(** X3. The sanitized text holds no tag: at no position of it does the
    pattern [<[^>]+>] match. *)
Theorem clean_description_leaves_no_tag description n :
  Re.any_tag (drop n (_clean_description description)) = None.
Proof.
  apply no_tag_drop. unfold _clean_description.
  destruct description as [|c rest]; [done|].
  apply no_tag_strip. unfold Re.sub at 1.
  apply no_tag_sub; [| done | done |].
  - intros t. unfold Re.blank_lines. done.
  - apply no_tag_after_any_tag.
Qed.

End SanitizerFacts.

(** ** The description lookup, request by request *)

Section DescriptionRequests.
Import Py IO.
Variable r : remote.

Local Abbreviation lookup_at h ids k id :=
  (lookup_outcome_of (info_description r (h ++ (InfoDescription <$> take k ids)) id)).

(** One turn of the loop, by the outcome of its request. *)
Lemma description_turn_step product_id descriptions_data h :
  description_turn r product_id descriptions_data h =
  (h ++ [InfoDescription product_id],
   match lookup_outcome_of (info_description r h product_id) with
   | Described res => inr (<[product_id := stored res]> descriptions_data)
   | Skipped => inr descriptions_data
   | LookupFailed e => inl e
   end).
Proof.
  unfold description_turn, bind, post_description, lookup_outcome_of, lift, ret.
  destruct (info_description r h product_id) as [e|resp]; [done|].
  destruct (status_code resp =? 200); [|done].
  by destruct (json resp) as [e|[res|]].
Qed.

Lemma lookup_at_0 h id rest :
  lookup_at h (id :: rest) 0%nat id = lookup_outcome_of (info_description r h id).
Proof. simpl. by rewrite app_nil_r. Qed.

Lemma lookup_at_S h id rest k id' :
  lookup_at h (id :: rest) (S k) id' = lookup_at (h ++ [InfoDescription id]) rest k id'.
Proof. simpl. by rewrite <- app_assoc. Qed.

(** The loop when no request raises. *)
Lemma descriptions_loop_completes ids : ∀ descriptions_data h,
  (∀ k id e, ids !! k = Some id → lookup_at h ids k id ≠ LookupFailed e) →
  ∃ found,
    for_each ids (description_turn r) descriptions_data h
      = (h ++ (InfoDescription <$> ids), inr found) ∧
    (∀ id, is_Some (descriptions_data !! id) → is_Some (found !! id)) ∧
    (∀ k id res,
       ids !! k = Some id → lookup_at h ids k id = Described res →
       is_Some (found !! id)) ∧
    (∀ id info, found !! id = Some info →
       descriptions_data !! id = Some info ∨
       ∃ k res,
         ids !! k = Some id ∧ lookup_at h ids k id = Described res ∧
         info = stored res).
Proof.
  induction ids as [|id0 rest IH]; intros descriptions_data h Hok.
  - exists descriptions_data. simpl. rewrite app_nil_r.
    split_and!; [done|done|by intros [|?] ? ? ?|by left].
  - pose proof (Hok 0%nat id0) as H0. rewrite lookup_at_0 in H0.
    cbn [for_each]. unfold bind. rewrite description_turn_step.
    set (next := match lookup_outcome_of (info_description r h id0) with
                 | Described res => <[id0 := stored res]> descriptions_data
                 | _ => descriptions_data
                 end).
    assert (Hstep : match lookup_outcome_of (info_description r h id0) with
                    | Described res => inr (<[id0 := stored res]> descriptions_data)
                    | Skipped => inr descriptions_data
                    | LookupFailed e => inl e
                    end = (inr next : result _)).
    { subst next. destruct (lookup_outcome_of (info_description r h id0)) as [res| |e];
        [done|done|]. by destruct (H0 e). }
    rewrite Hstep.
    destruct (IH next (h ++ [InfoDescription id0]))
      as (found & Hrun & Hkeep & Hnew & Hold).
    { intros k id e Hid. rewrite <- lookup_at_S. by apply (Hok (S k)). }
    exists found. rewrite Hrun. simpl. rewrite <- app_assoc. simpl.
    assert (Hnext : ∀ id, is_Some (descriptions_data !! id) → is_Some (next !! id)).
    { subst next. destruct (lookup_outcome_of (info_description r h id0)); [|done..].
      intros id Hid. destruct (decide (id0 = id)) as [<-|Hne].
      - rewrite lookup_insert_eq. eauto.
      - by rewrite lookup_insert_ne. }
    split_and!; [done|by auto| |].
    + intros [|k] id res Hid Hans.
      * simpl in Hid. simplify_eq. rewrite lookup_at_0 in Hans.
        apply Hkeep. subst next. rewrite Hans. rewrite lookup_insert_eq. eauto.
      * rewrite lookup_at_S in Hans. by eapply Hnew.
    + intros id info Hinfo.
      destruct (Hold id info Hinfo) as [Hin|(k & res & ? & Hans & ?)].
      * subst next.
        destruct (lookup_outcome_of (info_description r h id0)) as [res| |e] eqn:Hout;
          [|by left..].
        destruct (decide (id0 = id)) as [<-|Hne].
        -- rewrite lookup_insert_eq in Hin. simplify_eq.
           right. exists 0%nat, res. by rewrite lookup_at_0.
        -- rewrite lookup_insert_ne in Hin by done. by left.
      * right. exists (S k), res. by rewrite lookup_at_S.
Qed.

(** The loop when request [k] is the first to raise. *)
Lemma descriptions_loop_raises ids : ∀ descriptions_data h k id e,
  ids !! k = Some id → lookup_at h ids k id = LookupFailed e →
  (∀ j id' e', (j < k)%nat → ids !! j = Some id' →
               lookup_at h ids j id' ≠ LookupFailed e') →
  for_each ids (description_turn r) descriptions_data h
    = (h ++ (InfoDescription <$> take (S k) ids), inl e).
Proof.
  induction ids as [|id0 rest IH]; intros descriptions_data h k id e Hid Hfail Hbefore;
    [done|].
  cbn [for_each]. unfold bind. rewrite description_turn_step.
  destruct k as [|k].
  - simpl in Hid. simplify_eq. rewrite lookup_at_0 in Hfail. rewrite Hfail.
    simpl. by rewrite ?take_0.
  - pose proof (Hbefore 0%nat id0) as H0. rewrite lookup_at_0 in H0.
    rewrite lookup_at_S in Hfail.
    assert (Hrest : ∀ j id' e', (j < k)%nat → rest !! j = Some id' →
              lookup_at (h ++ [InfoDescription id0]) rest j id' ≠ LookupFailed e').
    { intros j id' e' Hj Hid'. rewrite <- lookup_at_S.
      apply (Hbefore (S j)); [lia|done]. }
    destruct (lookup_outcome_of (info_description r h id0)) as [res| |e0].
    + rewrite (IH _ _ k id e Hid Hfail Hrest). simpl. by rewrite <- app_assoc.
    + rewrite (IH _ _ k id e Hid Hfail Hrest). simpl. by rewrite <- app_assoc.
    + by destruct (H0 e0 ltac:(lia) eq_refl).
Qed.

(** X5. When no description request raises, [_get_products_descriptions_v1]
    issues one request per identifier, in order; a request answered with a
    status other than 200 or with an empty result stores nothing and the
    others are kept: an identifier has an entry exactly when one of its
    requests was answered with a result, and the entry holds the name and
    the description of such a result, empty where the result lacks them. *)
Theorem descriptions_skip_failed_lookups h product_ids :
  (∀ k id e, product_ids !! k = Some id →
             lookup_answer r h product_ids k id ≠ LookupFailed e) →
  ∃ descriptions_data,
    _get_products_descriptions_v1 r product_ids h
      = (h ++ (InfoDescription <$> product_ids), inr descriptions_data) ∧
    (∀ id, is_Some (descriptions_data !! id) ↔
           ∃ k res, product_ids !! k = Some id ∧
                    lookup_answer r h product_ids k id = Described res) ∧
    (∀ id info, descriptions_data !! id = Some info →
       ∃ k res, product_ids !! k = Some id ∧
                lookup_answer r h product_ids k id = Described res ∧
                info = stored res).
Proof.
  intros Hok.
  destruct (descriptions_loop_completes product_ids ∅ h Hok)
    as (found & Hrun & _ & Hnew & Hold).
  assert (Hfrom : ∀ id info, found !! id = Some info →
            ∃ k res, product_ids !! k = Some id ∧
                     lookup_answer r h product_ids k id = Described res ∧
                     info = stored res).
  { intros id info Hinfo. destruct (Hold id info Hinfo) as [Hempty|?]; [|done].
    by rewrite lookup_empty in Hempty. }
  exists found. split_and!.
  - unfold _get_products_descriptions_v1. destruct product_ids as [|x l].
    + simpl in Hrun. by simplify_eq.
    + unfold try_except. by rewrite Hrun.
  - intros id. split.
    + intros [info Hinfo]. destruct (Hfrom id info Hinfo) as (k & res & ? & ? & _).
      by exists k, res.
    + intros (k & res & Hid & Hans). by eapply Hnew.
  - exact Hfrom.
Qed.

(** X6. A description request that raises ends the lookup: the requests
    after it are not issued and the mapping returned is empty, without the
    descriptions found before it. *)
Theorem descriptions_lost_on_exception h product_ids k id e :
  product_ids !! k = Some id →
  lookup_answer r h product_ids k id = LookupFailed e →
  (∀ j id' e', (j < k)%nat → product_ids !! j = Some id' →
               lookup_answer r h product_ids j id' ≠ LookupFailed e') →
  _get_products_descriptions_v1 r product_ids h
    = (h ++ (InfoDescription <$> take (S k) product_ids), inr ∅).
Proof.
  intros Hid Hfail Hbefore.
  unfold _get_products_descriptions_v1. destruct product_ids as [|x l]; [done|].
  unfold try_except.
  by rewrite (descriptions_loop_raises _ _ _ k id e Hid Hfail Hbefore).
Qed.

End DescriptionRequests.

(** ** Links, names and requests of a refresh *)

Section LinkFacts.
Import Py.

(** X7. [create_product_link] gives the address of the marketplace itself
    exactly for a product without offer code (absent or empty), and the
    search address followed by the offer code, as it is, otherwise: two
    products with offer codes have the same link only when they have the
    same offer code. *)
Theorem product_link_identifies_offer (p q : product) :
  (create_product_link (Some p) = lit "https://www.ozon.ru" ↔
   offer_id p = None ∨ offer_id p = Some []) ∧
  (∀ a, offer_id p = Some a → a ≠ [] →
        create_product_link (Some p)
        = lit "https://www.ozon.ru/search/?text=" ++ a) ∧
  (∀ a b, offer_id p = Some a → offer_id q = Some b → a ≠ [] → b ≠ [] →
          create_product_link (Some p) = create_product_link (Some q) → a = b).
Proof.
  unfold create_product_link. split_and!.
  - destruct (offer_id p) as [[|c s]|]; split; eauto.
    + intros H. vm_compute in H. discriminate.
    + intros [|]; done.
  - intros a ->. by destruct a.
  - intros a b -> -> Ha Hb. destruct a as [|c s]; [done|].
    destruct b as [|c' s']; [done|]. by intros ?%app_inv_head.
Qed.

End LinkFacts.

Section ReconciledNames.
Import Py IO.
Variable float_of_str : str → option spec_float.

Local Abbreviation build := (build_product float_of_str).
Local Abbreviation load := (load_real_products float_of_str).


Lemma placeholder_name_nonempty i : placeholder_name i ≠ [].
Proof. done. Qed.


(** X4. The sanitized text is never longer than the source text, so that a
    product of the cache whose source description has at most 200
    characters carries the sanitized text itself, never a truncation. *)
Theorem short_description_not_truncated :
  (∀ description,
     (length (_clean_description description) ≤ length description)%nat) ∧
  ∀ cfg r products_cache h h' products_cache' pos p,
    load cfg r products_cache h = (h', inr products_cache') →
    products_cache' !! pos = Some p →
    ∃ items prices_data descriptions_data,
      reconciles r h items prices_data descriptions_data ∧
      let text := source_text descriptions_data (product_id p) in
      (text ≠ [] → (length text ≤ 200)%nat →
       description p = _clean_description text).
Proof.
  split; [apply clean_description_length|].
  intros cfg r products_cache h h' products_cache' pos p Hload Hp.
  destruct (cached_product_origin _ _ _ _ _ _ _ _ _ Hload Hp)
    as (items & pd & dd & item & Hrec & _ & Hbuild).
  exists items, pd, dd. split; [done|].
  apply build_product_inv in Hbuild as (_ & _ & _ & _ & _ & Hdescr).
  cbv zeta. intros Htext Hlen. rewrite Hdescr.
  destruct (source_text dd (product_id p)) as [|c text]; [done|]. cbv zeta.
  pose proof (clean_description_length (c :: text)) as Hclean.
  destruct (Nat.ltb_spec 200 (length (_clean_description (c :: text)))); [lia|done].
Qed.

(** X9. A refresh issues no request when a key is missing.  Otherwise it
    issues the listing request first, then price requests for the first
    batches of the listed identifiers, in order, then description requests
    for the first of these identifiers, in order: with [n] identifiers, at
    most [1 + ceil(n / 50) + n] requests. *)
Theorem refresh_request_budget cfg r products_cache h :
  ∃ issued products_cache',
    load cfg r products_cache h = (h ++ issued, inr products_cache') ∧
    (keys_missing cfg = true → issued = []) ∧
    (keys_missing cfg = false →
       let ids := listed_identifiers r h in
       ∃ k j,
         issued = [ProductList 20]
                  ++ (InfoPrices <$> take k (batches ids))
                  ++ (InfoDescription <$> take j ids) ∧
         (length issued ≤ 1 + (length ids + 49) / 50 + length ids)%nat).
Proof.
  destruct (keys_missing cfg) eqn:Hkeys.
  { exists [], ∅. rewrite app_nil_r.
    split_and!; [by apply load_without_keys|done|done]. }
  assert (Hbound : ∀ ids k j,
            (length ([ProductList 20] ++ (InfoPrices <$> take k (batches ids))
                     ++ (InfoDescription <$> take j ids))
             ≤ 1 + (length ids + 49) / 50 + length ids)%nat).
  { intros ids k j. rewrite !length_app, !length_fmap, !length_take, batches_length.
    simpl. lia. }
  unfold listed_identifiers.
  destruct (listing (list_products r h 20)) as [items|] eqn:Hlist; cycle 1.
  { exists [ProductList 20], ∅. split_and!; [|done|].
    - apply load_nothing; [done|]. by rewrite Hlist.
    - intros _. exists 0%nat, 0%nat. split; [done|]. apply (Hbound [] 0%nat 0%nat). }
  destruct (decide (identifiers items = [])) as [Hids|Hids].
  { exists [ProductList 20], ∅. split_and!; [|done|].
    - apply load_nothing; [done|]. rewrite Hlist. by intros ? [= <-].
    - intros _. exists 0%nat, 0%nat. rewrite Hids. split; [done|].
      apply (Hbound [] 0%nat 0%nat). }
  destruct (get_prices_returns r (identifiers items) (h ++ [ProductList 20]))
    as (h1 & pd & Hprices).
  destruct (get_descriptions_returns r (identifiers items) h1)
    as (h2 & dd & Hdescs).
  destruct (get_prices_log _ _ _ _ _ Hprices) as [k ->].
  destruct (get_descriptions_log _ _ _ _ _ Hdescs) as [j ->].
  eexists _, _. split_and!.
  - rewrite (load_some float_of_str cfg r products_cache h items _ pd _ dd
               Hkeys Hlist Hids Hprices Hdescs).
    by rewrite <- !app_assoc.
  - done.
  - intros _. exists k, j. split; [done|]. apply Hbound.
Qed.

End ReconciledNames.

(** ** The handlers *)

(** A character does not occur in a literal. *)
Ltac absent :=
  let H := fresh in
  intros H; vm_compute in H;
  repeat (apply elem_of_cons in H as [H|H]; [discriminate H|]);
  by apply elem_of_nil in H.

Section HandlerFacts.
Import Py IO.

(** The numerals that [str] writes hold a sign and digits only. *)
Lemma string_of_uint_digits d :
  Forall (λ c, (48 ≤ c ≤ 57)%N) (lit (NilEmpty.string_of_uint d)).
Proof.
  induction d; [constructor|..]; (constructor; [by vm_compute|done]).
Qed.

Lemma str_of_int_no_underscore n : Telegram.UNDERSCORE ∉ str_of_int n.
Proof.
  unfold str_of_int, NilZero.string_of_int.
  assert (Hdigits : ∀ d, Telegram.UNDERSCORE ∉ lit (NilZero.string_of_uint d)).
  { intros d Hin. unfold NilZero.string_of_uint in Hin.
    assert (Hall : Forall (λ c, (48 ≤ c ≤ 57)%N)
                     (lit match d with
                          | Decimal.Nil => "0"%string
                          | _ => NilEmpty.string_of_uint d
                          end)).
    { destruct d; try apply string_of_uint_digits.
      constructor; [by vm_compute|constructor]. }
    rewrite Forall_forall in Hall. specialize (Hall _ Hin).
    unfold Telegram.UNDERSCORE in Hall. lia. }
  destruct (Z.to_int n) as [d|d]; [apply Hdigits|].
  intros Hin. change (lit (String "-" (NilZero.string_of_uint d)))
    with (45%N :: lit (NilZero.string_of_uint d)) in Hin.
  apply elem_of_cons in Hin as [Heq|Hin]; [done|by apply (Hdigits d)].
Qed.

(** Splitting a text in which the separator does not occur. *)
Lemma split_absent sep s : sep ∉ s → Telegram.split sep s = [s].
Proof.
  induction s as [|c rest IH]; [done|].
  intros [Hc Hrest]%not_elem_of_cons. cbn [Telegram.split].
  destruct (N.eqb_spec c sep) as [->|_]; [done|]. by rewrite IH.
Qed.

(** Splitting at the first separator. *)
Lemma split_first sep a b :
  sep ∉ a → Telegram.split sep (a ++ sep :: b) = a :: Telegram.split sep b.
Proof.
  induction a as [|c a IH]; intros Ha.
  - simpl. by rewrite N.eqb_refl.
  - apply not_elem_of_cons in Ha as [Hc Ha].
    change ((c :: a) ++ sep :: b) with (c :: (a ++ sep :: b)).
    cbn [Telegram.split]. destruct (N.eqb_spec c sep) as [->|_]; [done|].
    by rewrite IH.
Qed.

Variable float_of_str : str → option spec_float.
Variable int_of_str : str → option Z.

Local Abbreviation handle_callback := (Telegram.handle_callback float_of_str int_of_str).
Local Abbreviation handle_action := (Telegram.handle_product_action int_of_str).
Local Abbreviation load := (load_real_products float_of_str).

Lemma product_has_no_underscore : Telegram.UNDERSCORE ∉ lit "product".
Proof. absent. Qed.

(** The parts of the callback data of a product action. *)
Lemma product_data_parts action index_text :
  Telegram.UNDERSCORE ∉ action → Telegram.UNDERSCORE ∉ index_text →
  Telegram.split Telegram.UNDERSCORE
    (lit "product_" ++ action ++ Telegram.UNDERSCORE :: index_text)
  = [lit "product"; action; index_text].
Proof.
  intros Haction Hindex.
  change (lit "product_" ++ action ++ Telegram.UNDERSCORE :: index_text)
    with (lit "product" ++ Telegram.UNDERSCORE
            :: (action ++ Telegram.UNDERSCORE :: index_text)).
  rewrite (split_first _ _ _ product_has_no_underscore).
  rewrite (split_first _ _ _ Haction). by rewrite split_absent.
Qed.

(** Callback data that start with [product_] are none of the two
    commands, and are recognised as a product action. *)
Lemma product_data_dispatch rest :
  lit "product_" ++ rest ≠ lit "view_products" ∧
  lit "product_" ++ rest ≠ lit "refresh_products" ∧
  Telegram.startswith (lit "product_") (lit "product_" ++ rest) = true.
Proof.
  split_and!; [intros H; vm_compute in H; discriminate..|done].
Qed.

(** What [handle_callback] does on callback data that start with
    [product_]. *)
Lemma handle_callback_product cfg r products_cache rest h :
  handle_callback cfg r products_cache (lit "product_" ++ rest) h =
  (h, inr (products_cache,
           match handle_action products_cache (lit "product_" ++ rest) with
           | inl e => failed_with e
           | inr (Some shown) => answered_with shown
           | inr None => only_answered
           end)).
Proof.
  destruct (product_data_dispatch rest) as (Hview & Hrefresh & Hstarts).
  unfold Telegram.handle_callback.
  rewrite decide_False by done. rewrite decide_False by done. rewrite Hstarts.
  by destruct (handle_action products_cache (lit "product_" ++ rest)) as [e|[shown|]].
Qed.

(** X10. The buttons of the view of a product carry, in this order, the
    callback data of the previous product, of the next product and of the
    list.  With a reading of integers that reads back what [str] writes,
    [handle_callback] answers the first with the view of the position
    before the one shown, the second with the view of the position after
    it, and the third with the list: none of them raises. *)
Theorem detail_buttons_round_trip cfg r products_cache h q i :
  reads_back int_of_str →
  omap Telegram.callback_data (buttons (Telegram.product_message q i))
    = [lit "product_prev_" ++ str_of_int i; lit "product_next_" ++ str_of_int i;
       lit "view_products"] ∧
  handle_callback cfg r products_cache (lit "product_prev_" ++ str_of_int i) h
    = (h, inr (products_cache,
               answered_with (Telegram.show_product_detail products_cache
                                (prev_index products_cache i)))) ∧
  handle_callback cfg r products_cache (lit "product_next_" ++ str_of_int i) h
    = (h, inr (products_cache,
               answered_with (Telegram.show_product_detail products_cache
                                (next_index products_cache i)))) ∧
  handle_callback cfg r products_cache (lit "view_products") h
    = (h, inr (products_cache,
               answered_with (Telegram.show_products products_cache))).
Proof.
  intros Hint. split_and!; [done| | |done].
  - change (lit "product_prev_" ++ str_of_int i)
      with (lit "product_" ++ lit "prev" ++ Telegram.UNDERSCORE :: str_of_int i).
    rewrite handle_callback_product. unfold Telegram.handle_product_action.
    rewrite product_data_parts;
      [|absent|apply str_of_int_no_underscore].
    cbn [lookup list_lookup]. simpl. by rewrite Hint.
  - change (lit "product_next_" ++ str_of_int i)
      with (lit "product_" ++ lit "next" ++ Telegram.UNDERSCORE :: str_of_int i).
    rewrite handle_callback_product. unfold Telegram.handle_product_action.
    rewrite product_data_parts;
      [|absent|apply str_of_int_no_underscore].
    cbn [lookup list_lookup]. simpl. by rewrite Hint.
Qed.

(** X11. Callback data that [handle_callback] takes for a product action
    and that hold no index ([product_] and a rest without underscore) raise
    [IndexError]; with an index that [int] rejects they raise the error of
    [int], whatever the action; with an index and an action that is neither
    [next] nor [prev] nothing is shown.  Callback data that are none of the
    two commands and do not start with [product_] are acknowledged and
    nothing else happens.  In all four cases the cache is left as it
    is. *)
Theorem malformed_callback_data cfg r products_cache h :
  (∀ rest, Telegram.UNDERSCORE ∉ rest →
     handle_callback cfg r products_cache (lit "product_" ++ rest) h
       = (h, inr (products_cache, failed_with Telegram.IndexError))) ∧
  (∀ action index_text,
     Telegram.UNDERSCORE ∉ action → Telegram.UNDERSCORE ∉ index_text →
     int_of_str index_text = None →
     handle_callback cfg r products_cache
       (lit "product_" ++ action ++ Telegram.UNDERSCORE :: index_text) h
       = (h, inr (products_cache, failed_with Telegram.InvalidLiteral))) ∧
  (∀ action index_text,
     Telegram.UNDERSCORE ∉ action → Telegram.UNDERSCORE ∉ index_text →
     is_Some (int_of_str index_text) →
     action ≠ lit "next" → action ≠ lit "prev" →
     handle_callback cfg r products_cache
       (lit "product_" ++ action ++ Telegram.UNDERSCORE :: index_text) h
       = (h, inr (products_cache, only_answered))) ∧
  (∀ callback_data,
     callback_data ≠ lit "view_products" →
     callback_data ≠ lit "refresh_products" →
     Telegram.startswith (lit "product_") callback_data = false →
     handle_callback cfg r products_cache callback_data h
       = (h, inr (products_cache, only_answered))).
Proof.
  split_and!.
  - intros rest Hrest. rewrite handle_callback_product.
    unfold Telegram.handle_product_action.
    change (lit "product_" ++ rest)
      with (lit "product" ++ Telegram.UNDERSCORE :: rest).
    rewrite (split_first _ _ _ product_has_no_underscore), split_absent by done.
    done.
  - intros action index_text Haction Hindex Hint.
    rewrite handle_callback_product. unfold Telegram.handle_product_action.
    rewrite product_data_parts by done. cbn [lookup list_lookup]. simpl.
    by rewrite Hint.
  - intros action index_text Haction Hindex [i Hint] Hnext Hprev.
    rewrite handle_callback_product. unfold Telegram.handle_product_action.
    rewrite product_data_parts by done. cbn [lookup list_lookup]. simpl.
    rewrite Hint. by rewrite !decide_False by done.
  - intros callback_data Hview Hrefresh Hstarts.
    unfold Telegram.handle_callback.
    rewrite !decide_False by done. by rewrite Hstarts.
Qed.

(** X12. In the cache that a refresh leaves, the positions before and after
    a position that holds a product hold a product: from the view of a
    product, [next] and [prev] lead to the view of a product, never to the
    message that no product was found. *)
Theorem navigation_stays_in_cache cfg r products_cache h h' products_cache' p :
  load cfg r products_cache h = (h', inr products_cache') →
  is_Some (products_cache' !! p) →
  ∃ after before,
    products_cache' !! next_index products_cache' p = Some after ∧
    products_cache' !! prev_index products_cache' p = Some before ∧
    Telegram.show_product_detail products_cache' (next_index products_cache' p)
      = Telegram.product_message after (next_index products_cache' p) ∧
    Telegram.show_product_detail products_cache' (prev_index products_cache' p)
      = Telegram.product_message before (prev_index products_cache' p).
Proof.
  intros Hload Hp.
  destruct (load_cases float_of_str cfg r products_cache h)
    as (h0 & products & Hrun & _).
  rewrite Hrun in Hload. simplify_eq.
  destruct (number_products_from_1 products) as (_ & _ & Hdense).
  apply Hdense in Hp.
  destruct (proj2 (Hdense _) (next_index_in_range _ p Hp)) as [after Hafter].
  destruct (proj2 (Hdense _) (prev_index_in_range _ p Hp)) as [before Hbefore].
  exists after, before. unfold Telegram.show_product_detail.
  by rewrite Hafter, Hbefore.
Qed.

(** X13. After a refresh the list of products opens on the product at
    position 1 whenever the refresh left a product, and on the message that
    no product is available otherwise; it never opens on the message that
    no product was found. *)
Theorem list_opens_on_first_product cfg r products_cache h h' products_cache' :
  load cfg r products_cache h = (h', inr products_cache') →
  (products_cache' = ∅ →
     Telegram.show_products products_cache' = no_products_message) ∧
  (products_cache' ≠ ∅ →
     ∃ first,
       products_cache' !! 1 = Some first ∧
       Telegram.show_products products_cache' = Telegram.product_message first 1) ∧
  Telegram.show_products products_cache' ≠ not_found_message.
Proof.
  intros Hload.
  destruct (load_cases float_of_str cfg r products_cache h)
    as (h0 & products & Hrun & _).
  rewrite Hrun in Hload. simplify_eq.
  assert (Hfirst : number_products products ∅ 1 ≠ ∅ →
            ∃ first,
              number_products products ∅ 1 !! 1 = Some first ∧
              Telegram.show_products (number_products products ∅ 1)
              = Telegram.product_message first 1).
  { intros Hne. unfold Telegram.show_products. rewrite decide_False by done.
    destruct (number_products_from_1 products) as (Hsize & Hpos & _).
    destruct products as [|first rest]; [done|].
    exists first. specialize (Hpos 0%nat).
    change (Z.of_nat 0 + 1) with 1 in Hpos.
    change ((first :: rest) !! 0%nat) with (Some first) in Hpos.
    unfold Telegram.show_product_detail. by rewrite Hpos. }
  assert (Hnone : number_products products ∅ 1 = ∅ →
            Telegram.show_products (number_products products ∅ 1)
            = no_products_message).
  { intros Hempty. unfold Telegram.show_products. by rewrite decide_True. }
  split_and!; [done|done|].
  destruct (decide (number_products products ∅ 1 = ∅)) as [Hempty|Hne].
  - rewrite (Hnone Hempty). intros Hsame. vm_compute in Hsame. discriminate Hsame.
  - destruct (Hfirst Hne) as (first & _ & ->). discriminate.
Qed.

End HandlerFacts.

(** ** The sample reading of integers *)

Section SampleReading.
Import Py.

Lemma ascii_text_lit t : SampleHandlers.ascii_text (lit t) = Some t.
Proof.
  unfold SampleHandlers.ascii_text, lit.
  assert (Hall : forallb (λ c, (c <? 256)%N)
                   (List.map N_of_ascii (String.list_ascii_of_string t)) = true).
  { apply forallb_forall. intros c (a & <- & _)%in_map_iff.
    apply N.ltb_lt, N_ascii_bounded. }
  rewrite Hall. f_equal.
  rewrite List.map_map.
  rewrite (List.map_ext _ id) by (intros a; apply ascii_N_embedding).
  rewrite List.map_id. apply String.string_of_list_ascii_of_string.
Qed.

Lemma sample_int_reads_back : reads_back SampleHandlers.int_of_str.
Proof.
  intros n. unfold SampleHandlers.int_of_str, str_of_int.
  rewrite ascii_text_lit, NilZero.isi.
  - simpl. f_equal. apply DecimalZ.of_to.
  - destruct n; [done| |done]. simpl. intros [= H].
    by apply DecimalPos.Unsigned.to_uint_nonnil in H.
  - destruct n; [done|done|]. simpl. intros [= H].
    by apply DecimalPos.Unsigned.to_uint_nonnil in H.
Qed.

End SampleReading.

(** ** The further properties on the sample runs *)

Section FurtherSampleRuns.
Import Py IO.

Local Abbreviation load := (load_real_products Sample.float_of_str).
Local Abbreviation handle_callback :=
  (Telegram.handle_callback Sample.float_of_str SampleHandlers.int_of_str).

Lemma clean_description_is_stripped_witness :
  head (_clean_description (lit "  <b>Soy</b> wax ")) = Some 83%N ∧
  isspace 83 = false.
Proof.
  assert (Hhead : head (_clean_description (lit "  <b>Soy</b> wax ")) = Some 83%N)
    by (vm_compute; reflexivity).
  split; [exact Hhead|].
  apply (clean_description_is_stripped (lit "  <b>Soy</b> wax ") 83%N).
  left. exact Hhead.
Defined.

Lemma clean_description_plain_text_witness :
  _clean_description (lit "Soy wax, hand made") = lit "Soy wax, hand made".
Proof.
  apply clean_description_plain_text.
  - intros H. vm_compute in H.
    repeat (apply elem_of_cons in H as [H|H]; [discriminate H|]).
    by apply elem_of_nil in H.
  - intros H. vm_compute in H.
    repeat (apply elem_of_cons in H as [H|H]; [discriminate H|]).
    by apply elem_of_nil in H.
  - intros c [H|H]; vm_compute in H; injection H as <-; reflexivity.
Defined.

Example shop_lookups_do_not_raise :
  ∀ k id e, [101; 102; 103] !! k = Some id →
    lookup_answer Sample.shop [] [101; 102; 103] k id ≠ LookupFailed e.
Proof.
  intros k id e Hid. unfold lookup_answer.
  destruct k as [|[|[|k]]]; simpl in Hid; [..|done];
    injection Hid as <-; vm_compute; discriminate.
Qed.

Lemma descriptions_skip_failed_lookups_witness :
  ∃ descriptions_data,
    _get_products_descriptions_v1 Sample.shop [101; 102; 103] []
      = ([] ++ (InfoDescription <$> [101; 102; 103]), inr descriptions_data) ∧
    is_Some (descriptions_data !! 101) ∧ descriptions_data !! 102 = None.
Proof.
  destruct (descriptions_skip_failed_lookups Sample.shop [] [101; 102; 103]
              shop_lookups_do_not_raise)
    as (dd & Hrun & Hkeys & _).
  exists dd. split; [exact Hrun|]. split.
  - apply Hkeys. exists 0%nat. eexists. split; [reflexivity|]. vm_compute. reflexivity.
  - destruct (dd !! 102) as [info|] eqn:Hinfo; [|reflexivity].
    destruct (proj1 (Hkeys 102) (ex_intro _ info Hinfo)) as (k & res & Hid & Hans).
    destruct k as [|[|[|k]]]; simpl in Hid; try discriminate Hid.
    vm_compute in Hans. discriminate Hans.
Defined.

Lemma descriptions_lost_on_exception_witness :
  _get_products_descriptions_v1 SampleHandlers.flaky_descriptions [101; 102; 103] []
    = ([] ++ (InfoDescription <$> take 3 [101; 102; 103]), inr ∅).
Proof.
  apply (descriptions_lost_on_exception SampleHandlers.flaky_descriptions []
           [101; 102; 103] 2%nat 103 Timeout).
  - reflexivity.
  - vm_compute. reflexivity.
  - intros j id' e' Hj Hid'. unfold lookup_answer.
    destruct j as [|[|j]]; [..|lia]; simpl in Hid'; injection Hid' as <-;
      vm_compute; discriminate.
Defined.

Lemma product_link_identifies_offer_witness :
  create_product_link (Some SampleHandlers.towel) = lit "https://www.ozon.ru" ∧
  create_product_link (Some SampleHandlers.candle)
    = lit "https://www.ozon.ru/search/?text=SPA-CANDLE" ∧
  create_product_link (Some SampleHandlers.candle)
    ≠ create_product_link (Some SampleHandlers.soap).
Proof.
  split; [|split].
  - apply (proj2 (proj1 (product_link_identifies_offer
                           SampleHandlers.towel SampleHandlers.towel))).
    left. reflexivity.
  - apply (proj1 (proj2 (product_link_identifies_offer
                           SampleHandlers.candle SampleHandlers.candle))
             (lit "SPA-CANDLE") eq_refl).
    discriminate.
  - intros Hsame.
    pose proof (proj2 (proj2 (product_link_identifies_offer
                                SampleHandlers.candle SampleHandlers.soap))
                  (lit "SPA-CANDLE") (lit "SPA-SOAP") eq_refl eq_refl
                  ltac:(discriminate) ltac:(discriminate) Hsame)
      as Hcodes.
    vm_compute in Hcodes. discriminate.
Defined.




Lemma short_description_not_truncated_witness :
  ∃ p,
    number_products
      [SampleHandlers.candle; SampleHandlers.towel] ∅ 1 !! 1 = Some p ∧
    description p
    = _clean_description (lit "<p>Soy wax</p><br/>Hand made").
Proof.
  eexists. split; [vm_compute; reflexivity|].
  destruct (proj2 (short_description_not_truncated Sample.float_of_str)
              Sample.keys Sample.shop ∅ [] _ _ 1 _ shop_refresh
              ltac:(vm_compute; reflexivity))
    as (items & pd & dd & Hrec & Hshort).
  destruct (reconciles_unique _ _ _ _ _ _ _ _ Hrec shop_reconciles) as (_ & _ & ->).
  apply Hshort; [discriminate|]. vm_compute. lia.
Defined.

Lemma refresh_request_budget_witness :
  ∃ issued products_cache',
    load Sample.keys Sample.shop ∅ [] = ([] ++ issued, inr products_cache') ∧
    (length issued ≤ 1 + (3 + 49) / 50 + 3)%nat.
Proof.
  destruct (refresh_request_budget Sample.float_of_str Sample.keys Sample.shop ∅ [])
    as (issued & cache' & Hload & _ & Hbudget).
  exists issued, cache'. split; [exact Hload|].
  destruct (Hbudget eq_refl) as (k & j & _ & Hlen). exact Hlen.
Defined.

Lemma detail_buttons_round_trip_witness :
  handle_callback Sample.keys Sample.shop Sample.two_products
    (lit "product_next_2") []
  = ([], inr (Sample.two_products,
              answered_with
                (Telegram.show_product_detail Sample.two_products
                   (next_index Sample.two_products 2)))).
Proof.
  destruct (detail_buttons_round_trip Sample.float_of_str SampleHandlers.int_of_str
              Sample.keys Sample.shop Sample.two_products [] SampleHandlers.towel 2
              sample_int_reads_back)
    as (_ & _ & Hnext & _).
  exact Hnext.
Defined.

Lemma malformed_callback_data_witness :
  handle_callback Sample.keys Sample.shop Sample.two_products (lit "product_next") []
    = ([], inr (Sample.two_products, failed_with Telegram.IndexError)) ∧
  handle_callback Sample.keys Sample.shop Sample.two_products (lit "product_next_two") []
    = ([], inr (Sample.two_products, failed_with Telegram.InvalidLiteral)) ∧
  handle_callback Sample.keys Sample.shop Sample.two_products (lit "product_last_2") []
    = ([], inr (Sample.two_products, only_answered)) ∧
  handle_callback Sample.keys Sample.shop Sample.two_products (lit "help") []
    = ([], inr (Sample.two_products, only_answered)).
Proof.
  destruct (malformed_callback_data Sample.float_of_str SampleHandlers.int_of_str
              Sample.keys Sample.shop Sample.two_products [])
    as (Hindex & Hliteral & Haction & Hother).
  split; [|split; [|split]].
  - apply (Hindex (lit "next")). absent.
  - apply (Hliteral (lit "next") (lit "two")); [absent|absent|].
    vm_compute. reflexivity.
  - apply (Haction (lit "last") (lit "2")); [absent|absent| | |].
    + vm_compute. eauto.
    + discriminate.
    + discriminate.
  - apply Hother; [discriminate|discriminate|reflexivity].
Defined.

Lemma navigation_stays_in_cache_witness :
  ∃ after,
    number_products [SampleHandlers.candle; SampleHandlers.towel] ∅ 1
      !! next_index
           (number_products [SampleHandlers.candle; SampleHandlers.towel] ∅ 1) 2
    = Some after.
Proof.
  destruct (navigation_stays_in_cache Sample.float_of_str Sample.keys Sample.shop
              ∅ [] _ _ 2 shop_refresh)
    as (after & before & Hafter & _).
  - vm_compute. eauto.
  - exists after. exact Hafter.
Defined.

Lemma list_opens_on_first_product_witness :
  ∃ first,
    number_products [SampleHandlers.candle; SampleHandlers.towel] ∅ 1 !! 1
      = Some first ∧
    Telegram.show_products
      (number_products [SampleHandlers.candle; SampleHandlers.towel] ∅ 1)
    = Telegram.product_message first 1.
Proof.
  destruct (list_opens_on_first_product Sample.float_of_str Sample.keys Sample.shop
              ∅ [] _ _ shop_refresh)
    as (_ & Hfirst & _).
  apply Hfirst. intros Hempty.
  apply (f_equal size) in Hempty. vm_compute in Hempty. discriminate.
Defined.

End FurtherSampleRuns.

(** ** Refresh from the keyboard, and what descriptions cannot change *)

Section KeyboardRefresh.
Import Py IO.
Variable float_of_str : str → option spec_float.
Variable int_of_str : str → option Z.

Local Abbreviation handle_callback := (Telegram.handle_callback float_of_str int_of_str).
Local Abbreviation load := (load_real_products float_of_str).
Local Abbreviation build := (build_product float_of_str).

(** X14. On a cache of [N] products, at a position between 1 and [N],
    [prev] undoes [next] and [next] undoes [prev]. *)
Theorem next_and_prev_are_inverse products_cache p :
  1 ≤ p ≤ len products_cache →
  prev_index products_cache (next_index products_cache p) = p ∧
  next_index products_cache (prev_index products_cache p) = p.
Proof.
  intros Hp. unfold prev_index, next_index.
  split.
  - destruct (Z.ltb_spec (len products_cache) (p + 1)).
    + destruct (Z.ltb_spec (1 - 1) 1); lia.
    + destruct (Z.ltb_spec (p + 1 - 1) 1); lia.
  - destruct (Z.ltb_spec (p - 1) 1).
    + destruct (Z.ltb_spec (len products_cache) (len products_cache + 1)); lia.
    + destruct (Z.ltb_spec (len products_cache) (p - 1 + 1)); lia.
Qed.

(** X15. The refresh button leaves the cache of [load_real_products] and
    makes three calls: the acknowledgement, the progress message and a
    result.  When the refresh left a product, the result offers the list;
    when it left none, the result offers to try again or to use the current
    list, and that list, the cache being empty by then, opens on no
    product. *)
Theorem refresh_button_outcome cfg r products_cache h :
  ∃ h' products_cache' progress result,
    load cfg r products_cache h = (h', inr products_cache') ∧
    handle_callback cfg r products_cache (lit "refresh_products") h
      = (h', inr (products_cache',
                  {| Telegram.calls := [Telegram.Answer; progress; result];
                     Telegram.raised := None |})) ∧
    (products_cache' ≠ ∅ →
       omap Telegram.callback_data (buttons result) = [lit "view_products"]) ∧
    (products_cache' = ∅ →
       omap Telegram.callback_data (buttons result)
         = [lit "refresh_products"; lit "view_products"] ∧
       ∀ q i, Telegram.show_products products_cache'
              ≠ Telegram.product_message q i).
Proof.
  destruct (load_cases float_of_str cfg r products_cache h)
    as (h' & products & Hrun & _).
  set (cache' := number_products products ∅ 1) in *.
  unfold Telegram.handle_callback.
  rewrite decide_False by (intros H; vm_compute in H; discriminate).
  rewrite decide_True by done.
  unfold Telegram.refresh_products_callback, refresh_products_callback, bind.
  rewrite Hrun. unfold ret.
  destruct (Nat.ltb_spec 0 (size cache')) as [Hsome|Hnone].
  - eexists h', cache', _, _. split_and!; [done|reflexivity| |].
    + done.
    + intros Hempty. rewrite Hempty, map_size_empty in Hsome. lia.
  - eexists h', cache', _, _. split_and!; [done|reflexivity| |].
    + intros Hne. destruct Hne. apply map_size_empty_iff. lia.
    + intros Hempty. split; [done|]. intros q i.
      unfold Telegram.show_products. by rewrite decide_True.
Qed.

Lemma for_each_ext {A S} (body1 body2 : A → S → io S) xs : ∀ s h,
  (∀ x s h, body1 x s h = body2 x s h) →
  for_each xs body1 s h = for_each xs body2 s h.
Proof.
  induction xs as [|x xs IH]; intros s h Hext; [done|].
  cbn [for_each]. unfold bind. rewrite Hext.
  destruct (body2 x s h) as [h1 [e|s1]]; [done|]. by apply IH.
Qed.

(** The price lookup depends on the price answers only. *)
Lemma get_prices_ext r1 r2 product_ids h :
  (∀ g ids, info_prices r1 g ids = info_prices r2 g ids) →
  _get_products_prices_v5 r1 product_ids h = _get_products_prices_v5 r2 product_ids h.
Proof.
  intros Hext. unfold _get_products_prices_v5.
  destruct product_ids as [|x l]; [done|]. unfold try_except.
  rewrite (for_each_ext _ (λ i, prices_batch r2 (take 50 (drop i (x :: l))))); [done|].
  intros i s g. by rewrite !prices_batch_step, Hext.
Qed.

(** What a product holds of its item and of its price is what the product
    built without any description record holds; a description that the
    sanitizer does not accept leaves the item out. *)
Lemma build_product_listed_part prices_data descriptions_data item :
  listed_part <$> build prices_data descriptions_data item =
  match li_product_id item with
  | Some i =>
      if textual (source_value descriptions_data i)
      then listed_part <$> build prices_data ∅ item
      else None
  | None => None
  end.
Proof.
  unfold build_product, build_product_body, source_value.
  destruct (li_product_id item) as [i|]; [|done].
  rewrite lookup_empty.
  destruct (i =? 0); [by destruct (textual _)|].
  destruct (descriptions_data !! i) as [info|].
  - destruct (stored_description info) as [|b|k|f|[|c s]|b];
      cbn [textual truthy negb clean_description_value];
      repeat match goal with
             | |- context [if ?b then _ else _] =>
                 match b with
                 | _ =? 0 => fail 1
                 | _ => destruct b eqn:?
                 end
             end;
      try done;
      by destruct (_extract_price_from_v5 _ _ =? 0).
  - cbn [textual truthy negb]. by destruct (_extract_price_from_v5 _ _ =? 0).
Qed.

Lemma omap_pointwise {A B} (f g : A → option B) (l : list A) :
  (∀ x, f x = g x) → omap f l = omap g l.
Proof.
  intros Hfg. induction l as [|x l IH]; [done|].
  change (omap f (x :: l)) with
    (match f x with Some y => y :: omap f l | None => omap f l end).
  change (omap g (x :: l)) with
    (match g x with Some y => y :: omap g l | None => omap g l end).
  by rewrite Hfg, IH.
Qed.

Lemma omap_sublist {A B} (f g : A → option B) (l : list A) :
  (∀ x, f x = g x ∨ f x = None) → omap f l `sublist_of` omap g l.
Proof.
  intros Hfg. induction l as [|x l IH]; [constructor|].
  change (omap f (x :: l)) with
    (match f x with Some y => y :: omap f l | None => omap f l end).
  change (omap g (x :: l)) with
    (match g x with Some y => y :: omap g l | None => omap g l end).
  destruct (Hfg x) as [->| ->].
  - destruct (g x); [by apply sublist_skip|done].
  - destruct (g x); [by apply sublist_cons|done].
Qed.

(** The description records that a lookup returns hold what the remote
    side answered. *)
Lemma descriptions_loop_textual r ids :
  textual_descriptions r →
  ∀ descriptions_data h h' found,
    all_textual descriptions_data →
    for_each ids (description_turn r) descriptions_data h = (h', inr found) →
    all_textual found.
Proof.
  intros Hr. induction ids as [|id rest IH]; intros dd h h' found Hdd.
  - by intros [= <- <-].
  - cbn [for_each]. unfold bind. rewrite description_turn_step.
    unfold lookup_outcome_of.
    destruct (info_description r h id) as [e|resp] eqn:Hans; [done|].
    destruct (status_code resp =? 200); [|by apply IH].
    destruct (json resp) as [e|[res|]] eqn:Hjson; [done| |by apply IH].
    apply IH. intros i info.
    destruct (decide (id = i)) as [<-|Hne].
    + rewrite lookup_insert_eq. intros [= <-]. unfold stored. cbn [stored_description].
      destruct (dr_description res) as [v|] eqn:Hv; [|done].
      by apply (Hr h id resp res v).
    + rewrite lookup_insert_ne by done. apply Hdd.
Qed.

Lemma get_descriptions_textual r product_ids h h' descriptions_data :
  textual_descriptions r →
  _get_products_descriptions_v1 r product_ids h = (h', inr descriptions_data) →
  all_textual descriptions_data.
Proof.
  intros Hr. unfold _get_products_descriptions_v1.
  destruct product_ids as [|x l].
  - intros [= <- <-]. by intros i info.
  - unfold try_except.
    destruct (for_each _ _ _ h) as [h1 [e|found]] eqn:Hrun.
    + intros [= <- <-]. by intros i info.
    + intros [= <- <-]. eapply descriptions_loop_textual; [done| |done].
      by intros i info.
Qed.

Lemma all_textual_source descriptions_data i :
  all_textual descriptions_data →
  textual (source_value descriptions_data i) = true.
Proof.
  intros Hdd. unfold source_value.
  destruct (descriptions_data !! i) as [info|] eqn:Hinfo; [by eapply Hdd|done].
Qed.

Lemma number_products_listed_parts (l1 l2 : list product) pos :
  listed_part <$> l1 = listed_part <$> l2 →
  listed_part <$> (number_products l1 ∅ 1 !! pos)
  = listed_part <$> (number_products l2 ∅ 1 !! pos).
Proof.
  intros Hparts.
  assert (Hlen : length l1 = length l2).
  { by rewrite <- (length_fmap listed_part l1), Hparts, length_fmap. }
  rewrite !number_products_lookup, Hlen.
  case_decide; [|done]. by rewrite <- !list_lookup_fmap, Hparts.
Qed.

(** X16. The descriptions add no product and set no price, and they leave
    an item out only where the sanitizer raises.  Of two remote sides that
    answer the listing and the price requests alike, the second with
    descriptions that the sanitizer accepts, the first leaves products
    that are, in order, among those of the second by identifier, offer
    code and price; when the descriptions of the first are accepted as
    well, the two caches hold, position by position, products with the
    same identifier, offer code and price, whatever the description
    lookups answer or raise. *)
Theorem descriptions_select_no_product cfg r1 r2 cache1 cache2 h :
  (∀ g limit, list_products r1 g limit = list_products r2 g limit) →
  (∀ g ids, info_prices r1 g ids = info_prices r2 g ids) →
  textual_descriptions r2 →
  ∃ h1 products1 h2 products2,
    load cfg r1 cache1 h = (h1, inr (number_products products1 ∅ 1)) ∧
    load cfg r2 cache2 h = (h2, inr (number_products products2 ∅ 1)) ∧
    (listed_part <$> products1) `sublist_of` (listed_part <$> products2) ∧
    (textual_descriptions r1 →
     ∀ pos, listed_part <$> (number_products products1 ∅ 1 !! pos)
            = listed_part <$> (number_products products2 ∅ 1 !! pos)).
Proof.
  intros Hlist Hprices Hr2.
  destruct (keys_missing cfg) eqn:Hkeys.
  { exists h, [], h, []. by rewrite !load_without_keys. }
  destruct (listing (list_products r1 h 20)) as [items|] eqn:Hl1; cycle 1.
  { exists (h ++ [ProductList 20]), [], (h ++ [ProductList 20]), [].
    rewrite !load_nothing; try done.
    - rewrite <- Hlist, Hl1. done.
    - rewrite Hl1. done. }
  assert (Hl2 : listing (list_products r2 h 20) = Some items) by (by rewrite <- Hlist).
  destruct (decide (identifiers items = [])) as [Hids|Hids].
  { exists (h ++ [ProductList 20]), [], (h ++ [ProductList 20]), [].
    rewrite !load_nothing; try done.
    - rewrite Hl2. by intros ? [= <-].
    - rewrite Hl1. by intros ? [= <-]. }
  destruct (get_prices_returns r1 (identifiers items) (h ++ [ProductList 20]))
    as (g & pd & Hp1).
  assert (Hp2 : _get_products_prices_v5 r2 (identifiers items) (h ++ [ProductList 20])
                = (g, inr pd)) by (by rewrite <- (get_prices_ext r1 r2)).
  destruct (get_descriptions_returns r1 (identifiers items) g) as (h1 & dd1 & Hd1).
  destruct (get_descriptions_returns r2 (identifiers items) g) as (h2 & dd2 & Hd2).
  pose proof (get_descriptions_textual _ _ _ _ _ Hr2 Hd2) as Hdd2.
  exists h1, (omap (build pd dd1) items), h2, (omap (build pd dd2) items).
  split_and!.
  - by apply (load_some float_of_str cfg r1 cache1 h items g pd h1 dd1).
  - by apply (load_some float_of_str cfg r2 cache2 h items g pd h2 dd2).
  - rewrite !list_fmap_omap. apply omap_sublist. intros item.
    rewrite (build_product_listed_part pd dd1), (build_product_listed_part pd dd2).
    destruct (li_product_id item) as [i|]; [|by left].
    rewrite (all_textual_source dd2 i Hdd2).
    destruct (textual (source_value dd1 i)); [by left|by right].
  - intros Hr1 pos.
    pose proof (get_descriptions_textual _ _ _ _ _ Hr1 Hd1) as Hdd1.
    apply number_products_listed_parts.
    rewrite !list_fmap_omap. apply omap_pointwise. intros item.
    rewrite (build_product_listed_part pd dd1), (build_product_listed_part pd dd2).
    destruct (li_product_id item) as [i|]; [|done].
    by rewrite (all_textual_source dd1 i Hdd1), (all_textual_source dd2 i Hdd2).
Qed.

End KeyboardRefresh.

Section KeyboardSampleRuns.
Import Py IO.

Lemma next_and_prev_are_inverse_witness :
  prev_index Sample.two_products (next_index Sample.two_products 2) = 2 ∧
  next_index Sample.two_products (prev_index Sample.two_products 1) = 1.
Proof.
  assert (Hlen : len Sample.two_products = 2) by (vm_compute; reflexivity).
  split.
  - apply (next_and_prev_are_inverse Sample.two_products 2). rewrite Hlen. lia.
  - apply (next_and_prev_are_inverse Sample.two_products 1). rewrite Hlen. lia.
Defined.

Lemma refresh_button_outcome_witness :
  ∃ h' progress result,
    Telegram.handle_callback Sample.float_of_str SampleHandlers.int_of_str
      Sample.keys Sample.unreachable Sample.two_products (lit "refresh_products") []
    = (h', inr (∅, {| Telegram.calls := [Telegram.Answer; progress; result];
                      Telegram.raised := None |})) ∧
    omap Telegram.callback_data (buttons result)
      = [lit "refresh_products"; lit "view_products"].
Proof.
  destruct (refresh_button_outcome Sample.float_of_str SampleHandlers.int_of_str
              Sample.keys Sample.unreachable Sample.two_products [])
    as (h' & cache' & progress & result & Hload & Hcall & _ & Hempty).
  assert (Hcache : cache' = ∅).
  { vm_compute in Hload. by injection Hload as _ <-. }
  subst cache'. exists h', progress, result. split; [exact Hcall|].
  exact (proj1 (Hempty eq_refl)).
Defined.

Example text_as_description_textual :
  textual_descriptions Sample.text_as_description.
Proof.
  intros g id resp res v Hans Hjson Hv. simpl in Hans.
  injection Hans as <-. simpl in Hjson. injection Hjson as <-.
  simpl in Hv. by injection Hv as <-.
Qed.

Lemma descriptions_select_no_product_witness :
  ∃ h1 products1 h2 products2,
    load_real_products Sample.float_of_str Sample.keys
      Sample.number_as_description ∅ []
      = (h1, inr (number_products products1 ∅ 1)) ∧
    load_real_products Sample.float_of_str Sample.keys
      Sample.text_as_description ∅ []
      = (h2, inr (number_products products2 ∅ 1)) ∧
    (listed_part <$> products1) `sublist_of` (listed_part <$> products2).
Proof.
  destruct (descriptions_select_no_product Sample.float_of_str Sample.keys
              Sample.number_as_description Sample.text_as_description ∅ ∅ [])
    as (h1 & l1 & h2 & l2 & H1 & H2 & Hsub & _).
  - reflexivity.
  - reflexivity.
  - exact text_as_description_textual.
  - exists h1, l1, h2, l2. split; [exact H1|]. split; [exact H2|]. exact Hsub.
Defined.

End KeyboardSampleRuns.
